(** * Gorm adapter: the rule codec, the mutation executor and the
      transaction wrappers, embedded from adapter.go, internal_func.go and
      context_adapter.go. *)

From Stdlib Require Import ZArith Lia.
From stdpp Require Import gmap strings list fin_maps sorting pretty.

Open Scope string_scope.
Open Scope list_scope.
Open Scope Z_scope.

(** ** Go values *)

(** A Go [error] value; [nil] is [None]. *)
Definition error := string.

(** How a Go call ends: it returns a value or it panics. *)
Inductive outcome (A : Type) : Type :=
| Return (a : A)
| Panicked (msg : string).
Arguments Return {A} a.
Arguments Panicked {A} msg.

(** [len(s)] of a slice, a Go [int]. *)
Definition len {A} (s : list A) : Z := Z.of_nat (length s).

(** [s[i]] on a slice: out of range is a run-time panic, here [None]. *)
Definition index {A} (s : list A) (i : Z) : option A :=
  if bool_decide (0 <= i) then s !! Z.to_nat i else None.

(** [s[:n]] for [0 <= n <= len(s)]. *)
Definition slice_to {A} (s : list A) (n : Z) : list A := take (Z.to_nat n) s.

(** ** The row type (adapter.go, CasbinRule) *)

Record CasbinRule := mkRule {
  ID : N;
  Ptype : string;
  V0 : string; V1 : string; V2 : string; V3 : string;
  V4 : string; V5 : string; V6 : string; V7 : string
}.

Global Instance CasbinRule_eq_dec : EqDecision CasbinRule.
Proof. solve_decision. Defined.

Definition with_Ptype (x : string) (l : CasbinRule) : CasbinRule :=
  mkRule (ID l) x (V0 l) (V1 l) (V2 l) (V3 l) (V4 l) (V5 l) (V6 l) (V7 l).
Definition with_V0 (x : string) (l : CasbinRule) : CasbinRule :=
  mkRule (ID l) (Ptype l) x (V1 l) (V2 l) (V3 l) (V4 l) (V5 l) (V6 l) (V7 l).
Definition with_V1 (x : string) (l : CasbinRule) : CasbinRule :=
  mkRule (ID l) (Ptype l) (V0 l) x (V2 l) (V3 l) (V4 l) (V5 l) (V6 l) (V7 l).
Definition with_V2 (x : string) (l : CasbinRule) : CasbinRule :=
  mkRule (ID l) (Ptype l) (V0 l) (V1 l) x (V3 l) (V4 l) (V5 l) (V6 l) (V7 l).
Definition with_V3 (x : string) (l : CasbinRule) : CasbinRule :=
  mkRule (ID l) (Ptype l) (V0 l) (V1 l) (V2 l) x (V4 l) (V5 l) (V6 l) (V7 l).
Definition with_V4 (x : string) (l : CasbinRule) : CasbinRule :=
  mkRule (ID l) (Ptype l) (V0 l) (V1 l) (V2 l) (V3 l) x (V5 l) (V6 l) (V7 l).
Definition with_V5 (x : string) (l : CasbinRule) : CasbinRule :=
  mkRule (ID l) (Ptype l) (V0 l) (V1 l) (V2 l) (V3 l) (V4 l) x (V6 l) (V7 l).
Definition with_V6 (x : string) (l : CasbinRule) : CasbinRule :=
  mkRule (ID l) (Ptype l) (V0 l) (V1 l) (V2 l) (V3 l) (V4 l) (V5 l) x (V7 l).
Definition with_V7 (x : string) (l : CasbinRule) : CasbinRule :=
  mkRule (ID l) (Ptype l) (V0 l) (V1 l) (V2 l) (V3 l) (V4 l) (V5 l) (V6 l) x.

(** [getTableInstance]: [&CasbinRule{}], the zero value. *)
Definition getTableInstance : CasbinRule :=
  mkRule 0%N "" "" "" "" "" "" "" "" "".

(** ** Rule codec *)

(** [savePolicyLine]: each [if len(rule) > k { line.Vk = rule[k] }] in turn.
    The guard keeps [rule[k]] in range, so the default is never read. *)
Definition savePolicyLine (ptype : string) (rule : list string) : CasbinRule :=
  let at_ (k : Z) := default "" (index rule k) in
  let line := getTableInstance in
  let line := with_Ptype ptype line in
  let line := if bool_decide (len rule > 0) then with_V0 (at_ 0) line else line in
  let line := if bool_decide (len rule > 1) then with_V1 (at_ 1) line else line in
  let line := if bool_decide (len rule > 2) then with_V2 (at_ 2) line else line in
  let line := if bool_decide (len rule > 3) then with_V3 (at_ 3) line else line in
  let line := if bool_decide (len rule > 4) then with_V4 (at_ 4) line else line in
  let line := if bool_decide (len rule > 5) then with_V5 (at_ 5) line else line in
  let line := if bool_decide (len rule > 6) then with_V6 (at_ 6) line else line in
  let line := if bool_decide (len rule > 7) then with_V7 (at_ 7) line else line in
  line.

(** The slice literal [[]string{line.Ptype, line.V0, ..., line.V7}] that
    opens both [loadPolicyLine] and the body of [Preview]'s loop. *)
Definition columns (line : CasbinRule) : list string :=
  [Ptype line; V0 line; V1 line; V2 line; V3 line;
   V4 line; V5 line; V6 line; V7 line].

(** How the trailing-trim loop ends. *)
Inductive scan :=
| Stopped (index : Z)   (* the loop condition became false at [index] *)
| OutOfRange (index : Z) (* [p[index]] was evaluated out of range: panic *)
| NoFuel.

(** [for p[index] == "" { index-- }]. The loop has no bound of its own;
    [fuel] bounds the iterations of the embedding only. *)
Fixpoint trimLoop (fuel : nat) (p : list string) (index_ : Z) : scan :=
  match fuel with
  | O => NoFuel
  | S fuel' =>
      match index p index_ with
      | None => OutOfRange index_
      | Some s =>
          if bool_decide (s = "") then trimLoop fuel' p (index_ - 1)
          else Stopped index_
      end
  end.

(** [index := len(p) - 1; for p[index] == "" { index-- }; index += 1;
    p = p[:index]].  Every iteration lowers [index] by one from
    [len(p) - 1] and the loop panics at [-1], so [len(p) + 1] iterations
    are all it can make. *)
Definition trimTrailing (p : list string) : outcome (list string) :=
  match trimLoop (S (length p)) p (len p - 1) with
  | Stopped index_ => Return (slice_to p (index_ + 1))
  | OutOfRange index_ => Panicked "index out of range"
  | NoFuel => Panicked "unreachable"
  end.

(** The decoding half of [loadPolicyLine]: the tuple handed to the engine. *)
Definition rowToRule (line : CasbinRule) : outcome (list string) :=
  trimTrailing (columns line).

(** As the spec words it: [t] without its trailing empty strings. *)
Fixpoint trimTrailingEmpty (t : list string) : list string :=
  match t with
  | [] => []
  | x :: r =>
      match trimTrailingEmpty r with
      | [] => if bool_decide (x = "") then [] else [x]
      | r' => x :: r'
      end
  end.

(** ** The engine's model (casbin [model.Model])

    [model.Model] is [map[string]AssertionMap] and [AssertionMap] is
    [map[string]*Assertion]; the adapter reads [ast.Policy] only.  Go leaves
    the iteration order of a map unspecified; [map_to_list] fixes one. *)

Record Assertion := mkAssertion { Policy : list (list string) }.

Abbreviation AssertionMap := (gmap string Assertion).
Abbreviation Model := (gmap string (gmap string Assertion)).

(** [model[sec][ptype].Policy], empty when a key is missing. *)
Definition getPolicy (model : Model) (sec ptype : string) : list (list string) :=
  match (model !!! sec : AssertionMap) !! ptype with
  | Some ast => Policy ast
  | None => []
  end.

(** ** The store

    The database behind gorm is an external collaborator.  It is embedded as
    the rows of the adapter's table, the write logs of the transactions that
    are open, the auto-increment counter of [id], a script of the failures
    the next statements meet (connectivity loss, constraint violation, ...),
    and the trace of what was sent to it. *)

Inductive column := Cptype | Cv0 | Cv1 | Cv2 | Cv3 | Cv4 | Cv5 | Cv6 | Cv7.

Definition cell (c : column) (r : CasbinRule) : string :=
  match c with
  | Cptype => Ptype r
  | Cv0 => V0 r | Cv1 => V1 r | Cv2 => V2 r | Cv3 => V3 r
  | Cv4 => V4 r | Cv5 => V5 r | Cv6 => V6 r | Cv7 => V7 r
  end.

Definition set_cell (c : column) (x : string) (r : CasbinRule) : CasbinRule :=
  match c with
  | Cptype => with_Ptype x r
  | Cv0 => with_V0 x r | Cv1 => with_V1 x r | Cv2 => with_V2 x r
  | Cv3 => with_V3 x r | Cv4 => with_V4 x r | Cv5 => with_V5 x r
  | Cv6 => with_V6 x r | Cv7 => with_V7 x r
  end.

(** One conjunct of a WHERE clause: ["c = ?"] or ["c in (?)"] with its
    argument. *)
Inductive clause :=
| Eq (c : column) (v : string)
| OneOf (c : column) (vs : list string).

(** A WHERE clause: the conjunction of its clauses. *)
Definition cond := list clause.

Definition holds (cl : clause) (r : CasbinRule) : bool :=
  match cl with
  | Eq c v => bool_decide (cell c r = v)
  | OneOf c vs => bool_decide (cell c r ∈ vs)
  end.

Definition matches (q : cond) (r : CasbinRule) : bool :=
  forallb (fun cl => holds cl r) q.

(** The raw SQL of [truncateTable]. *)
Inductive rawsql :=
| DeleteFrom (table : string)
| TruncateTable (table : string) (restartIdentity : bool).

(** A write, as it changes the rows of the table. *)
Inductive write :=
| WClear
| WCreate (lines : list CasbinRule)
| WDelete (q : cond)
| WUpdate (q : cond) (assign : list (column * string)).

Definition apply_write (w : write) (rows : list CasbinRule) : list CasbinRule :=
  match w with
  | WClear => []
  | WCreate lines => rows ++ lines
  | WDelete q => filter (fun r => matches q r = false) rows
  | WUpdate q assign =>
      (fun r => if matches q r
                then foldl (fun r cv => set_cell cv.1 cv.2 r) r assign
                else r) <$> rows
  end.

Definition replay (log : list write) (rows : list CasbinRule) : list CasbinRule :=
  foldl (fun rows w => apply_write w rows) rows log.

(** A statement as the database receives it. *)
Inductive stmt :=
| SBegin
| SCommit
| SRollback
| SExec (sql : rawsql)
| SCreate (lines : list CasbinRule)
| SDelete (q : cond)
| SDeleteFrom (name : string) (q : cond)  (* a DELETE on another table *)
| SUpdate (q : cond) (assign : list (column * string))
| SFind (q : cond) (ordered : bool).

Inductive event :=
| Stmt (tx : option nat) (s : stmt)  (* a statement, and the transaction it ran in *)
| Reload                             (* the engine's reload hook was called *)
| Log (e : error).                   (* [log.Println(err)] *)

Record Store := mkStore {
  table : list CasbinRule;
  txs : gmap nat (list write);
  nextTx : nat;
  nextID : N;
  faults : list (option error);
  trace : list event
}.

(** A [*gorm.DB] value: the connection pool, or a transaction begun on it,
    and its [Error] field. *)
Record DB := mkDB {
  txid : option nat;
  Error : option error
}.

Definition conn : DB := mkDB None None.

Definition ErrInvalidTransaction : error := "invalid transaction".
Definition ErrTxDone : error :=
  "sql: transaction has already been committed or rolled back".

(** State passing over the store. *)
Definition M (A : Type) : Type := Store -> A * Store.

Definition ret {A} (a : A) : M A := fun s => (a, s).
Definition bind {A B} (c : M A) (k : A -> M B) : M B :=
  fun s => let (a, s') := c s in k a s'.

Notation "x <- c ;; k" := (bind c (fun x => k))
  (at level 62, c at next level, right associativity).
Notation "c ;;; k" := (bind c (fun _ => k))
  (at level 62, right associativity).

Definition emit (e : event) : M unit :=
  fun s => (tt, mkStore (table s) (txs s) (nextTx s) (nextID s) (faults s)
                        (trace s ++ [e])).

(** The next entry of the failure script; an exhausted script means success. *)
Definition fault : M (option error) :=
  fun s => match faults s with
           | [] => (None, s)
           | f :: fs => (f, mkStore (table s) (txs s) (nextTx s) (nextID s) fs
                                    (trace s))
           end.

Definition set_table (rows : list CasbinRule) : M unit :=
  fun s => (tt, mkStore rows (txs s) (nextTx s) (nextID s) (faults s) (trace s)).

Definition set_txs (t : gmap nat (list write)) : M unit :=
  fun s => (tt, mkStore (table s) t (nextTx s) (nextID s) (faults s) (trace s)).

(** The rows a handle sees: the table, with the handle's own pending writes
    applied when it is a transaction. *)
Definition view (db : DB) (s : Store) : list CasbinRule :=
  match txid db with
  | None => table s
  | Some t => replay (default [] (txs s !! t)) (table s)
  end.

(** Sends one statement.  gorm does not run a statement on a handle whose
    [Error] is set.  A write on the pool applies at once (auto-commit); a
    write in a transaction joins that transaction's log. *)
Definition send (db : DB) (st : stmt) (w : option write) : M (option error) :=
  match Error db with
  | Some e => ret (Some e)
  | None =>
      emit (Stmt (txid db) st) ;;;
      f <- fault ;;
      match f with
      | Some e => ret (Some e)
      | None =>
          fun s =>
            match txid db with
            | None =>
                match w with
                | Some w => (set_table (apply_write w (table s)) ;;; ret None) s
                | None => (None, s)
                end
            | Some t =>
                match txs s !! t with
                | None => (Some ErrTxDone, s)
                | Some log =>
                    match w with
                    | Some w => (set_txs (<[t := log ++ [w]]> (txs s)) ;;; ret None) s
                    | None => (None, s)
                    end
                end
            end
      end
  end.

(** [db.Begin()]: a transaction cannot begin another one. *)
Definition Begin (db : DB) : M DB :=
  match Error db with
  | Some e => ret db
  | None =>
      match txid db with
      | Some t => ret (mkDB (Some t) (Some ErrInvalidTransaction))
      | None =>
          emit (Stmt None SBegin) ;;;
          f <- fault ;;
          match f with
          | Some e => ret (mkDB None (Some e))
          | None =>
              fun s =>
                (mkDB (Some (nextTx s)) None,
                 mkStore (table s) (<[nextTx s := []]> (txs s)) (S (nextTx s))
                         (nextID s) (faults s) (trace s))
          end
      end
  end.

(** gorm's [AddError]: a first error is kept as it is, a later one is joined
    to the one the handle holds ([fmt.Errorf("%v; %w", db.Error, err)]). *)
Definition AddError (held err : option error) : option error :=
  match err with
  | None => held
  | Some e =>
      match held with
      | None => Some e
      | Some h => Some (h +:+ "; " +:+ e)
      end
  end.

(** [tx.Commit().Error].  gorm does not look at the handle's [Error] first:
    the transaction the handle holds is committed whatever it is, and what
    comes back is the handle's error with the one of the commit added.  A
    handle that holds no transaction gets [ErrInvalidTransaction]. *)
Definition Commit (tx : DB) : M (option error) :=
  match txid tx with
  | None => ret (AddError (Error tx) (Some ErrInvalidTransaction))
  | Some t =>
      emit (Stmt (Some t) SCommit) ;;;
      f <- fault ;;
      match f with
      | Some e => ret (AddError (Error tx) (Some e))
      | None =>
          fun s =>
            match txs s !! t with
            | None => (AddError (Error tx) (Some ErrTxDone), s)
            | Some log =>
                (Error tx,
                 mkStore (replay log (table s)) (delete t (txs s))
                         (nextTx s) (nextID s) (faults s) (trace s))
            end
      end
  end.

(** [tx.Rollback()]; no caller reads its error.  As with [Commit], the
    handle's [Error] is not looked at: the transaction the handle holds is
    rolled back, also when that is the caller's transaction, which a failed
    [Begin] on a transaction handle leaves in the handle. *)
Definition Rollback (tx : DB) : M unit :=
  match txid tx with
  | None => ret tt
  | Some t =>
      emit (Stmt (Some t) SRollback) ;;;
      fun s => set_txs (delete t (txs s)) s
  end.

(** [db.Exec(sql).Error] for the SQL of [truncateTable]: all rows go. *)
Definition Exec (db : DB) (sql : rawsql) : M (option error) :=
  send db (SExec sql) (Some WClear).

(** Rows without an [id] get the next values of the counter. *)
Fixpoint assignIDs (next : N) (lines : list CasbinRule)
  : list CasbinRule * N :=
  match lines with
  | [] => ([], next)
  | l :: ls =>
      if bool_decide (ID l = 0%N)
      then let (ls', n') := assignIDs (next + 1) ls in
           (mkRule next (Ptype l) (V0 l) (V1 l) (V2 l) (V3 l) (V4 l) (V5 l)
                   (V6 l) (V7 l) :: ls', n')
      else let (ls', n') := assignIDs next ls in (l :: ls', n')
  end.

Definition ErrEmptySlice : error := "empty slice found".

(** [db.Create(&lines).Error]: one INSERT statement for all of [lines];
    gorm refuses an empty slice before it builds the statement. *)
Definition Create (db : DB) (lines : list CasbinRule) : M (option error) :=
  match Error db with
  | Some e => ret (Some e)
  | None =>
      if bool_decide (lines = []) then ret (Some ErrEmptySlice)
      else
        fun s =>
          let (lines', n') := assignIDs (nextID s) lines in
          let (r, s') := send db (SCreate lines) (Some (WCreate lines')) s in
          match r with
          | None => (None, mkStore (table s') (txs s') (nextTx s') n'
                                   (faults s') (trace s'))
          | Some e => (Some e, s')
          end
  end.

(** [db.Delete(a.getTableInstance(), queryStr, args...).Error] *)
Definition Delete (db : DB) (q : cond) : M (option error) :=
  send db (SDelete q) (Some (WDelete q)).

(** [db.Model(&old).Where(...).Updates(new).Error] *)
Definition Updates (db : DB) (q : cond) (assign : list (column * string))
  : M (option error) :=
  send db (SUpdate q assign) (Some (WUpdate q assign)).

Definition by_ID (a b : CasbinRule) : Prop := (ID a <= ID b)%N.
Global Instance by_ID_dec : RelDecision by_ID.
Proof. intros a b. unfold by_ID. apply _. Defined.

(** [db.Where(...).Order("ID").Find(&lines).Error], with the rows found
    (none when the query fails: every caller starts from an empty slice).
    [ordered] tells whether the query has [Order("ID")]. *)
Definition Find (db : DB) (q : cond) (ordered : bool)
  : M (list CasbinRule * option error) :=
  fun s =>
    let (r, s') := send db (SFind q ordered) None s in
    match r with
    | Some e => (([], Some e), s')
    | None =>
        let rows := filter (fun r => matches q r = true) (view db s') in
        ((if ordered then merge_sort by_ID rows else rows, None), s')
    end.

(** ** The adapter (adapter.go) *)

Record Adapter := mkAdapter {
  driverName : string;
  dataSourceName : string;
  databaseName : string;
  tablePrefix : string;
  tableName : string;
  dbSpecified : bool;
  db : DB;                (* [a.db] *)
  dialect : string;       (* [a.db.Config.Name()] *)
  isFiltered : bool
}.

Definition with_isFiltered (b : bool) (a : Adapter) : Adapter :=
  mkAdapter (driverName a) (dataSourceName a) (databaseName a) (tablePrefix a)
            (tableName a) (dbSpecified a) (db a) (dialect a) b.

Definition getFullTableName (a : Adapter) : string :=
  if bool_decide (tablePrefix a ≠ "")
  then tablePrefix a +:+ "_" +:+ tableName a
  else tableName a.

(** [truncateTable]: the statement is chosen by the dialect of [a.db] and
    executed on the handle [db] it is given. *)
Definition truncateTable (a : Adapter) (db : DB) : M (option error) :=
  let sql :=
    if bool_decide (dialect a = "sqlite") then DeleteFrom (getFullTableName a)
    else if bool_decide (dialect a = "sqlite3") then DeleteFrom (getFullTableName a)
    else if bool_decide (dialect a = "postgres") then TruncateTable (getFullTableName a) true
    else if bool_decide (dialect a = "sqlserver") then TruncateTable (getFullTableName a) false
    else if bool_decide (dialect a = "mysql") then TruncateTable (getFullTableName a) false
    else TruncateTable (getFullTableName a) false in
  Exec db sql.

(** [if line.Vk != "" { queryStr += " and vk = ?"; queryArgs = append(queryArgs, line.Vk) }] *)
Definition andEq (c : column) (v : string) (q : cond) : cond :=
  if bool_decide (v ≠ "") then q ++ [Eq c v] else q.

(** [queryString], and the identical bodies of [appendWhere] and of the first
    half of [rawDelete]: ["ptype = ?"], then one equality for every value
    column that is not empty. *)
Definition queryString (c : CasbinRule) : cond :=
  let q := [Eq Cptype (Ptype c)] in
  let q := andEq Cv0 (V0 c) q in
  let q := andEq Cv1 (V1 c) q in
  let q := andEq Cv2 (V2 c) q in
  let q := andEq Cv3 (V3 c) q in
  let q := andEq Cv4 (V4 c) q in
  let q := andEq Cv5 (V5 c) q in
  let q := andEq Cv6 (V6 c) q in
  let q := andEq Cv7 (V7 c) q in
  q.

Definition appendWhere (line : CasbinRule) : cond := queryString line.

(** [CasbinRule.TableName] *)
Definition TableName : string := "casbin_rule".

(** Whether a handle went through [Scopes(a.casbinRuleTable())] before it was
    used.  gorm keeps the scope in the handle; here it is passed beside the
    handle, by the callers that apply it. *)
Inductive scope := Scoped | Unscoped.

(** The table a statement on [CasbinRule] names: the adapter's table under
    the scope, the table of the struct without it. *)
Definition named (a : Adapter) (sc : scope) : string :=
  match sc with
  | Scoped => getFullTableName a
  | Unscoped => TableName
  end.

(** [rawDelete]: [db.Delete(a.getTableInstance(), args...)] with the
    predicate of [queryString].  The DELETE acts on the adapter's rows when
    the table it names is the adapter's; on another table it leaves them as
    they are. *)
Definition rawDelete (a : Adapter) (db : DB) (sc : scope) (line : CasbinRule)
  : M (option error) :=
  if bool_decide (named a sc = getFullTableName a)
  then Delete db (queryString line)
  else send db (SDeleteFrom (named a sc) (queryString line)) None.

(** The double quote, for the texts that hold one. *)
Definition dquote : string :=
  String (Ascii.Ascii false true false false false true false false)
         EmptyString.

(** The text of the error of [checkQueryField]; the two quotes in the
    brackets are part of it. *)
Definition ErrQueryFieldEmpty : error :=
  "the query field cannot all be empty string (" +:+ dquote +:+ dquote
  +:+ "), please check".

(** [checkQueryField] *)
Definition checkQueryField (fieldValues : list string) : option error :=
  if existsb (fun fieldValue => bool_decide (fieldValue ≠ "")) fieldValues
  then None
  else Some ErrQueryFieldEmpty.

(** [toStringPolicy]: the columns that are not empty, in order. *)
Definition toStringPolicy (c : CasbinRule) : list string :=
  filter (fun x => x ≠ "") (columns c).

(** [if fieldIndex <= k && k < fieldIndex+len(fieldValues) { line.Vk = fieldValues[k-fieldIndex] }].
    The guard keeps the index in range.  [&&] does not evaluate the sum when
    [fieldIndex > k], and below that the sum cannot leave the range of [int]
    for a slice that fits in memory. *)
Definition window (k : Z) (set : string -> CasbinRule -> CasbinRule)
    (fieldIndex : Z) (fieldValues : list string) (line : CasbinRule)
  : CasbinRule :=
  if bool_decide (fieldIndex <= k) && bool_decide (k < fieldIndex + len fieldValues)
  then set (default "" (index fieldValues (k - fieldIndex))) line
  else line.

(** The eight window assignments shared by [removeFilteredPolicy] and
    [updateFilteredPolicies]. *)
Definition windowLine (fieldIndex : Z) (fieldValues : list string)
    (line : CasbinRule) : CasbinRule :=
  let line := window 0 with_V0 fieldIndex fieldValues line in
  let line := window 1 with_V1 fieldIndex fieldValues line in
  let line := window 2 with_V2 fieldIndex fieldValues line in
  let line := window 3 with_V3 fieldIndex fieldValues line in
  let line := window 4 with_V4 fieldIndex fieldValues line in
  let line := window 5 with_V5 fieldIndex fieldValues line in
  let line := window 6 with_V6 fieldIndex fieldValues line in
  let line := window 7 with_V7 fieldIndex fieldValues line in
  line.

(** *** Filters *)

Record Filter := mkFilter {
  FPtype : list string;
  FV0 : list string; FV1 : list string; FV2 : list string; FV3 : list string;
  FV4 : list string; FV5 : list string; FV6 : list string; FV7 : list string
}.

Record BatchFilter := mkBatchFilter { filters : list Filter }.

(** The dynamic type of the [filter interface{}] argument. *)
Inductive filterValue :=
| AFilter (f : Filter)
| AFilterPtr (f : Filter)
| AFilters (fs : list Filter)
| ABatchFilter (b : BatchFilter)
| ABatchFilterPtr (b : BatchFilter)
| AOther.

(** [if len(filter.X) > 0 { db = db.Where("x in (?)", filter.X) }] *)
Definition andIn (c : column) (vs : list string) (q : cond) : cond :=
  if bool_decide (len vs > 0) then q ++ [OneOf c vs] else q.

Definition filterQuery (a : Adapter) (filter : Filter) : cond :=
  let q := [] in
  let q := andIn Cptype (FPtype filter) q in
  let q := andIn Cv0 (FV0 filter) q in
  let q := andIn Cv1 (FV1 filter) q in
  let q := andIn Cv2 (FV2 filter) q in
  let q := andIn Cv3 (FV3 filter) q in
  let q := andIn Cv4 (FV4 filter) q in
  let q := andIn Cv5 (FV5 filter) q in
  let q := andIn Cv6 (FV6 filter) q in
  let q := andIn Cv7 (FV7 filter) q in
  q.

(** *** gorm's [db.Transaction(fc)]

    Library code, embedded after its documented behaviour: begin, run [fc] on
    the transaction, commit when it returns [nil], roll back when it returns
    an error or panics.  On a handle that is a transaction already it works
    with a savepoint: the log is cut back to where [fc] started. *)
Definition gormTransaction (db : DB) (fc : DB -> M (outcome (option error)))
  : M (outcome (option error)) :=
  match txid db with
  | None =>
      tx <- Begin db ;;
      match Error tx with
      | Some e => ret (Return (Some e))
      | None =>
          r <- fc tx ;;
          match r with
          | Return None => e <- Commit tx ;;
                           match e with
                           | Some e => Rollback tx ;;; ret (Return (Some e))
                           | None => ret (Return None)
                           end
          | Return (Some e) => Rollback tx ;;; ret (Return (Some e))
          | Panicked msg => Rollback tx ;;; ret (Panicked msg)
          end
      end
  | Some t =>
      match Error db with
      | Some e => ret (Return (Some e))
      | None =>
          fun s =>
            let mark := txs s !! t in
            let (r, s') := fc db s in
            match r with
            | Return None => (r, s')
            | _ => match mark with
                   | Some log => (set_txs (<[t := log]> (txs s')) ;;; ret r) s'
                   | None => (r, s')
                   end
            end
      end
  end.

(** ** The mutation executor (internal_func.go) *)

Section Engine.

(** The engine's side of loading, casbin code outside this repository:
    [model.HasPolicyEx(sec, ptype, rule)] and
    [persist.LoadPolicyArray(rule, model)], the second with the model as
    it leaves it. *)
Variable HasPolicyEx :
  Model -> string -> string -> list string -> outcome (bool * option error).
Variable LoadPolicyArray :
  list string -> Model -> Model * outcome (option error).

(** [loadPolicyLine] *)
Definition loadPolicyLine (line : CasbinRule) (model : Model)
  : Model * outcome (option error) :=
  match trimTrailing (columns line) with
  | Panicked msg => (model, Panicked msg)
  | Return p => LoadPolicyArray p model
  end.

(** The body of [Preview]'s loop for each index [i] of [is_] in turn;
    [rules] is the backing array, [j] the count of rows moved to the
    front. *)
Fixpoint PreviewLoop (model : Model) (is_ : list nat)
    (rules : list CasbinRule) (j : nat)
  : list CasbinRule * nat * outcome (option error) :=
  match is_ with
  | [] => (rules, j, Return None)
  | i :: is' =>
      match rules !! i with
      | None => (rules, j, Panicked "index out of range")
      | Some rule =>
          match trimTrailing (columns rule) with
          | Panicked msg => (rules, j, Panicked msg)
          | Return p =>
              match index p 0 with
              | None => (rules, j, Panicked "index out of range")
              | Some key =>
                  if bool_decide (Z.of_nat (String.length key) < 1)
                  then (rules, j, Panicked "slice bounds out of range")
                  else
                    let sec := String.substring 0 1 key in
                    match HasPolicyEx model sec key (drop 1 p) with
                    | Panicked msg => (rules, j, Panicked msg)
                    | Return (_, Some err) => (rules, j, Return (Some err))
                    | Return (ok, None) =>
                        if ok then
                          match rules !! j with
                          | None => (rules, j, Panicked "index out of range")
                          | Some at_j =>
                              PreviewLoop model is'
                                (<[i := at_j]> (<[j := rule]> rules)) (S j)
                          end
                        else PreviewLoop model is' rules j
                    end
              end
          end
      end
  end.

(** [Preview]: the [range] over the slice fixes the indices when the loop
    starts and reads [rule] from the array at each step; the final
    reslicing to [rules[j:]] runs only when the loop ran to its end. *)
Definition Preview (a : Adapter) (rules : list CasbinRule) (model : Model)
  : list CasbinRule * outcome (option error) :=
  match PreviewLoop model (seq 0 (length rules)) rules 0 with
  | (rules', j, Return None) => (drop j rules', Return None)
  | (rules', _, r) => (rules', r)
  end.

(** [for _, line := range lines { err = loadPolicyLine(line, model) ... }] *)
Fixpoint loadLines (lines : list CasbinRule) (model : Model)
  : Model * outcome (option error) :=
  match lines with
  | [] => (model, Return None)
  | line :: lines' =>
      match loadPolicyLine line model with
      | (model', Return None) => loadLines lines' model'
      | (model', r) => (model', r)
      end
  end.

(** [loadPolicy] *)
Definition loadPolicy (a : Adapter) (db : DB) (model : Model)
  : M (Model * outcome (option error)) :=
  found <- Find db [] true ;;
  match found with
  | (_, Some err) => ret (model, Return (Some err))
  | (lines, None) =>
      match Preview a lines model with
      | (lines', Return None) => ret (loadLines lines' model)
      | (_, r) => ret (model, r)
      end
  end.

(** The loop of [loadFilteredPolicy] over the filters of the batch. *)
Fixpoint loadFilters (a : Adapter) (db : DB) (fs : list Filter)
    (model : Model) : M (Model * outcome (option error)) :=
  match fs with
  | [] => ret (model, Return None)
  | f :: fs' =>
      found <- Find db (filterQuery a f) true ;;
      match found with
      | (_, Some err) => ret (model, Return (Some err))
      | (lines, None) =>
          match loadLines lines model with
          | (model', Return None) => loadFilters a db fs' model'
          | (model', r) => ret (model', r)
          end
      end
  end.

(** [loadFilteredPolicy]; the adapter comes back with [isFiltered] set
    when all filters were loaded. *)
Definition loadFilteredPolicy (a : Adapter) (db : DB) (model : Model)
    (filter : filterValue) : M (Adapter * Model * outcome (option error)) :=
  let batch :=
    match filter with
    | AFilter f => Some [f]
    | AFilterPtr f => Some [f]
    | AFilters fs => Some fs
    | ABatchFilter b => Some (filters b)
    | ABatchFilterPtr b => Some (filters b)
    | AOther => None
    end in
  match batch with
  | None => ret (a, model, Return (Some "unsupported filter type"))
  | Some fs =>
      r <- loadFilters a db fs model ;;
      match r with
      | (model', Return None) => ret (with_isFiltered true a, model', Return None)
      | (model', r) => ret (a, model', r)
      end
  end.

End Engine.

Definition flushEvery : Z := 1000.

(** The inner loop of [savePolicy] over [ast.Policy]: [inr err] when an
    insert failed and the transaction was rolled back, else [inl lines], the
    rows not yet flushed. *)
Fixpoint saveRules (a : Adapter) (tx : DB) (ptype : string)
    (rules : list (list string)) (lines : list CasbinRule)
  : M (list CasbinRule + error) :=
  match rules with
  | [] => ret (inl lines)
  | rule :: rules' =>
      let lines := lines ++ [savePolicyLine ptype rule] in
      if bool_decide (len lines > flushEvery) then
        e <- Create tx lines ;;
        match e with
        | Some err => Rollback tx ;;; ret (inr err)
        | None => saveRules a tx ptype rules' []
        end
      else saveRules a tx ptype rules' lines
  end.

(** The outer loop, [for ptype, ast := range model[sec]]. *)
Fixpoint saveAssertions (a : Adapter) (tx : DB)
    (asts : list (string * Assertion)) (lines : list CasbinRule)
  : M (list CasbinRule + error) :=
  match asts with
  | [] => ret (inl lines)
  | (ptype, ast) :: asts' =>
      r <- saveRules a tx ptype (Policy ast) lines ;;
      match r with
      | inr err => ret (inr err)
      | inl lines' => saveAssertions a tx asts' lines'
      end
  end.

(** [savePolicy] *)
Definition savePolicy (a : Adapter) (db : DB) (model : Model)
  : M (option error) :=
  tx <- Begin db ;;
  err <- truncateTable a db ;;
  match err with
  | Some e => Rollback tx ;;; ret (Some e)
  | None =>
      r <- saveAssertions a tx (map_to_list (model !!! "p" : AssertionMap)) [] ;;
      match r with
      | inr e => ret (Some e)
      | inl lines =>
          r <- saveAssertions a tx (map_to_list (model !!! "g" : AssertionMap)) lines ;;
          match r with
          | inr e => ret (Some e)
          | inl lines =>
              if bool_decide (len lines > 0) then
                e <- Create tx lines ;;
                match e with
                | Some err => Rollback tx ;;; ret (Some err)
                | None => Commit tx
                end
              else Commit tx
          end
      end
  end.

(** [addPolicy] *)
Definition addPolicy (a : Adapter) (db : DB) (sec ptype : string)
    (rule : list string) : M (option error) :=
  let line := savePolicyLine ptype rule in
  Create db [line].

(** [addPolicies] *)
Definition addPolicies (a : Adapter) (db : DB) (sec ptype : string)
    (rules : list (list string)) : M (option error) :=
  let lines := (fun rule => savePolicyLine ptype rule) <$> rules in
  Create db lines.

(** [removePolicy]: the handle goes to [rawDelete] as it came, without the
    scope of the adapter's table. *)
Definition removePolicy (a : Adapter) (db : DB) (sec ptype : string)
    (rule : list string) : M (option error) :=
  let line := savePolicyLine ptype rule in
  rawDelete a db Unscoped line.

(** The loop of [removePolicies]: the body of
    [if err := a.rawDelete(tx, line); err != nil { }] is empty. *)
Fixpoint removeEach (a : Adapter) (tx : DB) (ptype : string)
    (rules : list (list string)) : M unit :=
  match rules with
  | [] => ret tt
  | rule :: rules' =>
      let line := savePolicyLine ptype rule in
      err <- rawDelete a tx Scoped line ;;
      match err with
      | Some _ => removeEach a tx ptype rules'
      | None => removeEach a tx ptype rules'
      end
  end.

(** [removePolicies]: the transaction is begun on the scoped handle, so the
    handle of the callback keeps the scope. *)
Definition removePolicies (a : Adapter) (db : DB) (sec ptype : string)
    (rules : list (list string)) : M (outcome (option error)) :=
  gormTransaction db (fun tx =>
    removeEach a tx ptype rules ;;; ret (Return None)).

(** [removeFilteredPolicy] *)
Definition removeFilteredPolicy (a : Adapter) (db : DB) (sec ptype : string)
    (fieldIndex : Z) (fieldValues : list string) : M (option error) :=
  let line := getTableInstance in
  let tx := db in  (* [db.Scopes(a.casbinRuleTable())] *)
  let line := with_Ptype ptype line in
  if bool_decide (fieldIndex = -1) then rawDelete a tx Scoped line
  else
    match checkQueryField fieldValues with
    | Some err => ret (Some err)
    | None =>
        let line := windowLine fieldIndex fieldValues line in
        rawDelete a tx Scoped line
    end.

(** gorm's reading of a struct as conditions or as assignments: the fields
    that are not the zero value. *)
Definition nonZero (line : CasbinRule) : list (column * string) :=
  filter (fun cv => cv.2 ≠ "")
    ((fun c => (c, cell c line)) <$> [Cptype; Cv0; Cv1; Cv2; Cv3; Cv4; Cv5; Cv6; Cv7]).

Definition ErrMissingWhereClause : error := "WHERE conditions required".

(** [db.Model(&oldLine).Where(&oldLine).Updates(newLine).Error]; gorm
    refuses an update without conditions. *)
Definition updateWhere (db : DB) (oldLine newLine : CasbinRule)
  : M (option error) :=
  match Error db with
  | Some e => ret (Some e)
  | None =>
      let q := (fun cv => Eq cv.1 cv.2) <$> nonZero oldLine in
      if bool_decide (q = []) then ret (Some ErrMissingWhereClause)
      else Updates db q (nonZero newLine)
  end.

(** [updatePolicy] *)
Definition updatePolicy (a : Adapter) (db : DB) (sec ptype : string)
    (oldRule newPolicy : list string) : M (option error) :=
  let oldLine := savePolicyLine ptype oldRule in
  let newLine := savePolicyLine ptype newPolicy in
  updateWhere db oldLine newLine.

(** The loop of [updatePolicies]: [newPolicies[i]] is read for every index
    of [oldPolicies]. *)
Fixpoint updateEach (tx : DB) (is_ : list nat)
    (oldPolicies newPolicies : list CasbinRule) : M (outcome (option error)) :=
  match is_ with
  | [] => ret (Return None)
  | i :: is' =>
      match oldPolicies !! i, newPolicies !! i with
      | Some o, Some n =>
          err <- updateWhere tx o n ;;
          match err with
          | Some e => ret (Return (Some e))
          | None => updateEach tx is' oldPolicies newPolicies
          end
      | _, _ => ret (Panicked "index out of range")
      end
  end.

(** [updatePolicies] *)
Definition updatePolicies (a : Adapter) (db : DB) (sec ptype : string)
    (oldRules newRules : list (list string)) : M (outcome (option error)) :=
  let oldPolicies := (fun r => savePolicyLine ptype r) <$> oldRules in
  let newPolicies := (fun r => savePolicyLine ptype r) <$> newRules in
  gormTransaction db (fun tx =>
    updateEach tx (seq 0 (length oldPolicies)) oldPolicies newPolicies).

(** [for i := range newP { tx.Create(&newP[i]) ... }] *)
Fixpoint createEach (tx : DB) (newP : list CasbinRule) : M (option error) :=
  match newP with
  | [] => ret None
  | l :: newP' =>
      e <- Create tx [l] ;;
      match e with
      | Some err => Rollback tx ;;; ret (Some err)
      | None => createEach tx newP'
      end
  end.

(** [updateFilteredPolicies]; [None] stands for the [nil] slice returned
    with an error. *)
Definition updateFilteredPolicies (a : Adapter) (db : DB) (sec ptype : string)
    (newPolicies : list (list string)) (fieldIndex : Z)
    (fieldValues : list string)
  : M (option (list (list string)) * option error) :=
  let line := getTableInstance in
  let line := with_Ptype ptype line in
  let line := windowLine fieldIndex fieldValues line in
  let newP := (fun newRule => savePolicyLine ptype newRule) <$> newPolicies in
  tx <- Begin db ;;
  let q := queryString line in
  found <- Find tx q false ;;
  match found with
  | (_, Some err) => Rollback tx ;;; ret (None, Some err)
  | (oldP, None) =>
      e <- Delete tx q ;;
      match e with
      | Some err => Rollback tx ;;; ret (None, Some err)
      | None =>
          e <- createEach tx newP ;;
          match e with
          | Some err => ret (None, Some err)
          | None =>
              let oldPolicies := toStringPolicy <$> oldP in
              e <- Commit tx ;;
              ret (Some oldPolicies, e)
          end
      end
  end.

(** *** The exported methods (adapter.go): each passes [a.db]. *)

Definition SavePolicy (a : Adapter) (model : Model) : M (option error) :=
  savePolicy a (db a) model.

Definition RemovePolicies (a : Adapter) (sec ptype : string)
    (rules : list (list string)) : M (outcome (option error)) :=
  removePolicies a (db a) sec ptype rules.

Definition RemoveFilteredPolicy (a : Adapter) (sec ptype : string)
    (fieldIndex : Z) (fieldValues : list string) : M (option error) :=
  removeFilteredPolicy a (db a) sec ptype fieldIndex fieldValues.

Definition UpdateFilteredPolicies (a : Adapter) (sec ptype : string)
    (newPolicies : list (list string)) (fieldIndex : Z)
    (fieldValues : list string)
  : M (option (list (list string)) * option error) :=
  updateFilteredPolicies a (db a) sec ptype newPolicies fieldIndex fieldValues.

(** ** The transaction wrapper (adapter.go, [Transaction]) *)

(** The local variables of [Transaction] that its deferred function reads
    and writes. *)
Record frame := mkFrame {
  panicked : bool;
  err : option error
}.

Section Enforcer.

(** The policy engine, casbin code outside this repository: its state,
    [e.SetAdapter(b)], and the reload hook [e.LoadPolicy()] (for the
    context adapter, [e.LoadPolicySyncWatcher()]). *)
Variable Enforcer : Type.
Variable SetAdapter : Adapter -> Enforcer -> Enforcer.
Variable LoadPolicyHook : Enforcer -> M (Enforcer * outcome (option error)).

(** The deferred function of [Transaction].  It assigns the reload's
    result to the local [err]; the function's result is unnamed, so the
    value given to [return] is out of its reach. *)
Definition deferred (tx : DB) (e : Enforcer) (f : frame)
  : M (Enforcer * frame * outcome unit) :=
  if panicked f || bool_decide (err f ≠ None) then
    Rollback tx ;;;
    emit Reload ;;;
    r <- LoadPolicyHook e ;;
    match r with
    | (e', Panicked msg) => ret (e', f, Panicked msg)
    | (e', Return err') =>
        match err' with
        | Some x => emit (Log x)
        | None => ret tt
        end ;;;
        ret (e', mkFrame (panicked f) err', Return tt)
    end
  else ret (e, f, Return tt).

(** Leaves [Transaction] with the result [result] after the deferred
    function has run; a panic in the deferred function replaces it. *)
Definition leave (tx : DB) (e : Enforcer) (f : frame)
    (result : outcome (option error))
  : M (Enforcer * outcome (option error)) :=
  d <- deferred tx e f ;;
  match d with
  | (e', _, Panicked msg) => ret (e', Panicked msg)
  | (e', _, Return _) => ret (e', result)
  end.

(** [Transaction] *)
Definition Transaction (a : Adapter) (e : Enforcer)
    (fc : Enforcer -> M (Enforcer * outcome (option error)))
  : M (Enforcer * outcome (option error)) :=
  let f := mkFrame true None in
  let copyDB := db a in
  tx <- Begin copyDB ;;
  match Error tx with
  | Some e0 => ret (e, Return (Some e0))
  | None =>
      let b := mkAdapter "" "" "" "" (tableName a) false tx (dialect a) false in
      let copyEnforcer := SetAdapter b e in
      r <- fc copyEnforcer ;;
      match r with
      | (e1, Panicked msg) => leave tx e1 f (Panicked msg)
      | (e1, Return None) =>
          let f := mkFrame false None in
          c <- Commit tx ;;
          match c with
          | Some ce => leave tx e1 (mkFrame false (Some ce)) (Return (Some ce))
          | None => leave tx e1 f (Return None)
          end
      | (e1, Return (Some fe)) =>
          leave tx e1 (mkFrame false (Some fe)) (Return (Some fe))
      end
  end.

End Enforcer.

(** ** The context adapter (context_adapter.go) *)

Definition CtxWithoutDBError : error :=
  "[casbin] gorm adapter error: db does not within context".

(** A value stored in a context: a [*gorm.DB], or anything else. *)
Inductive ctxValue :=
| ADB (d : DB)
| NotADB.

(** A [context.Context]: its values, and [ctx.Err()], which is not [nil]
    exactly when [ctx.Done()] is closed. *)
Record Context := mkContext {
  values : gmap string ctxValue;
  ctxErr : option error
}.

Record ContextAdapter := mkContextAdapter {
  adapter : Adapter;
  gormCtxKey : string
}.

(** [getDBByCtx]: [ctx.Value(ca.gormCtxKey).( *gorm.DB )] with its [ok]. *)
Definition getDBByCtx (ca : ContextAdapter) (ctx : Context) : option DB :=
  match values ctx !! gormCtxKey ca with
  | Some (ADB d) => Some d
  | _ => None
  end.

(** [context.WithValue(ctx, key, tx)] *)
Definition WithValue (ctx : Context) (key : string) (d : DB) : Context :=
  mkContext (<[key := ADB d]> (values ctx)) (ctxErr ctx).

(** [executeWithContext]: [fn] runs on a goroutine of its own, to its end
    whatever the caller does; the [select] returns [ctx.Err()] when it takes
    the [ctx.Done()] case, which it can only when the context is done.
    [doneFirst] is the choice of the [select] between the two cases. *)
Definition executeWithContext {A} (doneFirst : bool) (ctx : Context)
    (fn : M (A * outcome (option error)))
  : M (A * outcome (option error)) :=
  r <- fn ;;
  match ctxErr ctx with
  | Some e => if doneFirst then ret (r.1, Return (Some e)) else ret r
  | None => ret r
  end.

(** [executeWithContextEx]: as above, with [res[1].(error)] applied to what
    [fn] returned; that assertion panics on a [nil] error. *)
Definition executeWithContextEx (doneFirst : bool) (ctx : Context)
    (fn : M (option (list (list string)) * option error))
  : M (outcome (option (list (list string)) * option error)) :=
  r <- fn ;;
  let received :=
    match r with
    | (rules, Some e) => Return (rules, Some e)
    | (_, None) => Panicked "interface conversion: interface is nil, not error"
    end in
  match ctxErr ctx with
  | Some e => if doneFirst then ret (Return (None, Some e)) else ret received
  | None => ret received
  end.

Section ContextEngine.

Variable HasPolicyEx :
  Model -> string -> string -> list string -> outcome (bool * option error).
Variable LoadPolicyArray :
  list string -> Model -> Model * outcome (option error).

(** [LoadPolicyCtx] *)
Definition LoadPolicyCtx (doneFirst : bool) (ca : ContextAdapter)
    (ctx : Context) (model : Model) : M (Model * outcome (option error)) :=
  executeWithContext doneFirst ctx
    (match getDBByCtx ca ctx with
     | None => ret (model, Return (Some CtxWithoutDBError))
     | Some db =>
         loadPolicy HasPolicyEx LoadPolicyArray (adapter ca) db model
     end).

(** [LoadFilteredPolicyCtx] *)
Definition LoadFilteredPolicyCtx (doneFirst : bool) (ca : ContextAdapter)
    (ctx : Context) (model : Model) (filter : filterValue)
  : M (Adapter * Model * outcome (option error)) :=
  executeWithContext doneFirst ctx
    (match getDBByCtx ca ctx with
     | None => ret (adapter ca, model, Return (Some CtxWithoutDBError))
     | Some db => loadFilteredPolicy LoadPolicyArray (adapter ca) db model filter
     end).

End ContextEngine.

(** The methods below return an [error] only; [tt] stands for the state they
    share with the caller, which is none. *)
Definition onlyError (c : M (option error)) : M (unit * outcome (option error)) :=
  e <- c ;; ret (tt, Return e).

Definition withOutcome (c : M (outcome (option error)))
  : M (unit * outcome (option error)) :=
  r <- c ;; ret (tt, r).

(** [SavePolicyCtx] *)
Definition SavePolicyCtx (doneFirst : bool) (ca : ContextAdapter)
    (ctx : Context) (model : Model) : M (unit * outcome (option error)) :=
  executeWithContext doneFirst ctx
    (match getDBByCtx ca ctx with
     | None => ret (tt, Return (Some CtxWithoutDBError))
     | Some db => onlyError (savePolicy (adapter ca) db model)
     end).

(** [AddPolicyCtx] *)
Definition AddPolicyCtx (doneFirst : bool) (ca : ContextAdapter)
    (ctx : Context) (sec ptype : string) (rule : list string)
  : M (unit * outcome (option error)) :=
  executeWithContext doneFirst ctx
    (match getDBByCtx ca ctx with
     | None => ret (tt, Return (Some CtxWithoutDBError))
     | Some db => onlyError (addPolicy (adapter ca) db sec ptype rule)
     end).

(** [AddPoliciesCtx] *)
Definition AddPoliciesCtx (doneFirst : bool) (ca : ContextAdapter)
    (ctx : Context) (sec ptype : string) (rules : list (list string))
  : M (unit * outcome (option error)) :=
  executeWithContext doneFirst ctx
    (match getDBByCtx ca ctx with
     | None => ret (tt, Return (Some CtxWithoutDBError))
     | Some db => onlyError (addPolicies (adapter ca) db sec ptype rules)
     end).

(** [RemovePolicyCtx] *)
Definition RemovePolicyCtx (doneFirst : bool) (ca : ContextAdapter)
    (ctx : Context) (sec ptype : string) (rule : list string)
  : M (unit * outcome (option error)) :=
  executeWithContext doneFirst ctx
    (match getDBByCtx ca ctx with
     | None => ret (tt, Return (Some CtxWithoutDBError))
     | Some db => onlyError (removePolicy (adapter ca) db sec ptype rule)
     end).

(** [RemovePoliciesCtx] *)
Definition RemovePoliciesCtx (doneFirst : bool) (ca : ContextAdapter)
    (ctx : Context) (sec ptype : string) (rules : list (list string))
  : M (unit * outcome (option error)) :=
  executeWithContext doneFirst ctx
    (match getDBByCtx ca ctx with
     | None => ret (tt, Return (Some CtxWithoutDBError))
     | Some db => withOutcome (removePolicies (adapter ca) db sec ptype rules)
     end).

(** [RemoveFilteredPolicyCtx] *)
Definition RemoveFilteredPolicyCtx (doneFirst : bool) (ca : ContextAdapter)
    (ctx : Context) (sec ptype : string) (fieldIndex : Z)
    (fieldValues : list string) : M (unit * outcome (option error)) :=
  executeWithContext doneFirst ctx
    (match getDBByCtx ca ctx with
     | None => ret (tt, Return (Some CtxWithoutDBError))
     | Some db =>
         onlyError (removeFilteredPolicy (adapter ca) db sec ptype fieldIndex
                                         fieldValues)
     end).

(** [UpdatePolicyCtx] *)
Definition UpdatePolicyCtx (doneFirst : bool) (ca : ContextAdapter)
    (ctx : Context) (sec ptype : string) (oldRule newRule : list string)
  : M (unit * outcome (option error)) :=
  executeWithContext doneFirst ctx
    (match getDBByCtx ca ctx with
     | None => ret (tt, Return (Some CtxWithoutDBError))
     | Some db => onlyError (updatePolicy (adapter ca) db sec ptype oldRule newRule)
     end).

(** [UpdatePoliciesCtx] *)
Definition UpdatePoliciesCtx (doneFirst : bool) (ca : ContextAdapter)
    (ctx : Context) (sec ptype : string) (oldRules newRules : list (list string))
  : M (unit * outcome (option error)) :=
  executeWithContext doneFirst ctx
    (match getDBByCtx ca ctx with
     | None => ret (tt, Return (Some CtxWithoutDBError))
     | Some db =>
         withOutcome (updatePolicies (adapter ca) db sec ptype oldRules newRules)
     end).

(** [UpdateFilteredPoliciesCtx] *)
Definition UpdateFilteredPoliciesCtx (doneFirst : bool) (ca : ContextAdapter)
    (ctx : Context) (sec ptype : string) (newRules : list (list string))
    (fieldIndex : Z) (fieldValues : list string)
  : M (outcome (option (list (list string)) * option error)) :=
  executeWithContextEx doneFirst ctx
    (match getDBByCtx ca ctx with
     | None => ret (None, Some CtxWithoutDBError)
     | Some db =>
         updateFilteredPolicies (adapter ca) db sec ptype newRules fieldIndex
                                fieldValues
     end).

Section ContextEnforcer.

Variable Enforcer : Type.
Variable LoadPolicySyncWatcher : Enforcer -> M (Enforcer * outcome (option error)).

(** [TransactionCtx].  It is not raced against the context.  After
    [tx.Commit()] it returns [tx.Error] and leaves the local [err] as the
    callback set it. *)
Definition TransactionCtx (ca : ContextAdapter) (ctx : Context) (e : Enforcer)
    (fc : Context -> DB -> M (Enforcer * outcome (option error)))
  : M (Enforcer * outcome (option error)) :=
  let f := mkFrame true None in
  match getDBByCtx ca ctx with
  | None => ret (e, Return (Some CtxWithoutDBError))
  | Some db =>
      tx <- Begin db ;;
      match Error tx with
      | Some e0 => ret (e, Return (Some e0))
      | None =>
          let ctxEx := WithValue ctx (gormCtxKey ca) tx in
          r <- fc ctxEx tx ;;
          match r with
          | (e1, Panicked msg) => leave Enforcer LoadPolicySyncWatcher tx e1 f (Panicked msg)
          | (e1, Return None) =>
              let f := mkFrame false None in
              c <- Commit tx ;;
              leave Enforcer LoadPolicySyncWatcher tx e1 f (Return c)
          | (e1, Return (Some fe)) =>
              leave Enforcer LoadPolicySyncWatcher tx e1 (mkFrame false (Some fe))
                    (Return (Some fe))
          end
      end
  end.

End ContextEnforcer.

(** ** Constructors and the pool of databases (adapter.go) *)

Definition defaultDatabaseName : string := "casbin".
Definition defaultTableName : string := "casbin_rule".

(** A value of the variadic [params ...interface{}], by its dynamic type. *)
Inductive param :=
| PBool (b : bool)
| PString (s : string)
| POther (type : string).  (* a value of any other type, with the type's name *)

(** The panic of [p.(string)] on a value that is no string. *)
Definition notAString (p : param) : string :=
  "interface conversion: interface {} is "
  +:+ match p with
      | PBool _ => "bool"
      | PString _ => "string"
      | POther type => type
      end
  +:+ ", not string".

Definition with_databaseName (x : string) (a : Adapter) : Adapter :=
  mkAdapter (driverName a) (dataSourceName a) x (tablePrefix a) (tableName a)
            (dbSpecified a) (db a) (dialect a) (isFiltered a).
Definition with_tableName (x : string) (a : Adapter) : Adapter :=
  mkAdapter (driverName a) (dataSourceName a) (databaseName a) (tablePrefix a)
            x (dbSpecified a) (db a) (dialect a) (isFiltered a).
Definition with_dbSpecified (x : bool) (a : Adapter) : Adapter :=
  mkAdapter (driverName a) (dataSourceName a) (databaseName a) (tablePrefix a)
            (tableName a) x (db a) (dialect a) (isFiltered a).

(** [NewAdapter].  [Open] stands for [a.Open()], which connects to the
    database: it gives the adapter with [db] set, or an error.  Until then
    [db] and [dialect] hold placeholders that nothing reads.  The result is
    [inl a] for [(a, nil)] and [inr err] for [(nil, err)]; the finalizer
    registered on the way out is outside the embedding. *)
Definition NewAdapter (Open : Adapter -> Adapter + error)
    (driverName dataSourceName : string) (params : list param)
  : outcome (Adapter + error) :=
  let a := mkAdapter driverName dataSourceName defaultDatabaseName ""
                     defaultTableName false conn "" false in
  let opened (a : Adapter) : outcome (Adapter + error) :=
    match Open a with
    | inr err => Return (inr err)
    | inl a => Return (inl a)
    end in
  match params with
  | [] => opened a
  | [PBool p1] => opened (with_dbSpecified p1 a)
  | [PString p1] => opened (with_databaseName p1 a)
  | [POther _] => Return (inr "wrong format")
  | [p1; PBool p2] =>
      let a := with_dbSpecified p2 a in
      match p1 with
      | PString p1 => opened (with_databaseName p1 a)
      | _ => Return (inr "wrong format")
      end
  | [p1; PString p2] =>
      match p1 with
      | PString p1 => opened (with_tableName p2 (with_databaseName p1 a))
      | _ => Return (inr "wrong format")
      end
  | [_; POther _] => Return (inr "wrong format")
  | [p1; p2; PBool p3] =>
      let a := with_dbSpecified p3 a in
      match p1 with
      | PString p1 =>
          let a := with_databaseName p1 a in
          match p2 with
          | PString p2 => opened (with_tableName p2 a)
          | _ => Panicked (notAString p2)
          end
      | _ => Panicked (notAString p1)
      end
  | [_; _; _] => Return (inr "wrong format")
  | _ => Return (inr "too many parameters")
  end.

(** [DbPool]: [policy] is what the pointer [dbPool.policy] points to; the
    [source] handle is stood for by the connection pools of the sources its
    resolver was registered with, in their order. *)
Record DbPool (P : Type) := mkDbPool {
  dbMap : gmap string nat;
  policy : nat;
  source : list P
}.

Arguments mkDbPool {P} _ _ _.
Arguments dbMap {P} _.
Arguments policy {P} _.
Arguments source {P} _.

(** The loop of [InitDbResolver] that fills [dbMap], from index [i] on:
    [dbMap[dbNames[i]] = specificPolicy(i)]. *)
Fixpoint fillDbMap (i : nat) (dbNames : list string) (dbMap : gmap string nat)
  : gmap string nat :=
  match dbNames with
  | [] => dbMap
  | name :: rest => fillDbMap (S i) rest (<[name := i]> dbMap)
  end.

(** [InitDbResolver]: the policy starts at 0 and the resolver is registered
    with [dbArr] as its sources.  [gorm.Open] on the first of them and the
    registration are taken to succeed, each source standing for the pool it
    opens. *)
Definition InitDbResolver {P} (dbArr : list P) (dbNames : list string)
  : outcome (DbPool P) :=
  if bool_decide (len dbArr = 0) then Panicked "dbArr len is 0"
  else Return (mkDbPool (fillDbMap 0 dbNames ∅) 0 dbArr).

(** [Resolve]: [connPools[*p]]. *)
Definition Resolve {A} (p : nat) (connPools : list A) : outcome A :=
  match connPools !! p with
  | Some c => Return c
  | None => Panicked "index out of range"
  end.

(** The pool dbresolver takes for a write (its [resolve], for the operation
    [Write]): the only source when there is one, else what the policy
    resolves among the sources. *)
Definition resolveWrite {P} (p : nat) (sources : list P) : outcome P :=
  match sources with
  | [c] => Return c
  | _ => Resolve p sources
  end.

(** [switchDb]: the policy is set to [dbMap[dbName]], the zero value for a
    name the map does not hold.  [source.Clauses(dbresolver.Write)] then has
    the resolver pick the pool of the handle at once, so a panic of [Resolve]
    is a panic of [switchDb].  The result is the pool as the call leaves it,
    and the pool behind the handle that is returned. *)
Definition switchDb {P} (dbPool : DbPool P) (dbName : string)
  : DbPool P * outcome P :=
  let dbPool := mkDbPool (dbMap dbPool)
                         (default 0%nat (dbMap dbPool !! dbName))
                         (source dbPool) in
  (dbPool, resolveWrite (policy dbPool) (source dbPool)).

(** ** Vocabulary of the statements below *)

(** The next statement sent on [db] reaches the store and succeeds: the
    handle carries no error, its transaction (if it is one) is open, and the
    failure script does not fail it. *)
Definition live (db : DB) (s : Store) : bool :=
  bool_decide (Error db = None)
  && match txid db with
     | None => true
     | Some t => bool_decide (is_Some (txs s !! t))
     end
  && match faults s with
     | Some _ :: _ => false
     | _ => true
     end.

(** The store after one more event and one entry of the failure script. *)
Definition stepped (e : event) (s : Store) : Store :=
  mkStore (table s) (txs s) (nextTx s) (nextID s) (tail (faults s))
          (trace s ++ [e]).

(** Example data: a MySQL adapter on the pool, two stored rows, and a store
    that holds them with a given failure script. *)
Definition exampleAdapter : Adapter :=
  mkAdapter "mysql" "dsn" "casbin" "" "casbin_rule" false conn "mysql" false.

Definition aliceRead : CasbinRule :=
  mkRule 1 "p" "alice" "data1" "read" "" "" "" "" "".
Definition aliceAdmin : CasbinRule :=
  mkRule 2 "g" "alice" "admin" "" "" "" "" "" "".

Definition exampleStore (fs : list (option error)) : Store :=
  mkStore [aliceRead; aliceAdmin] ∅ 0 3 fs [].

Definition exampleModel : Model :=
  {[ "p" := {[ "p" := mkAssertion [["bob"; "data2"; "write"]] ]};
     "g" := {[ "g" := mkAssertion [["bob"; "admin"]] ]} ]}.

(** A model with 1001 distinct [p] rules. *)
Definition manyRules : Model :=
  {[ "p" := {[ "p" := mkAssertion
       ((fun i : nat => ["user" +:+ pretty i; "data"; "read"]) <$> seq 0 1001) ]} ]}.

(** What a write does when the statement that carries it succeeds. *)
Definition written (db : DB) (w : write) (s : Store) : Store :=
  match txid db with
  | None => mkStore (apply_write w (table s)) (txs s) (nextTx s) (nextID s)
                    (faults s) (trace s)
  | Some t => mkStore (table s)
                      (<[t := default [] (txs s !! t) ++ [w]]> (txs s))
                      (nextTx s) (nextID s) (faults s) (trace s)
  end.

(** The rows of a bulk insert, [0] for any other event. *)
Definition rowsOf (e : event) : nat :=
  match e with
  | Stmt _ (SCreate lines) => length lines
  | _ => 0%nat
  end.

(** The DELETE that [removePolicies] sends for one rule. *)
Definition deleteOf (t : nat) (ptype : string) (rule : list string) : event :=
  Stmt (Some t) (SDelete (queryString (savePolicyLine ptype rule))).

(** The store after a successful [Begin] on the pool. *)
Definition begun (s : Store) : Store :=
  mkStore (table s) (<[nextTx s := []]> (txs s)) (S (nextTx s)) (nextID s)
          (tail (faults s)) (trace s ++ [Stmt None SBegin]).

(** The store when the deferred function of [Transaction] calls the reload
    hook: the transaction [t] rolled back, the call traced. *)
Definition rolledBack (t : nat) (s : Store) : Store :=
  mkStore (table s) (delete t (txs s)) (nextTx s) (nextID s) (faults s)
          (trace s ++ [Stmt (Some t) SRollback; Reload]).

(** [if err = e.LoadPolicy(); err != nil { log.Println(err) }] *)
Definition logged (reload : option error) (s : Store) : Store :=
  match reload with
  | Some x => mkStore (table s) (txs s) (nextTx s) (nextID s) (faults s)
                      (trace s ++ [Log x])
  | None => s
  end.

(** What the caller of a raced operation receives when the operation itself
    returns [CtxWithoutDBError]: the context's error when the context is
    done and the [select] takes that case, else [CtxWithoutDBError]. *)
Definition raced (doneFirst : bool) (ctx : Context) : option error :=
  match ctxErr ctx with
  | Some e => if doneFirst then Some e else Some CtxWithoutDBError
  | None => Some CtxWithoutDBError
  end.

(** A context that was cancelled and holds no value. *)
Definition cancelledContext : Context := mkContext ∅ (Some "context canceled").

Definition exampleContextAdapter : ContextAdapter :=
  mkContextAdapter exampleAdapter "gormDB".

(** [key[:1]] for a [key] that is not empty. *)
Definition sec_of (key : string) : string := String.substring 0 1 key.

(** The tuple a row decodes to. *)
Definition tupleOf (line : CasbinRule) : list string :=
  trimTrailingEmpty (columns line).

(** [answered HasPolicyEx model ok line]: the type of [line] is not empty,
    and on the tuple of [line] the membership test returns [ok line] and no
    error. *)
Definition answered
    (HasPolicyEx : Model -> string -> string -> list string
                   -> outcome (bool * option error))
    (model : Model) (ok : CasbinRule -> bool) (line : CasbinRule) : Prop :=
  Ptype line ≠ ""
  /\ HasPolicyEx model (sec_of (Ptype line)) (Ptype line)
                 (drop 1 (tupleOf line))
     = Return (ok line, None).

(** [model.HasPolicy(sec, ptype, rule)]: is [rule] in [model[sec][ptype].Policy]? *)
Definition hasRule (model : Model) (sec ptype : string) (rule : list string)
  : bool :=
  bool_decide (rule ∈ getPolicy model sec ptype).

(** [model.AddPolicy(sec, ptype, rule)]: [rule] appended to
    [model[sec][ptype].Policy]. *)
Definition AddPolicy (model : Model) (sec ptype : string) (rule : list string)
  : Model :=
  <[sec := <[ptype := mkAssertion (getPolicy model sec ptype ++ [rule])]>
             (model !!! sec : AssertionMap)]> model.

(** Both, on a decoded tuple [key :: rule] with [sec = key[:1]]. *)
Definition hasTuple (model : Model) (p : list string) : bool :=
  match p with
  | key :: rule => hasRule model (sec_of key) key rule
  | [] => false
  end.

Definition addTuple (model : Model) (p : list string) : Model :=
  match p with
  | key :: rule => AddPolicy model (sec_of key) key rule
  | [] => model
  end.

(** Modelled from the spec: the engine's membership test and rule insertion
    (casbin's [model.HasPolicyEx] and [persist.LoadPolicyArray], which are
    not part of this repository), on a model that is an ordered collection
    of rule tuples per type: the test looks the rule up, the insertion
    appends a rule that is not there yet.  They instantiate the statements
    about loading at concrete inputs. *)
Definition refHasPolicyEx (model : Model) (sec ptype : string)
    (rule : list string) : outcome (bool * option error) :=
  Return (hasRule model sec ptype rule, None).

Definition refLoadPolicyArray (rule : list string) (model : Model)
  : Model * outcome (option error) :=
  match rule with
  | [] => (model, Panicked "index out of range")
  | key :: rule' =>
      if bool_decide (key = "")
      then (model, Panicked "slice bounds out of range")
      else if hasRule model (sec_of key) key rule'
           then (model, Return None)
           else (AddPolicy model (sec_of key) key rule', Return None)
  end.

(** Example data: a third stored row, which [exampleModel] holds already;
    an engine whose state is its adapter and whose reload fails; a callback
    that adds one rule and returns an error. *)
Definition bobWrite : CasbinRule :=
  mkRule 3 "p" "bob" "data2" "write" "" "" "" "" "".

Definition threeRows : Store :=
  mkStore [aliceRead; aliceAdmin; bobWrite] ∅ 0 4 [] [].

Definition exampleSetAdapter (b : Adapter) (e : Adapter) : Adapter := b.

Definition failingReload (e : Adapter)
  : M (Adapter * outcome (option error)) :=
  ret (e, Return (Some "reload failed")).

Definition failingCallback (e : Adapter)
  : M (Adapter * outcome (option error)) :=
  addPolicy e (db e) "p" "p" ["bob"; "data2"; "write"] ;;;
  ret (e, Return (Some "callback failed")).

(** The rows of the bulk inserts of a trace, statement by statement. *)
Definition inserts (tr : list event) : list (list CasbinRule) :=
  omap (fun e => match e with
                 | Stmt _ (SCreate lines) => Some lines
                 | _ => None
                 end) tr.

(** The rows [savePolicy] builds for one section of the model, in the order
    of its two loops. *)
Definition sectionLines (asts : list (string * Assertion)) : list CasbinRule :=
  asts ≫= (fun pa => (fun rule => savePolicyLine pa.1 rule) <$> Policy pa.2).

(** The events of a transaction [t] that carry at most [n] rows. *)
Definition bounded (t : nat) (n : nat) (evs : list event) : Prop :=
  Forall (fun e => (rowsOf e <= n)%nat
                   /\ exists st, e = Stmt (Some t) st) evs.

(** ** Vocabulary of the further properties *)

(** A row without its [id]. *)
Definition eraseID (r : CasbinRule) : CasbinRule :=
  mkRule 0 (Ptype r) (V0 r) (V1 r) (V2 r) (V3 r) (V4 r) (V5 r) (V6 r) (V7 r).

Global Instance column_eq_dec : EqDecision column.
Proof. solve_decision. Defined.

(** The eight value columns. *)
Definition valueColumns : list column :=
  [Cv0; Cv1; Cv2; Cv3; Cv4; Cv5; Cv6; Cv7].

(** The equality predicate of a rule, after the words of the specification:
    the type, which is always part of it, then [column = value] for every
    value of the rule that is not empty, the values taking the value columns
    in their order.  It is written without [savePolicyLine] and
    [queryString], to be compared with what they build. *)
Definition equalityPredicate (ptype : string) (rule : list string) : cond :=
  Eq Cptype ptype
  :: omap (fun cv => if bool_decide (cv.2 ≠ "") then Some (Eq cv.1 cv.2)
                     else None)
          (zip valueColumns rule).

(** The DELETE of one rule in transaction [t], by that predicate. *)
Definition ruleDelete (t : nat) (ptype : string) (rule : list string) : event :=
  Stmt (Some t) (SDelete (equalityPredicate ptype rule)).

(** [agrees line r]: the row [r] has the type of [line] and, in every value
    column where [line] is not empty, the value of [line]. *)
Definition agrees (line r : CasbinRule) : Prop :=
  Ptype r = Ptype line
  /\ Forall (fun c => cell c line = "" \/ cell c r = cell c line) valueColumns.

Global Instance agrees_dec (line r : CasbinRule) : Decision (agrees line r).
Proof. unfold agrees. apply _. Defined.


(** [windowed ptype fieldIndex fieldValues r]: the row [r] has the type
    [ptype] and carries every non-empty field value in its column, the
    [i]-th value standing for the value column [fieldIndex + i]; values
    that fall outside the eight columns constrain nothing. *)
Definition windowed (ptype : string) (fieldIndex : Z)
    (fieldValues : list string) (r : CasbinRule) : Prop :=
  Ptype r = ptype
  /\ forall (i : nat) (v : string) (c : column),
       fieldValues !! i = Some v -> v ≠ "" ->
       index valueColumns (fieldIndex + Z.of_nat i) = Some c ->
       cell c r = v.

(** [flushedIn t log flushed s s']: from [s] to [s'] the rows [flushed]
    joined the log of the open transaction [t], after [log], with the ids
    the counter gave them; the table is as it was and the failure script
    is empty. *)
Definition flushedIn (t : nat) (log : list write) (flushed : list CasbinRule)
    (s s' : Store) : Prop :=
  exists log',
    txs s' !! t = Some (log ++ log')
    /\ (forall rows, replay log' rows
                     = rows ++ (assignIDs (nextID s) flushed).1)
    /\ nextID s' = (assignIDs (nextID s) flushed).2
    /\ table s' = table s
    /\ faults s' = [].

(** The list a filter holds for a column. *)
Definition filterField (f : Filter) (c : column) : list string :=
  match c with
  | Cptype => FPtype f
  | Cv0 => FV0 f | Cv1 => FV1 f | Cv2 => FV2 f | Cv3 => FV3 f
  | Cv4 => FV4 f | Cv5 => FV5 f | Cv6 => FV6 f | Cv7 => FV7 f
  end.

(** [admits f r]: every list of the filter that is not empty holds the
    value of [r] in its column. *)
Definition admits (f : Filter) (r : CasbinRule) : Prop :=
  Forall (fun c => filterField f c = [] \/ cell c r ∈ filterField f c)
         (Cptype :: valueColumns).

Global Instance admits_dec (f : Filter) (r : CasbinRule) : Decision (admits f r).
Proof. unfold admits. apply _. Defined.

(** The rows one filter loads from the rows a handle sees, in the order of
    their [id]s. *)
Definition admitted (f : Filter) (rows : list CasbinRule) : list CasbinRule :=
  merge_sort by_ID (filter (admits f) rows).

(** The filters a filter argument stands for, when its type is supported. *)
Definition filtersOf (filter : filterValue) : option (list Filter) :=
  match filter with
  | AFilter f => Some [f]
  | AFilterPtr f => Some [f]
  | AFilters fs => Some fs
  | ABatchFilter b => Some (filters b)
  | ABatchFilterPtr b => Some (filters b)
  | AOther => None
  end.

(** The handle can send statements: it carries no error and, when it is a
    transaction, the transaction is open. *)
Definition usable (db : DB) (s : Store) : Prop :=
  Error db = None
  /\ match txid db with
     | Some t => is_Some (txs s !! t)
     | None => True
     end.

(** The query [loadFilteredPolicy] sends for one filter. *)
Definition findOf (a : Adapter) (db : DB) (f : Filter) : event :=
  Stmt (txid db) (SFind (filterQuery a f) true).

(** Example data: a filter for the [p] rules of alice, and the filter that
    constrains nothing. *)
Definition aliceFilter : Filter :=
  mkFilter ["p"] ["alice"] [] [] [] [] [] [] [].
Definition anyFilter : Filter := mkFilter [] [] [] [] [] [] [] [] [].

(** Example data: a context that holds the pool under the adapter's key,
    the same context cancelled, and a callback for [TransactionCtx] that
    adds one rule in the transaction it is given. *)
Definition exampleContext : Context :=
  mkContext {[ "gormDB" := ADB conn ]} None.

Definition doneContext : Context :=
  mkContext {[ "gormDB" := ADB conn ]} (Some "context canceled").

Definition addingCallback (ctx : Context) (tx : DB)
  : M (Adapter * outcome (option error)) :=
  addPolicy exampleAdapter tx "p" "p" ["bob"; "data2"; "write"] ;;;
  ret (exampleAdapter, Return None).

(** [overlay new r]: the row [r] with every column that is not empty in
    [new] overwritten by the value of [new]; the [id] stays. *)
Definition overlay (new r : CasbinRule) : CasbinRule :=
  let pick (f : CasbinRule -> string) :=
    if bool_decide (f new = "") then f r else f new in
  mkRule (ID r) (pick Ptype) (pick V0) (pick V1) (pick V2) (pick V3)
         (pick V4) (pick V5) (pick V6) (pick V7).

(** The DELETE of [removePolicies] for one rule, as a write. *)
Definition deleteWrite (ptype : string) (rule : list string) : write :=
  WDelete (queryString (savePolicyLine ptype rule)).

(** Example data: a table whose second row has no type. *)
Definition untypedRow : CasbinRule :=
  mkRule 2 "" "orphan" "" "" "" "" "" "" "".

Definition brokenStore : Store :=
  mkStore [aliceRead; untypedRow] ∅ 0 3 [] [].

(** The table a raw statement names. *)
Definition sqlTable (sql : rawsql) : string :=
  match sql with
  | DeleteFrom t => t
  | TruncateTable t _ => t
  end.

(** Example data: an [Open] that connects, a callback that truncates the
    table of the adapter it is given, and an adapter with a table prefix. *)
Definition exampleOpen (a : Adapter) : Adapter + error :=
  inl (mkAdapter (driverName a) (dataSourceName a) (databaseName a)
                 (tablePrefix a) (tableName a) (dbSpecified a) conn
                 (driverName a) (isFiltered a)).

Definition truncatingCallback (e : Adapter)
  : M (Adapter * outcome (option error)) :=
  err <- truncateTable e (db e) ;; ret (e, Return err).

Definition prefixedAdapter : Adapter :=
  mkAdapter "mysql" "dsn" "casbin" "cms" "casbin_rule" false conn "mysql" false.

(** What one UPDATE of [updatePolicy] or [updatePolicies] does to the rows
    a handle sees: the rows that agree with [old] take the non-empty
    columns of [new]. *)
Definition updated (rows : list CasbinRule) (on : CasbinRule * CasbinRule)
  : list CasbinRule :=
  (fun r => if decide (agrees on.1 r) then overlay on.2 r else r) <$> rows.

(** The store after [Rollback] on a handle that holds transaction [t]. *)
Definition afterRollback (t : nat) (s : Store) : Store :=
  mkStore (table s) (delete t (txs s)) (nextTx s) (nextID s) (faults s)
          (trace s ++ [Stmt (Some t) SRollback]).

(** Example data: a store in which transaction [0] is open and has written
    nothing yet. *)
Definition storeInTx : Store :=
  mkStore [aliceRead; aliceAdmin] {[ 0%nat := [] ]} 1 3 [] [].

(** * Properties *)

(** ** The rule codec *)

Lemma index_nat {A} (s : list A) (n : nat) : index s (Z.of_nat n) = s !! n.
Proof.
  unfold index. rewrite bool_decide_eq_true_2 by lia. by rewrite Nat2Z.id.
Qed.

Lemma index_neg {A} (s : list A) (i : Z) : i < 0 -> index s i = None.
Proof. intros H. unfold index. by rewrite bool_decide_eq_false_2 by lia. Qed.

(** The loop walks down a run of empty strings and stops on the entry
    before it. *)
Lemma trimLoop_stops (a : list string) (x : string) (k i fuel : nat) :
  x ≠ "" -> (i <= k)%nat -> (i < fuel)%nat ->
  trimLoop fuel (a ++ x :: replicate k "") (Z.of_nat (length a + i))
  = Stopped (len a).
Proof.
  intros Hx. revert fuel. induction i as [|i IH]; intros fuel Hik Hf.
  - destruct fuel as [|fuel]; [lia|]. cbn [trimLoop].
    rewrite index_nat, Nat.add_0_r. rewrite list_lookup_middle by done.
    by rewrite bool_decide_eq_false_2 by done.
  - destruct fuel as [|fuel]; [lia|]. cbn [trimLoop].
    rewrite index_nat.
    rewrite lookup_app_r by lia.
    replace (length a + S i - length a)%nat with (S i) by lia. simpl.
    rewrite lookup_replicate_2 by lia.
    rewrite bool_decide_eq_true_2 by done.
    replace (Z.of_nat (length a + S i) - 1) with (Z.of_nat (length a + i)) by lia.
    apply IH; lia.
Qed.

(** With nothing but empty strings the loop runs off the front. *)
Lemma trimLoop_runs_off (k i fuel : nat) :
  (i <= k)%nat -> (i < fuel)%nat ->
  trimLoop fuel (replicate k "") (Z.of_nat i - 1) = OutOfRange (-1).
Proof.
  revert fuel. induction i as [|i IH]; intros fuel Hik Hf.
  - destruct fuel as [|fuel]; [lia|]. cbn [trimLoop]. by rewrite index_neg by lia.
  - destruct fuel as [|fuel]; [lia|]. cbn [trimLoop].
    replace (Z.of_nat (S i) - 1) with (Z.of_nat i) by lia.
    rewrite index_nat, lookup_replicate_2 by lia.
    rewrite bool_decide_eq_true_2 by done. apply IH; lia.
Qed.

Lemma trimTrailingEmpty_replicate (k : nat) :
  trimTrailingEmpty (replicate k "") = [].
Proof. induction k as [|k IH]; [done|]. simpl. by rewrite IH. Qed.

Lemma trimTrailingEmpty_app_replicate (t : list string) (k : nat) :
  trimTrailingEmpty (t ++ replicate k "") = trimTrailingEmpty t.
Proof.
  induction t as [|x t IH]; simpl.
  - apply trimTrailingEmpty_replicate.
  - by rewrite IH.
Qed.

(** A list is its trimmed prefix followed by empty strings, and the prefix,
    when there is one, ends in a string that is not empty. *)
Lemma trimTrailingEmpty_split (t : list string) :
  exists k, t = trimTrailingEmpty t ++ replicate k ""
    /\ (trimTrailingEmpty t = []
        \/ exists a x, trimTrailingEmpty t = a ++ [x] /\ x ≠ "").
Proof.
  induction t as [|y t (k & Heq & Hlast)]; simpl.
  - exists 0%nat. split; [done | by left].
  - destruct (trimTrailingEmpty t) as [|z r] eqn:Et.
    + case_bool_decide as Hy.
      * subst y. exists (S k). split; [by rewrite Heq at 1 | by left].
      * exists k. split; [by rewrite Heq at 1|].
        right. by exists [], y.
    + exists k. split; [by rewrite Heq at 1|]. right.
      destruct Hlast as [|(a & x & Ha & Hx)]; [done|].
      exists (y :: a), x. rewrite Ha. done.
Qed.

Lemma trimTrailing_decodes (p : list string) :
  trimTrailingEmpty p ≠ [] -> trimTrailing p = Return (trimTrailingEmpty p).
Proof.
  intros Hne.
  destruct (trimTrailingEmpty_split p) as (k & Heq & [|(a & x & Ha & Hx)]); [done|].
  rewrite Ha in Heq |- *. clear Hne Ha. rewrite <- app_assoc in Heq. simpl in Heq.
  subst p. unfold trimTrailing, len.
  replace (Z.of_nat (length (a ++ x :: replicate k "")) - 1)
    with (Z.of_nat (length a + k)).
  2:{ rewrite length_app. simpl. rewrite length_replicate. lia. }
  rewrite (trimLoop_stops a x k k) by (done || lia || (rewrite length_app; simpl; rewrite length_replicate; lia)).
  unfold slice_to, len. f_equal.
  replace (Z.to_nat (Z.of_nat (length a) + 1)) with (length (a ++ [x])).
  2:{ rewrite length_app. simpl. lia. }
  change (a ++ x :: replicate k "") with (a ++ [x] ++ replicate k "").
  rewrite app_assoc. apply take_app_length.
Qed.

Lemma trimTrailing_panics (p : list string) :
  trimTrailingEmpty p = [] -> trimTrailing p = Panicked "index out of range".
Proof.
  intros He. destruct (trimTrailingEmpty_split p) as (k & Heq & _).
  rewrite He in Heq. simpl in Heq. subst p. unfold trimTrailing, len.
  rewrite length_replicate. by rewrite trimLoop_runs_off by lia.
Qed.

Lemma columns_savePolicyLine (ptype : string) (rule : list string) :
  (length rule <= 8)%nat ->
  columns (savePolicyLine ptype rule)
  = ptype :: rule ++ replicate (8 - length rule) "".
Proof.
  intros H.
  do 9 (destruct rule as [|? rule]; [reflexivity|]).
  simpl in H. lia.
Qed.

Lemma len_take_gt (rule : list string) (k : Z) :
  k < 8 ->
  bool_decide (len (take 8 rule) > k) = bool_decide (len rule > k).
Proof.
  intros Hk. apply bool_decide_ext. unfold len. rewrite length_take. lia.
Qed.

Lemma index_take (rule : list string) (k : Z) :
  k < 8 -> index (take 8 rule) k = index rule k.
Proof.
  intros Hk. unfold index. case_bool_decide; [|done].
  apply lookup_take_lt. lia.
Qed.

Lemma savePolicyLine_take (ptype : string) (rule : list string) :
  savePolicyLine ptype rule = savePolicyLine ptype (take 8 rule).
Proof.
  unfold savePolicyLine.
  by rewrite !len_take_gt, !index_take by lia.
Qed.

(** The predicate [queryString] builds from a row, read off its columns. *)
Lemma queryString_columns (line : CasbinRule) :
  queryString line
  = match columns line with
    | ptype :: values => equalityPredicate ptype values
    | [] => []
    end.
Proof.
  unfold queryString, andEq, equalityPredicate, valueColumns, columns.
  cbn [zip zip_with omap list_omap fst snd].
  repeat case_bool_decide; reflexivity.
Qed.

Lemma zip_take_length {A B} (l : list A) (k : list B) :
  zip l (take (length l) k) = zip l k.
Proof.
  revert k. induction l as [|x l IH]; intros [|y k]; simpl; try done.
  by rewrite IH.
Qed.

Lemma equalityPredicate_take (ptype : string) (rule : list string) :
  equalityPredicate ptype (take 8 rule) = equalityPredicate ptype rule.
Proof.
  unfold equalityPredicate. f_equal. f_equal.
  apply (zip_take_length valueColumns).
Qed.

Lemma equalityPredicate_pad (ptype : string) (rule : list string) (k : nat) :
  equalityPredicate ptype (rule ++ replicate k "")
  = equalityPredicate ptype rule.
Proof.
  unfold equalityPredicate. f_equal. generalize valueColumns as cs.
  induction rule as [|v rule IH]; intros cs.
  - simpl. rewrite zip_with_nil_r. simpl. revert cs.
    induction k as [|k IHk]; intros [|c cs]; simpl; done.
  - destruct cs as [|c cs]; [done|]. simpl.
    by rewrite IH.
Qed.

(** The predicate the code builds for a rule, by [savePolicyLine] and then
    [queryString], is the equality predicate of the rule. *)
Lemma queryString_savePolicyLine (ptype : string) (rule : list string) :
  queryString (savePolicyLine ptype rule) = equalityPredicate ptype rule.
Proof.
  rewrite savePolicyLine_take, queryString_columns.
  rewrite columns_savePolicyLine by (rewrite length_take; lia).
  by rewrite equalityPredicate_pad, equalityPredicate_take.
Qed.

Lemma trimTrailingEmpty_cons_ne (x : string) (t : list string) :
  x ≠ "" -> trimTrailingEmpty (x :: t) ≠ [].
Proof.
  intros Hx. simpl. destruct (trimTrailingEmpty t); [|done].
  by rewrite bool_decide_eq_false_2.
Qed.

Lemma trimTrailingEmpty_head (x : string) (t : list string) :
  x ≠ "" ->
  trimTrailingEmpty (x :: t) = x :: drop 1 (trimTrailingEmpty (x :: t)).
Proof.
  intros H. simpl. destruct (trimTrailingEmpty t); [|done].
  by rewrite bool_decide_eq_false_2.
Qed.

Lemma tupleOf_cons (line : CasbinRule) :
  Ptype line ≠ "" -> tupleOf line = Ptype line :: drop 1 (tupleOf line).
Proof. intros H. by apply trimTrailingEmpty_head. Qed.

(** C2.  A rule tuple [t] of length 1 to 9 whose type tag [t[0]] is not
    empty, encoded with [savePolicyLine] and decoded again, comes back as
    [t] without its trailing empty strings: that is the tuple
    [loadPolicyLine] hands to the engine, whatever the engine does with it. *)
Theorem codec_round_trip (t : list string) (ptype : string) :
  index t 0 = Some ptype -> ptype ≠ "" -> 1 <= len t <= 9 ->
  rowToRule (savePolicyLine ptype (drop 1 t)) = Return (trimTrailingEmpty t)
  /\ forall LoadPolicyArray model,
       loadPolicyLine LoadPolicyArray (savePolicyLine ptype (drop 1 t)) model
       = LoadPolicyArray (trimTrailingEmpty t) model.
Proof.
  intros Ht Hne Hlen.
  destruct t as [|x vs]; [done|]. cbn in Ht. injection Ht as ->.
  unfold len in Hlen. simpl in Hlen.
  change (drop 1 (ptype :: vs)) with vs.
  assert (Hrow : rowToRule (savePolicyLine ptype vs)
                 = Return (trimTrailingEmpty (ptype :: vs))).
  { unfold rowToRule. rewrite columns_savePolicyLine by lia.
    rewrite trimTrailing_decodes.
    - by rewrite app_comm_cons, trimTrailingEmpty_app_replicate.
    - rewrite app_comm_cons, trimTrailingEmpty_app_replicate.
      by apply trimTrailingEmpty_cons_ne. }
  split; [done|]. intros L model. unfold loadPolicyLine.
  unfold rowToRule in Hrow. by rewrite Hrow.
Qed.

Lemma codec_round_trip_witness :
  rowToRule (savePolicyLine "p" (drop 1 ["p"; "alice"; ""; "read"; ""; ""]))
  = Return ["p"; "alice"; ""; "read"].
Proof.
  refine (proj1 (codec_round_trip ["p"; "alice"; ""; "read"; ""; ""] "p" _ _ _)).
  - reflexivity.
  - discriminate.
  - unfold len; simpl; lia.
Defined.

(** Where the loop stops when some entry is not empty. *)
Lemma trimLoop_valid (p : list string) :
  trimTrailingEmpty p ≠ [] ->
  exists index_,
    trimLoop (S (length p)) p (len p - 1) = Stopped index_
    /\ 0 <= index_ < len p
    /\ trimTrailing p = Return (slice_to p (index_ + 1)).
Proof.
  intros Hne.
  pose proof (trimTrailing_decodes p Hne) as Hd. unfold trimTrailing in Hd.
  destruct (trimLoop (S (length p)) p (len p - 1)) as [i|i|] eqn:El; try done.
  exists i. split; [done|]. injection Hd as Hd. split.
  2:{ rewrite Hd. by apply trimTrailing_decodes. }
  destruct (trimTrailingEmpty_split p) as (k & Heq & [|(a & x & Ha & Hx)]); [done|].
  rewrite Ha in Heq. rewrite <- app_assoc in Heq. simpl in Heq.
  assert (i = len a) as ->.
  { rewrite Heq in El. unfold len in El.
    replace (Z.of_nat (length (a ++ x :: replicate k "")) - 1)
      with (Z.of_nat (length a + k)) in El.
    2:{ rewrite length_app. simpl. rewrite length_replicate. lia. }
    rewrite (trimLoop_stops a x k k) in El
      by (done || lia || (rewrite length_app; simpl; rewrite length_replicate; lia)).
    by injection El. }
  rewrite Heq. unfold len. rewrite length_app. simpl. lia.
Qed.

(** C10.  The trailing-trim loop of [loadPolicyLine] and [Preview] has no
    lower bound.  On a row whose nine columns are all empty it reaches index
    [-1] and panics, in both functions; on every row whose [ptype] is not
    empty it stops at an index inside the slice, [loadPolicyLine] hands the
    trimmed tuple to the engine, and [Preview] returns whenever the engine's
    membership test does. *)
Theorem trim_loop_total_iff_ptype :
  (forall id, let line := mkRule id "" "" "" "" "" "" "" "" "" in
     trimLoop (S (length (columns line))) (columns line)
              (len (columns line) - 1) = OutOfRange (-1)
     /\ (forall LoadPolicyArray model,
           loadPolicyLine LoadPolicyArray line model
           = (model, Panicked "index out of range"))
     /\ (forall HasPolicyEx a rest model,
           Preview HasPolicyEx a (line :: rest) model
           = (line :: rest, Panicked "index out of range")))
  /\ (forall line, Ptype line ≠ "" ->
        exists index_,
          trimLoop (S (length (columns line))) (columns line)
                   (len (columns line) - 1) = Stopped index_
          /\ 0 <= index_ < len (columns line)
          /\ (forall LoadPolicyArray model,
                loadPolicyLine LoadPolicyArray line model
                = LoadPolicyArray (slice_to (columns line) (index_ + 1)) model)
          /\ (forall HasPolicyEx a model ok e,
                HasPolicyEx model (String.substring 0 1 (Ptype line)) (Ptype line)
                            (drop 1 (slice_to (columns line) (index_ + 1)))
                = Return (ok, e) ->
                exists rules',
                  Preview HasPolicyEx a [line] model = (rules', Return e))).
Proof.
  split.
  - intros id line. split; [reflexivity|]. split; [reflexivity|].
    intros H a rest model. unfold Preview. reflexivity.
  - intros line Hp.
    assert (Hne : trimTrailingEmpty (columns line) ≠ []).
    { by apply trimTrailingEmpty_cons_ne. }
    destruct (trimLoop_valid _ Hne) as (i & Hi & Hr & Hs).
    exists i. split; [done|]. split; [done|]. split.
    + intros L model. unfold loadPolicyLine. by rewrite Hs.
    + intros H a model ok e HH. unfold Preview.
      cbn [length columns seq PreviewLoop lookup list_lookup].
      rewrite Hs.
      assert (Hk : index (slice_to (columns line) (i + 1)) 0 = Some (Ptype line)).
      { unfold slice_to, index. simpl.
        destruct (Z.to_nat (i + 1)) eqn:E; [lia|]. done. }
      cbn [columns] in Hk, HH. rewrite Hk.
      rewrite bool_decide_eq_false_2.
      2:{ destruct (Ptype line); [done|]. simpl. lia. }
      rewrite HH. destruct e as [e|]; [by eexists|].
      destruct ok; by eexists.
Qed.

Lemma trim_loop_total_iff_ptype_witness :
  exists index_,
    trimLoop 10 (columns (mkRule 7 "p" "alice" "data1" "read" "" "" "" "" "")) 8
    = Stopped index_ /\ 0 <= index_ < 9.
Proof.
  destruct (proj2 trim_loop_total_iff_ptype
              (mkRule 7 "p" "alice" "data1" "read" "" "" "" "" ""))
    as (i & Hi & Hr & _).
  - discriminate.
  - exists i. split; [exact Hi | exact Hr].
Defined.

(** ** The store *)

Lemma bind_run {A B} (c : M A) (k : A -> M B) (s s' : Store) (x : A) :
  c s = (x, s') -> bind c k s = k x s'.
Proof. intros H. unfold bind. by rewrite H. Qed.

Lemma replay_snoc (log : list write) (w : write) (rows : list CasbinRule) :
  replay (log ++ [w]) rows = apply_write w (replay log rows).
Proof. unfold replay. by rewrite foldl_app. Qed.

Lemma send_live (db : DB) (st : stmt) (w : write) (s : Store) :
  live db s = true ->
  send db st (Some w) s = (None, written db w (stepped (Stmt (txid db) st) s)).
Proof.
  unfold live. intros H. apply andb_prop in H as [H Hf].
  apply andb_prop in H as [He Ht]. apply bool_decide_eq_true_1 in He.
  unfold send. rewrite He. unfold bind, emit, fault, stepped, written.
  destruct s as [tb tx nt ni fs tr]. simpl in *.
  destruct fs as [|[e|] fs]; [|done|]; simpl;
    (destruct (txid db) as [t|]; simpl;
     [apply bool_decide_eq_true_1 in Ht as [log Hlog]; by rewrite Hlog | done]).
Qed.

(** A statement that writes nothing to the adapter's rows, on a handle
    whose next statement succeeds. *)
Lemma send_live_none (db : DB) (st : stmt) (s : Store) :
  live db s = true ->
  send db st None s = (None, stepped (Stmt (txid db) st) s).
Proof.
  unfold live. intros H. apply andb_prop in H as [H Hf].
  apply andb_prop in H as [He Ht]. apply bool_decide_eq_true_1 in He.
  unfold send. rewrite He. unfold bind, emit, fault, stepped.
  destruct s as [tb tx nt ni fs tr]. simpl in *.
  destruct fs as [|[e|] fs]; [|done|]; simpl;
    (destruct (txid db) as [t|]; simpl;
     [apply bool_decide_eq_true_1 in Ht as [log Hlog]; by rewrite Hlog | done]).
Qed.

(** Under the scope of the adapter's table, [rawDelete] is the DELETE on
    the adapter's rows. *)
Lemma rawDelete_Scoped (a : Adapter) (db : DB) (line : CasbinRule) :
  rawDelete a db Scoped line = Delete db (queryString line).
Proof. unfold rawDelete. by rewrite bool_decide_eq_true_2. Qed.

Lemma send_fails (db : DB) (st : stmt) (w : option write) (s : Store)
    (e : error) :
  Error db = None -> head (faults s) = Some (Some e) ->
  send db st w s = (Some e, stepped (Stmt (txid db) st) s).
Proof.
  intros He Hf. unfold send. rewrite He. unfold bind, emit, fault, stepped.
  simpl. destruct (faults s) as [|[e'|] fs]; simpl in *; try done.
  by injection Hf as ->.
Qed.

Lemma view_written (db : DB) (w : write) (s : Store) :
  match txid db with Some t => is_Some (txs s !! t) | None => True end ->
  view db (written db w s) = apply_write w (view db s).
Proof.
  unfold view, written. destruct (txid db) as [t|]; simpl; [|done].
  intros [log Hlog]. rewrite Hlog, lookup_insert_eq. simpl. apply replay_snoc.
Qed.

Lemma view_stepped (db : DB) (e : event) (s : Store) :
  view db (stepped e s) = view db s.
Proof. done. Qed.

Lemma live_open (db : DB) (s : Store) :
  live db s = true ->
  match txid db with Some t => is_Some (txs s !! t) | None => True end.
Proof.
  unfold live. intros H. apply andb_prop in H as [H _].
  apply andb_prop in H as [_ H]. destruct (txid db); [|done].
  by apply bool_decide_eq_true_1 in H.
Qed.

(** One statement with a write, sent in an open transaction: it is traced,
    it uses up one entry of the failure script and returns it, and it leaves
    the table and the transaction open. *)
Lemma send_in_tx (t : nat) (st : stmt) (w : write) (s : Store) :
  is_Some (txs s !! t) ->
  exists s',
    send (mkDB (Some t) None) st (Some w) s
    = (default None (head (faults s)), s')
    /\ trace s' = trace s ++ [Stmt (Some t) st]
    /\ faults s' = tail (faults s)
    /\ is_Some (txs s' !! t)
    /\ table s' = table s
    /\ nextTx s' = nextTx s.
Proof.
  intros [log Hlog]. destruct s as [tb tx nt ni fs tr]. simpl in *.
  unfold send, bind, emit, fault. simpl.
  destruct fs as [|[e|] fs]; simpl.
  - rewrite Hlog. eexists. split; [reflexivity|]. simpl.
    rewrite lookup_insert_eq. eauto 10.
  - eexists. split; [reflexivity|]. simpl. rewrite Hlog. eauto 10.
  - rewrite Hlog. eexists. split; [reflexivity|]. simpl.
    rewrite lookup_insert_eq. eauto 10.
Qed.

Lemma Begin_conn (s : Store) :
  default None (head (faults s)) = None ->
  Begin conn s = (mkDB (Some (nextTx s)) None, begun s).
Proof.
  intros H. unfold Begin, bind, emit, fault, begun. simpl.
  by destruct (faults s) as [|[e|] fs].
Qed.

Lemma Begin_conn_fails (s : Store) (e : error) :
  head (faults s) = Some (Some e) ->
  Begin conn s = (mkDB None (Some e), stepped (Stmt None SBegin) s).
Proof.
  intros H. unfold Begin, bind, emit, fault, stepped. simpl.
  destruct (faults s) as [|[e'|] fs]; simpl in *; try done. by injection H as ->.
Qed.

(** [Commit] in an open transaction: the entry of the failure script decides;
    on success the log is replayed on the table. *)
Lemma Commit_open (t : nat) (log : list write) (s : Store) :
  txs s !! t = Some log ->
  Commit (mkDB (Some t) None) s
  = match default None (head (faults s)) with
    | Some e => (Some e, stepped (Stmt (Some t) SCommit) s)
    | None => (None, mkStore (replay log (table s)) (delete t (txs s))
                             (nextTx s) (nextID s) (tail (faults s))
                             (trace s ++ [Stmt (Some t) SCommit]))
    end.
Proof.
  intros H. unfold Commit, bind, emit, fault, stepped. simpl.
  destruct (faults s) as [|[e|] fs]; simpl; by rewrite ?H.
Qed.

Lemma Create_in_tx (t : nat) (lines : list CasbinRule) (s : Store) :
  is_Some (txs s !! t) -> lines ≠ [] ->
  exists s',
    Create (mkDB (Some t) None) lines s = (default None (head (faults s)), s')
    /\ trace s' = trace s ++ [Stmt (Some t) (SCreate lines)]
    /\ faults s' = tail (faults s)
    /\ is_Some (txs s' !! t)
    /\ table s' = table s
    /\ nextTx s' = nextTx s.
Proof.
  intros Hopen Hne. unfold Create. simpl.
  rewrite bool_decide_eq_false_2 by done.
  destruct (assignIDs (nextID s) lines) as [lines' n'].
  destruct (send_in_tx t (SCreate lines) (WCreate lines') s Hopen)
    as (s1 & -> & Htr & Hf & Ho & Htb & Hnt).
  destruct (default None (head (faults s))); eexists; (split; [reflexivity|]);
    simpl; eauto 10.
Qed.

Lemma Rollback_in_tx (t : nat) (s : Store) :
  exists s',
    Rollback (mkDB (Some t) None) s = (tt, s')
    /\ trace s' = trace s ++ [Stmt (Some t) SRollback]
    /\ faults s' = faults s
    /\ txs s' !! t = None
    /\ table s' = table s
    /\ nextTx s' = nextTx s.
Proof.
  unfold Rollback, bind, emit, set_txs. simpl. eexists.
  split; [reflexivity|]. simpl. rewrite lookup_delete_eq. eauto 10.
Qed.

(** [Find] in an open transaction that the failure script lets through. *)
Lemma Find_in_tx (t : nat) (q : cond) (ordered : bool) (s : Store) :
  is_Some (txs s !! t) -> default None (head (faults s)) = None ->
  Find (mkDB (Some t) None) q ordered s
  = ((let rows := filter (fun r => matches q r = true)
                         (view (mkDB (Some t) None) s) in
      if ordered then merge_sort by_ID rows else rows, None),
     stepped (Stmt (Some t) (SFind q ordered)) s).
Proof.
  intros [log Hlog] Hf. unfold Find, send, bind, emit, fault, stepped, view.
  destruct s as [tb tx nt ni fs tr]. simpl in *.
  destruct fs as [|[e|] fs]; simpl in *; try done;
    rewrite !Hlog; simpl; by rewrite ?Hlog.
Qed.

Lemma matches_ptype (ptype : string) (r : CasbinRule) :
  matches [Eq Cptype ptype] r = false <-> Ptype r ≠ ptype.
Proof.
  unfold matches. simpl. rewrite andb_true_r.
  by rewrite bool_decide_eq_false.
Qed.

Lemma queryString_type_only (ptype : string) :
  queryString (with_Ptype ptype getTableInstance) = [Eq Cptype ptype].
Proof. reflexivity. Qed.

(** ** Filtered remove and filtered update *)

(** C7.  With field index [-1], [removeFilteredPolicy] sends one DELETE
    whose only condition is the type, whatever the field values are (also
    when all of them are empty): when that statement succeeds, the rows the
    handle sees afterwards are the rows of the other types, unchanged and in
    order. *)
Theorem removeFilteredPolicy_minus_one (a : Adapter) (db : DB)
    (sec ptype : string) (fieldValues : list string) (s : Store) :
  live db s = true ->
  exists s',
    removeFilteredPolicy a db sec ptype (-1) fieldValues s = (None, s')
    /\ view db s' = filter (fun r => Ptype r ≠ ptype) (view db s)
    /\ trace s' = trace s ++ [Stmt (txid db) (SDelete [Eq Cptype ptype])].
Proof.
  intros Hlive. unfold removeFilteredPolicy.
  rewrite bool_decide_eq_true_2 by done.
  rewrite rawDelete_Scoped. unfold Delete. rewrite queryString_type_only.
  rewrite send_live by done. eexists. split; [reflexivity|]. split.
  - rewrite view_written by (by apply live_open in Hlive).
    rewrite view_stepped. simpl. apply list_filter_iff.
    intros r. apply matches_ptype.
  - unfold written. by destruct (txid db).
Qed.

Lemma removeFilteredPolicy_minus_one_witness :
  exists s',
    removeFilteredPolicy exampleAdapter conn "p" "p" (-1) [""; ""]
                         (exampleStore []) = (None, s')
    /\ view conn s' = [aliceAdmin]
    /\ trace s' = [Stmt None (SDelete [Eq Cptype "p"])].
Proof.
  destruct (removeFilteredPolicy_minus_one exampleAdapter conn "p" "p"
              [""; ""] (exampleStore [])) as (s' & H1 & H2 & H3).
  - reflexivity.
  - exists s'. split; [exact H1|]. split; [rewrite H2; reflexivity | exact H3].
Defined.

Lemma checkQueryField_all_empty (fieldValues : list string) :
  Forall (fun v => v = "") fieldValues ->
  checkQueryField fieldValues = Some ErrQueryFieldEmpty.
Proof.
  intros H. unfold checkQueryField.
  replace (existsb _ fieldValues) with false; [done|].
  symmetry. apply not_true_is_false. intros He.
  apply existsb_exists in He as (x & Hin & Hx).
  apply bool_decide_eq_true_1 in Hx. apply Hx.
  rewrite Forall_forall in H. apply H. by apply list_elem_of_In.
Qed.

(** The filtered remove refuses an all-empty window before it sends
    anything: the store is as it was. *)
Lemma removeFilteredPolicy_all_empty (a : Adapter) (db : DB)
    (sec ptype : string) (fieldIndex : Z) (fieldValues : list string)
    (s : Store) :
  fieldIndex ≠ -1 -> Forall (fun v => v = "") fieldValues ->
  removeFilteredPolicy a db sec ptype fieldIndex fieldValues s
  = (Some ErrQueryFieldEmpty, s).
Proof.
  intros Hi Hv. unfold removeFilteredPolicy.
  rewrite bool_decide_eq_false_2 by done.
  by rewrite checkQueryField_all_empty.
Qed.

Lemma index_all_empty (fieldValues : list string) (i : Z) :
  Forall (fun v => v = "") fieldValues ->
  default "" (index fieldValues i) = "".
Proof.
  intros H. unfold index. case_bool_decide; [|done].
  destruct (fieldValues !! Z.to_nat i) as [v|] eqn:E; [|done].
  simpl. rewrite Forall_forall in H. apply H.
  by eapply list_elem_of_lookup_2.
Qed.

(** The guard of a window assignment keeps its index inside the window. *)
Lemma window_index_in_range (k fieldIndex : Z) (fieldValues : list string) :
  bool_decide (fieldIndex <= k) && bool_decide (k < fieldIndex + len fieldValues)
  = true ->
  is_Some (index fieldValues (k - fieldIndex)).
Proof.
  intros H. apply andb_prop in H as [H1 H2].
  apply bool_decide_eq_true_1 in H1. apply bool_decide_eq_true_1 in H2.
  unfold index, len in *. rewrite bool_decide_eq_true_2 by lia.
  apply lookup_lt_is_Some. lia.
Qed.

(** An all-empty window constrains nothing: the line keeps its type as its
    only condition. *)
Lemma windowLine_all_empty (fieldIndex : Z) (fieldValues : list string)
    (ptype : string) :
  Forall (fun v => v = "") fieldValues ->
  windowLine fieldIndex fieldValues (with_Ptype ptype getTableInstance)
  = with_Ptype ptype getTableInstance.
Proof.
  intros H. unfold windowLine, window.
  rewrite !(index_all_empty fieldValues) by done.
  repeat (match goal with
          | |- context [if ?c then _ else _] => destruct c
          end; try reflexivity).
Qed.

(** On a store that fails nothing, [updateFilteredPolicies] with an
    all-empty window and no new rules returns every row of the type as
    replaced, with no error, and removes them all from the table. *)
Lemma updateFilteredPolicies_all_empty (a : Adapter) (sec ptype : string)
    (fieldIndex : Z) (fieldValues : list string) (s : Store) :
  Forall (fun v => v = "") fieldValues -> faults s = [] ->
  exists s',
    updateFilteredPolicies a conn sec ptype [] fieldIndex fieldValues s
    = ((Some (toStringPolicy <$> filter (fun r => Ptype r = ptype) (table s)),
        None), s')
    /\ table s' = filter (fun r => Ptype r ≠ ptype) (table s).
Proof.
  intros Hv Hf. unfold updateFilteredPolicies.
  rewrite windowLine_all_empty by done. rewrite queryString_type_only.
  cbn [fmap list_fmap].
  rewrite (bind_run _ _ _ _ _ (Begin_conn s ltac:(by rewrite Hf))).
  assert (Ho : is_Some (txs (begun s) !! nextTx s)).
  { simpl. rewrite lookup_insert_eq. by eexists. }
  rewrite (bind_run _ _ _ _ _ (Find_in_tx _ _ _ _ Ho ltac:(by simpl; rewrite Hf))).
  unfold Delete.
  set (s1 := stepped _ (begun s)).
  assert (Ho1 : is_Some (txs s1 !! nextTx s)) by done.
  destruct (send_in_tx (nextTx s) (SDelete [Eq Cptype ptype])
              (WDelete [Eq Cptype ptype]) s1 Ho1)
    as (s2 & Hsend & Htr & Hf2 & _ & Htb & Hnt).
  assert (Hf1 : faults s1 = []) by (by simpl; rewrite Hf).
  rewrite Hf1 in Hsend, Hf2. simpl in Hsend, Hf2.
  rewrite (bind_run _ _ _ _ _ Hsend). cbn [createEach].
  unfold bind at 1. unfold ret at 1.
  assert (Hlog : txs s2 !! nextTx s = Some [WDelete [Eq Cptype ptype]]).
  { unfold send, bind, emit, fault in Hsend. simpl in Hsend.
    rewrite Hf in Hsend. simpl in Hsend. rewrite lookup_insert_eq in Hsend.
    simpl in Hsend. injection Hsend as <-. simpl. by rewrite lookup_insert_eq. }
  pose proof (Commit_open _ _ _ Hlog) as Hcm. rewrite Hf2 in Hcm.
  simpl in Hcm. rewrite (bind_run _ _ _ _ _ Hcm). eexists. split.
  - unfold ret. f_equal. f_equal. f_equal. f_equal.
    unfold view. simpl. rewrite lookup_insert_eq. simpl.
    apply list_filter_iff. intros r. unfold matches. simpl.
    rewrite andb_true_r. by rewrite bool_decide_eq_true.
  - simpl. rewrite Htb. simpl. apply list_filter_iff. intros r.
    apply matches_ptype.
Qed.

(** C3, on the code.  [updateFilteredPolicies] does not call
    [checkQueryField]: with field index [0] and the window [[""]], which
    [checkQueryField] refuses, it returns no error, reports the stored [p]
    row as replaced and deletes it. *)
Theorem updateFilteredPolicies_all_empty_window :
  let r := updateFilteredPolicies exampleAdapter conn "p" "p" [] 0 [""]
             (exampleStore []) in
  checkQueryField [""] ≠ None
  /\ r.1 = (Some [["p"; "alice"; "data1"; "read"]], None)
  /\ table (exampleStore []) = [aliceRead; aliceAdmin]
  /\ table r.2 = [aliceAdmin]
  /\ trace r.2 = [Stmt None SBegin;
                  Stmt (Some 0%nat) (SFind [Eq Cptype "p"] false);
                  Stmt (Some 0%nat) (SDelete [Eq Cptype "p"]);
                  Stmt (Some 0%nat) SCommit].
Proof. repeat split; (done || by vm_compute). Qed.

(** ** Full save *)

Lemma inserts_app (tr1 tr2 : list event) :
  inserts (tr1 ++ tr2) = inserts tr1 ++ inserts tr2.
Proof. apply omap_app. Qed.

(** The inner loop: the table is not touched, every INSERT carries at most
    1001 rows, and when no INSERT fails the rows sent and the rows still
    buffered are the rows built so far. *)
Lemma saveRules_statements (a : Adapter) (t : nat) (ptype : string)
    (rules : list (list string)) (lines : list CasbinRule) (s : Store) :
  is_Some (txs s !! t) -> (length lines <= 1000)%nat ->
  exists r s' evs,
    saveRules a (mkDB (Some t) None) ptype rules lines s = (r, s')
    /\ trace s' = trace s ++ evs
    /\ bounded t 1001 evs
    /\ table s' = table s
    /\ nextTx s' = nextTx s
    /\ match r with
       | inl lines' =>
           is_Some (txs s' !! t) /\ (length lines' <= 1000)%nat
           /\ concat (inserts evs) ++ lines'
              = lines ++ ((fun rule => savePolicyLine ptype rule) <$> rules)
       | inr e => txs s' !! t = None
       end.
Proof.
  revert lines s. induction rules as [|rule rules IH]; intros lines s Hopen Hlen.
  - exists (inl lines), s, []. simpl. rewrite !app_nil_r.
    repeat split; try done. by constructor.
  - cbn [saveRules]. unfold flushEvery, len.
    rewrite length_app. cbn [length].
    case_bool_decide as Hflush.
    + assert (Hfull : length lines = 1000%nat) by lia.
      destruct (Create_in_tx t (lines ++ [savePolicyLine ptype rule]) s Hopen)
        as (s1 & Hc & Htr & Hf & Ho & Htb & Hnt).
      { by destruct lines. }
      rewrite (bind_run _ _ _ _ _ Hc).
      assert (Hb1 : bounded t 1001
                [Stmt (Some t) (SCreate (lines ++ [savePolicyLine ptype rule]))]).
      { constructor; [|constructor]. split; [|by eexists].
        simpl. rewrite length_app. simpl. lia. }
      destruct (default None (head (faults s))) as [e|].
      * destruct (Rollback_in_tx t s1) as (s2 & Hr & Htr2 & Hf2 & Ho2 & Htb2 & Hnt2).
        rewrite (bind_run _ _ _ _ _ Hr).
        exists (inr e), s2,
          [Stmt (Some t) (SCreate (lines ++ [savePolicyLine ptype rule]));
           Stmt (Some t) SRollback].
        split; [done|]. split; [by rewrite Htr2, Htr, <- app_assoc|].
        split.
        { constructor; [by apply Forall_inv in Hb1|].
          constructor; [|constructor]. split; [simpl; lia | by eexists]. }
        split; [congruence|]. split; [congruence|done].
      * destruct (IH [] s1 Ho) as (r & s' & evs & Hrun & Htr' & Hb & Htb' & Hnt' & Hr).
        { simpl. lia. }
        exists r, s',
          (Stmt (Some t) (SCreate (lines ++ [savePolicyLine ptype rule])) :: evs).
        split; [done|]. split; [by rewrite Htr', Htr, <- app_assoc|].
        split; [by constructor; [apply Forall_inv in Hb1|]|].
        split; [congruence|]. split; [congruence|].
        destruct r as [lines'|e]; [|done].
        destruct Hr as (Ho' & Hl' & Hcat). split; [done|]. split; [done|].
        change (inserts (Stmt (Some t)
                  (SCreate (lines ++ [savePolicyLine ptype rule])) :: evs))
          with ((lines ++ [savePolicyLine ptype rule]) :: inserts evs).
        cbn [concat]. rewrite <- (app_assoc _ (concat (inserts evs))), Hcat.
        by rewrite <- app_assoc.
    + destruct (IH (lines ++ [savePolicyLine ptype rule]) s Hopen)
        as (r & s' & evs & Hrun & Htr' & Hb & Htb' & Hnt' & Hr).
      { rewrite length_app. simpl. lia. }
      exists r, s', evs. split; [done|]. split; [done|]. split; [done|].
      split; [done|]. split; [done|].
      destruct r as [lines'|e]; [|done].
      destruct Hr as (Ho' & Hl' & Hcat). split; [done|]. split; [done|].
      rewrite Hcat. by rewrite <- app_assoc.
Qed.

(** The outer loop, over the assertions of one section. *)
Lemma saveAssertions_statements (a : Adapter) (t : nat)
    (asts : list (string * Assertion)) (lines : list CasbinRule) (s : Store) :
  is_Some (txs s !! t) -> (length lines <= 1000)%nat ->
  exists r s' evs,
    saveAssertions a (mkDB (Some t) None) asts lines s = (r, s')
    /\ trace s' = trace s ++ evs
    /\ bounded t 1001 evs
    /\ table s' = table s
    /\ nextTx s' = nextTx s
    /\ match r with
       | inl lines' =>
           is_Some (txs s' !! t) /\ (length lines' <= 1000)%nat
           /\ concat (inserts evs) ++ lines' = lines ++ sectionLines asts
       | inr e => txs s' !! t = None
       end.
Proof.
  revert lines s. induction asts as [|[ptype ast] asts IH];
    intros lines s Hopen Hlen.
  - exists (inl lines), s, []. simpl. rewrite !app_nil_r.
    repeat split; try done. by constructor.
  - cbn [saveAssertions].
    destruct (saveRules_statements a t ptype (Policy ast) lines s Hopen Hlen)
      as (r1 & s1 & evs1 & Hrun1 & Htr1 & Hb1 & Htb1 & Hnt1 & Hr1).
    rewrite (bind_run _ _ _ _ _ Hrun1).
    destruct r1 as [lines1|e].
    + destruct Hr1 as (Ho1 & Hl1 & Hcat1).
      destruct (IH lines1 s1 Ho1 Hl1)
        as (r & s' & evs & Hrun & Htr & Hb & Htb & Hnt & Hr).
      exists r, s', (evs1 ++ evs). split; [done|].
      split; [by rewrite Htr, Htr1, <- app_assoc|].
      split; [by apply Forall_app|]. split; [congruence|]. split; [congruence|].
      destruct r as [lines'|e]; [|done].
      destruct Hr as (Ho & Hl & Hcat). split; [done|]. split; [done|].
      rewrite inserts_app, concat_app, <- app_assoc, Hcat.
      rewrite app_assoc, Hcat1. unfold sectionLines. cbn [mbind list_bind].
      by rewrite <- app_assoc.
    + exists (inr e), s1, evs1. by repeat split.
Qed.

(** The SQL [truncateTable] sends. *)
Lemma truncateTable_sends (a : Adapter) (db : DB) :
  exists sql, truncateTable a db = send db (SExec sql) (Some WClear).
Proof. unfold truncateTable, Exec. by eexists. Qed.

(** [savePolicy] on the pool, statement by statement.  After [Begin] the
    truncation is sent on the pool, outside the transaction [t]; every
    other statement is sent in [t], and no INSERT carries more than 1001
    rows.  When the truncation has succeeded: a save that returns no error
    has inserted the rows of the [p] section and then those of the [g]
    section; a save that returns an error leaves the table empty. *)
Lemma savePolicy_statements (a : Adapter) (model : Model) (s : Store) :
  default None (head (faults s)) = None ->
  let t := nextTx s in
  exists r s' sql evs,
    savePolicy a conn model s = (r, s')
    /\ trace s' = trace s ++ [Stmt None SBegin; Stmt None (SExec sql)] ++ evs
    /\ bounded t 1001 evs
    /\ (default None (faults s !! 1%nat) = None ->
        (r = None ->
         concat (inserts evs)
         = sectionLines (map_to_list (model !!! "p" : AssertionMap))
           ++ sectionLines (map_to_list (model !!! "g" : AssertionMap)))
        /\ (r ≠ None -> table s' = [])).
Proof.
  intros Hbegin t. unfold savePolicy.
  rewrite (bind_run _ _ _ _ _ (Begin_conn s Hbegin)). fold t.
  destruct (truncateTable_sends a conn) as [sql ->].
  assert (Hf1 : head (faults (begun s)) = faults s !! 1%nat).
  { simpl. rewrite head_lookup. by destruct (faults s). }
  assert (Hrb : bounded t 1001 [Stmt (Some t) SRollback]).
  { constructor; [|constructor]. split; [simpl; lia | by eexists]. }
  assert (Hcm : bounded t 1001 [Stmt (Some t) SCommit]).
  { constructor; [|constructor]. split; [simpl; lia | by eexists]. }
  destruct (default None (faults s !! 1%nat)) as [e|] eqn:E1.
  - (* the truncation fails *)
    assert (Hf1' : head (faults (begun s)) = Some (Some e)).
    { rewrite Hf1. by destruct (faults s !! 1%nat) as [[?|]|]; simplify_eq/=. }
    rewrite (bind_run _ _ _ _ _ (send_fails conn _ _ (begun s) e eq_refl Hf1')).
    destruct (Rollback_in_tx t (stepped (Stmt None (SExec sql)) (begun s)))
      as (s2 & Hr & Htr2 & _).
    rewrite (bind_run _ _ _ _ _ Hr).
    exists (Some e), s2, sql, [Stmt (Some t) SRollback].
    split; [done|]. split.
    { rewrite Htr2. simpl. by rewrite <- !app_assoc. }
    split; [done | done].
  - (* the truncation succeeds, on the pool *)
    assert (Hlive : live conn (begun s) = true).
    { unfold live. simpl.
      destruct (faults s) as [|f0 [|[e|] fs]]; simpl in *; done. }
    rewrite (bind_run _ _ _ _ _ (send_live conn (SExec sql) WClear _ Hlive)).
    set (s2 := written conn WClear (stepped (Stmt None (SExec sql)) (begun s))).
    assert (Ho2 : is_Some (txs s2 !! t)).
    { simpl. rewrite lookup_insert_eq. by eexists. }
    assert (Htr2 : trace s2 = trace s ++ [Stmt None SBegin; Stmt None (SExec sql)]).
    { simpl. by rewrite <- app_assoc. }
    assert (Htb2 : table s2 = []) by done.
    destruct (saveAssertions_statements a t
                (map_to_list (model !!! "p" : AssertionMap)) [] s2 Ho2)
      as (r1 & s3 & evs1 & Hrun1 & Htr3 & Hb1 & Htb3 & Hnt3 & Hr1);
      [simpl; lia|].
    rewrite (bind_run _ _ _ _ _ Hrun1).
    destruct r1 as [lines1|e].
    2:{ exists (Some e), s3, sql, evs1. split; [done|].
        split; [by rewrite Htr3, Htr2, <- app_assoc|]. split; [done|].
        intros _. split; [done|]. intros _. congruence. }
    destruct Hr1 as (Ho3 & Hl1 & Hcat1). simpl in Hcat1.
    destruct (saveAssertions_statements a t
                (map_to_list (model !!! "g" : AssertionMap)) lines1 s3 Ho3 Hl1)
      as (r2 & s4 & evs2 & Hrun2 & Htr4 & Hb2 & Htb4 & Hnt4 & Hr2).
    rewrite (bind_run _ _ _ _ _ Hrun2).
    destruct r2 as [lines2|e].
    2:{ exists (Some e), s4, sql, (evs1 ++ evs2). split; [done|].
        split; [by rewrite Htr4, Htr3, Htr2, <- !app_assoc|].
        split; [by apply Forall_app|].
        intros _. split; [done|]. intros _. congruence. }
    destruct Hr2 as ([log Ho4] & Hl2 & Hcat2).
    assert (Hall : concat (inserts (evs1 ++ evs2)) ++ lines2
                   = sectionLines (map_to_list (model !!! "p" : AssertionMap))
                     ++ sectionLines (map_to_list (model !!! "g" : AssertionMap))).
    { rewrite inserts_app, concat_app, <- app_assoc, Hcat2.
      by rewrite app_assoc, Hcat1. }
    case_bool_decide as Hrest.
    + (* rows are left in the buffer *)
      destruct (Create_in_tx t lines2 s4) as (s5 & Hc & Htr5 & Hf5 & [log5 Ho5] & Htb5 & Hnt5).
      { by eexists. }
      { intros ->. unfold len in Hrest. simpl in Hrest. lia. }
      rewrite (bind_run _ _ _ _ _ Hc).
      assert (Hb5 : bounded t 1001 [Stmt (Some t) (SCreate lines2)]).
      { constructor; [|constructor]. split; [simpl; lia | by eexists]. }
      destruct (default None (head (faults s4))) as [e|].
      * destruct (Rollback_in_tx t s5) as (s6 & Hr & Htr6 & _ & _ & Htb6 & _).
        rewrite (bind_run _ _ _ _ _ Hr).
        exists (Some e), s6, sql,
          (evs1 ++ evs2 ++ [Stmt (Some t) (SCreate lines2); Stmt (Some t) SRollback]).
        split; [done|]. split.
        { rewrite Htr6, Htr5, Htr4, Htr3, Htr2. by rewrite <- !app_assoc. }
        split.
        { apply Forall_app. split; [done|]. apply Forall_app. split; [done|].
          constructor; [by apply Forall_inv in Hb5 | done]. }
        intros _. split; [done|]. intros _. congruence.
      * rewrite (Commit_open t log5 s5 Ho5).
        destruct (default None (head (faults s5))) as [e|].
        -- eexists (Some e), _, sql,
             (evs1 ++ evs2 ++ [Stmt (Some t) (SCreate lines2); Stmt (Some t) SCommit]).
           split; [done|]. split.
           { simpl. rewrite Htr5, Htr4, Htr3, Htr2. by rewrite <- !app_assoc. }
           split.
           { apply Forall_app. split; [done|]. apply Forall_app. split; [done|].
             constructor; [by apply Forall_inv in Hb5 | done]. }
           intros _. split; [done|]. intros _. simpl. congruence.
        -- eexists None, _, sql,
             (evs1 ++ evs2 ++ [Stmt (Some t) (SCreate lines2); Stmt (Some t) SCommit]).
           split; [done|]. split.
           { simpl. rewrite Htr5, Htr4, Htr3, Htr2. by rewrite <- !app_assoc. }
           split.
           { apply Forall_app. split; [done|]. apply Forall_app. split; [done|].
             constructor; [by apply Forall_inv in Hb5 | done]. }
           intros _. split; [|done]. intros _.
           rewrite app_assoc, inserts_app, concat_app. simpl.
           by rewrite app_nil_r.
    + (* the buffer is empty *)
      assert (lines2 = []) as ->.
      { destruct lines2; [done|]. unfold len in Hrest. simpl in Hrest. lia. }
      rewrite app_nil_r in Hall.
      rewrite (Commit_open t log s4 Ho4).
      destruct (default None (head (faults s4))) as [e|].
      * eexists (Some e), _, sql, (evs1 ++ evs2 ++ [Stmt (Some t) SCommit]).
        split; [done|]. split.
        { simpl. rewrite Htr4, Htr3, Htr2. by rewrite <- !app_assoc. }
        split.
        { apply Forall_app. split; [done|]. by apply Forall_app. }
        intros _. split; [done|]. intros _. simpl. congruence.
      * eexists None, _, sql, (evs1 ++ evs2 ++ [Stmt (Some t) SCommit]).
        split; [done|]. split.
        { simpl. rewrite Htr4, Htr3, Htr2. by rewrite <- !app_assoc. }
        split.
        { apply Forall_app. split; [done|]. by apply Forall_app. }
        intros _. split; [|done]. intros _.
        rewrite app_assoc, inserts_app, concat_app. simpl.
        by rewrite app_nil_r.
Qed.

(** C1, on the code.  [savePolicy] begins a transaction and then truncates
    through [db], the handle the transaction was begun on, not through [tx].
    When the first insert fails the transaction is rolled back, and the two
    rows stored before the call are gone all the same. *)
Theorem savePolicy_truncates_outside_transaction :
  let s := exampleStore [None; None; Some "insert failed"] in
  let r := savePolicy exampleAdapter conn exampleModel s in
  table s = [aliceRead; aliceAdmin]
  /\ r.1 = Some "insert failed"
  /\ table r.2 = []
  /\ txs r.2 = ∅
  /\ take 2 (trace r.2)
     = [Stmt None SBegin; Stmt None (SExec (TruncateTable "casbin_rule" false))]
  /\ last (trace r.2) = Some (Stmt (Some 0%nat) SRollback).
Proof. repeat split; by vm_compute. Qed.

(** C8, on the code.  [savePolicy] flushes when [len(lines) > flushEvery]:
    a model of 1001 rules is written by one INSERT of 1001 rows. *)
Theorem savePolicy_flushes_1001_rows :
  let r := savePolicy exampleAdapter conn manyRules (exampleStore []) in
  r.1 = None
  /\ rowsOf <$> trace r.2 = [0; 0; 1001; 0]%nat
  /\ trace r.2 !! 1%nat = Some (Stmt None (SExec (TruncateTable "casbin_rule" false)))
  /\ length (table r.2) = 1001%nat.
Proof. repeat split; by vm_compute. Qed.

(** ** Batch remove *)

(** The loop of [removePolicies] sends one DELETE per rule, in order, and
    goes on whatever each of them returns. *)
Lemma removeEach_trace (a : Adapter) (t : nat) (ptype : string)
    (rules : list (list string)) (s : Store) :
  is_Some (txs s !! t) ->
  exists s',
    removeEach a (mkDB (Some t) None) ptype rules s = (tt, s')
    /\ trace s' = trace s ++ (deleteOf t ptype <$> rules)
    /\ faults s' = drop (length rules) (faults s)
    /\ is_Some (txs s' !! t)
    /\ table s' = table s
    /\ nextTx s' = nextTx s.
Proof.
  revert s. induction rules as [|rule rules IH]; intros s Hopen.
  - exists s. simpl. rewrite app_nil_r, drop_0. done.
  - cbn [removeEach]. rewrite rawDelete_Scoped. unfold Delete, bind.
    destruct (send_in_tx t (SDelete (queryString (savePolicyLine ptype rule)))
                (WDelete (queryString (savePolicyLine ptype rule))) s Hopen)
      as (s1 & -> & Htr & Hf & Ho & Htb & Hnt).
    destruct (IH s1 Ho) as (s' & Hrun & Htr' & Hf' & Ho' & Htb' & Hnt').
    exists s'. split.
    { by destruct (default None (head (faults s))). }
    rewrite Htr', Htr, Hf', Hf, Htb', Htb, Hnt', Hnt.
    split; [by rewrite <- app_assoc|]. split; [|done].
    destruct (faults s); simpl; [by rewrite drop_nil | done].
Qed.

Lemma deleteOf_ruleDelete (t : nat) (ptype : string) (rule : list string) :
  deleteOf t ptype rule = ruleDelete t ptype rule.
Proof. unfold deleteOf, ruleDelete. by rewrite queryString_savePolicyLine. Qed.

(** C6.  [removePolicies] on the pool begins one transaction, sends the
    DELETE of every rule in it, in order, and commits.  The DELETE of a rule
    carries the rule's equality predicate: the type, and every value of the
    rule that is not empty against its column.  What [removePolicies]
    returns is what the commit returns: the outcomes of the DELETEs, entries
    [1] to [length rules] of the failure script, have no part in it. *)
Theorem removePolicies_discards_delete_errors (a : Adapter)
    (sec ptype : string) (rules : list (list string)) (s : Store) :
  default None (head (faults s)) = None ->
  let t := nextTx s in
  let committed := default None (faults s !! S (length rules)) in
  exists s',
    removePolicies a conn sec ptype rules s = (Return committed, s')
    /\ trace s'
       = trace s ++ [Stmt None SBegin] ++ (ruleDelete t ptype <$> rules)
                 ++ [Stmt (Some t) SCommit]
                 ++ match committed with
                    | Some _ => [Stmt (Some t) SRollback]
                    | None => []
                    end.
Proof.
  intros Hbegin t committed.
  unfold removePolicies, gormTransaction. simpl.
  rewrite (bind_run _ _ _ _ _ (Begin_conn s Hbegin)). simpl.
  assert (Hopen : is_Some (txs (begun s) !! t)).
  { simpl. rewrite lookup_insert_eq. by eexists. }
  destruct (removeEach_trace a t ptype rules (begun s) Hopen)
    as (s1 & Hrun & Htr & Hf & [log Ho] & Htb & Hnt).
  rewrite (list_fmap_ext _ _ rules
             (fun _ rule _ => deleteOf_ruleDelete t ptype rule)) in Htr.
  rewrite (bind_run _ _ _ s1 (Return None)).
  2:{ by rewrite (bind_run _ _ _ _ _ Hrun). }
  assert (Hc : default None (head (faults s1)) = committed).
  { unfold committed. rewrite Hf. simpl. rewrite head_lookup, lookup_drop.
    rewrite Nat.add_0_r. destruct (faults s) as [|f fs]; simpl; [|done].
    by destruct (length rules). }
  pose proof (Commit_open t log s1 Ho) as Hcm. rewrite Hc in Hcm.
  clearbody committed. destruct committed as [e|];
    rewrite (bind_run _ _ _ _ _ Hcm).
  - eexists. split; [reflexivity|]. simpl. rewrite Htr. simpl.
    by rewrite <- !app_assoc.
  - eexists. split; [reflexivity|]. simpl. rewrite Htr. simpl.
    by rewrite <- !app_assoc.
Qed.

Lemma removePolicies_discards_delete_errors_witness :
  exists s',
    removePolicies exampleAdapter conn "p" "p"
      [["alice"; "data1"; "read"]; ["bob"]]
      (exampleStore [None; Some "delete failed"; Some "delete failed"])
    = (Return None, s')
    /\ trace s'
       = [Stmt None SBegin;
          Stmt (Some 0%nat)
               (SDelete [Eq Cptype "p"; Eq Cv0 "alice"; Eq Cv1 "data1";
                         Eq Cv2 "read"]);
          Stmt (Some 0%nat) (SDelete [Eq Cptype "p"; Eq Cv0 "bob"]);
          Stmt (Some 0%nat) SCommit].
Proof.
  apply (removePolicies_discards_delete_errors exampleAdapter "p" "p"
           [["alice"; "data1"; "read"]; ["bob"]]
           (exampleStore [None; Some "delete failed"; Some "delete failed"])).
  reflexivity.
Defined.

(** ** The transaction wrapper *)

Section TransactionProperties.

Context {Enforcer : Type}.
Variable SetAdapter : Adapter -> Enforcer -> Enforcer.
Variable LoadPolicyHook : Enforcer -> M (Enforcer * outcome (option error)).

(** Leaving with an error set: roll back, reload, log the reload's error,
    and return the error that was given to [return]. *)
Lemma leave_with_error (t : nat) (e e' : Enforcer) (x : error)
    (p : bool) (result : outcome (option error))
    (reload : option error) (s s' : Store) :
  LoadPolicyHook e (rolledBack t s) = ((e', Return reload), s') ->
  leave Enforcer LoadPolicyHook (mkDB (Some t) None) e (mkFrame p (Some x))
        result s
  = ((e', result), logged reload s').
Proof.
  intros Hhook. unfold leave, deferred. simpl.
  rewrite orb_true_r. unfold Rollback. simpl.
  unfold bind, emit, set_txs, rolledBack in *. simpl in *.
  rewrite <- app_assoc. simpl. rewrite Hhook.
  by destruct reload.
Qed.

Lemma leave_panicking (t : nat) (e e' : Enforcer)
    (result : outcome (option error))
    (reload : option error) (s s' : Store) :
  LoadPolicyHook e (rolledBack t s) = ((e', Return reload), s') ->
  leave Enforcer LoadPolicyHook (mkDB (Some t) None) e (mkFrame true None)
        result s
  = ((e', result), logged reload s').
Proof.
  intros Hhook. unfold leave, deferred. simpl. unfold Rollback. simpl.
  unfold bind, emit, set_txs, rolledBack in *. simpl in *.
  rewrite <- app_assoc. simpl. rewrite Hhook.
  by destruct reload.
Qed.

Lemma leave_clean (tx : DB) (e : Enforcer) (s : Store) :
  leave Enforcer LoadPolicyHook tx e (mkFrame false None) (Return None) s
  = ((e, Return None), s).
Proof. done. Qed.

(** C4.  [Transaction] on an adapter whose handle is the pool, once the
    transaction [t] has begun.  When the callback returns an error, or
    returns [nil] and the commit fails, the transaction is rolled back,
    the reload hook is called once, its error (if any) is logged, and the
    caller receives the callback's error, or the commit's, whatever the
    reload returned.  When both succeed the caller receives [nil] and
    nothing is rolled back or reloaded.  When the callback panics the
    rollback and the reload happen as well and the panic goes on. *)
Theorem Transaction_returns_original_error (a : Adapter) (e : Enforcer)
    (fc : Enforcer -> M (Enforcer * outcome (option error))) (s : Store) :
  db a = conn ->
  default None (head (faults s)) = None ->
  let t := nextTx s in
  let tx := mkDB (Some t) None in
  let b := mkAdapter "" "" "" "" (tableName a) false tx (dialect a) false in
  forall (e1 : Enforcer) (s1 : Store),
    (* the callback returns an error *)
    (forall fe e2 reload s2,
       fc (SetAdapter b e) (begun s) = ((e1, Return (Some fe)), s1) ->
       LoadPolicyHook e1 (rolledBack t s1) = ((e2, Return reload), s2) ->
       Transaction Enforcer SetAdapter LoadPolicyHook a e fc s
       = ((e2, Return (Some fe)), logged reload s2))
    (* the callback returns nil and the commit fails *)
    /\ (forall ce s1' e2 reload s2,
          fc (SetAdapter b e) (begun s) = ((e1, Return None), s1) ->
          Commit tx s1 = (Some ce, s1') ->
          LoadPolicyHook e1 (rolledBack t s1') = ((e2, Return reload), s2) ->
          Transaction Enforcer SetAdapter LoadPolicyHook a e fc s
          = ((e2, Return (Some ce)), logged reload s2))
    (* the callback returns nil and the commit succeeds *)
    /\ (forall s1',
          fc (SetAdapter b e) (begun s) = ((e1, Return None), s1) ->
          Commit tx s1 = (None, s1') ->
          Transaction Enforcer SetAdapter LoadPolicyHook a e fc s
          = ((e1, Return None), s1'))
    (* the callback panics *)
    /\ (forall msg e2 reload s2,
          fc (SetAdapter b e) (begun s) = ((e1, Panicked msg), s1) ->
          LoadPolicyHook e1 (rolledBack t s1) = ((e2, Return reload), s2) ->
          Transaction Enforcer SetAdapter LoadPolicyHook a e fc s
          = ((e2, Panicked msg), logged reload s2)).
Proof.
  intros Hdb Hbegin t tx b e1 s1. unfold Transaction. rewrite Hdb.
  rewrite (bind_run _ _ _ _ _ (Begin_conn s Hbegin)). simpl.
  fold t. fold tx. fold b. split; [|split; [|split]].
  4:{ intros msg e2 reload s2 Hfc Hhook.
      rewrite (bind_run _ _ _ _ _ Hfc).
      by apply leave_panicking. }
  - intros fe e2 reload s2 Hfc Hhook.
    rewrite (bind_run _ _ _ _ _ Hfc).
    by apply leave_with_error.
  - intros ce s1' e2 reload s2 Hfc Hc Hhook.
    rewrite (bind_run _ _ _ _ _ Hfc).
    rewrite (bind_run _ _ _ _ _ Hc).
    by apply leave_with_error.
  - intros s1' Hfc Hc.
    rewrite (bind_run _ _ _ _ _ Hfc).
    by rewrite (bind_run _ _ _ _ _ Hc).
Qed.

End TransactionProperties.

Lemma Transaction_returns_original_error_witness :
  let r := Transaction Adapter exampleSetAdapter failingReload exampleAdapter
             exampleAdapter failingCallback (exampleStore []) in
  r.1.2 = Return (Some "callback failed")
  /\ table r.2 = [aliceRead; aliceAdmin]
  /\ txs r.2 = ∅
  /\ trace r.2
     = [Stmt None SBegin;
        Stmt (Some 0%nat) (SCreate [savePolicyLine "p" ["bob"; "data2"; "write"]]);
        Stmt (Some 0%nat) SRollback;
        Reload;
        Log "reload failed"].
Proof.
  cbv zeta.
  rewrite (proj1 (Transaction_returns_original_error exampleSetAdapter
                    failingReload exampleAdapter exampleAdapter failingCallback
                    (exampleStore []) eq_refl eq_refl _ _)
             "callback failed" _ (Some "reload failed") _ eq_refl eq_refl).
  repeat split; by vm_compute.
Defined.

(** ** The context adapter *)

(** C9 as stated fails: the context was cancelled and holds no handle, the
    [select] takes the [ctx.Done()] case, and [LoadPolicyCtx] returns the
    context's error, not [CtxWithoutDBError]. *)
Lemma LoadPolicyCtx_cancelled_without_db :
  let r := LoadPolicyCtx refHasPolicyEx refLoadPolicyArray true
             exampleContextAdapter cancelledContext exampleModel
             (exampleStore []) in
  getDBByCtx exampleContextAdapter cancelledContext = None
  /\ r.1.2 = Return (Some "context canceled")
  /\ r.1.2 ≠ Return (Some CtxWithoutDBError).
Proof. repeat split; by vm_compute. Qed.

(** C9, amended.  When the context holds no [*gorm.DB] under the adapter's
    key, every context-scoped operation leaves the store, the model and the
    adapter as they were.  Those raced against the context return
    [CtxWithoutDBError], unless the context is done and the [select] takes
    that case: then they return the context's error.  [TransactionCtx] is
    not raced and returns [CtxWithoutDBError]. *)
Theorem ctx_without_db (doneFirst : bool) (ca : ContextAdapter)
    (ctx : Context) (s : Store) :
  getDBByCtx ca ctx = None ->
  (forall HasPolicyEx LoadPolicyArray model,
     LoadPolicyCtx HasPolicyEx LoadPolicyArray doneFirst ca ctx model s
     = ((model, Return (raced doneFirst ctx)), s))
  /\ (forall LoadPolicyArray model filter,
        LoadFilteredPolicyCtx LoadPolicyArray doneFirst ca ctx model filter s
        = ((adapter ca, model, Return (raced doneFirst ctx)), s))
  /\ (forall model,
        SavePolicyCtx doneFirst ca ctx model s
        = ((tt, Return (raced doneFirst ctx)), s))
  /\ (forall sec ptype rule,
        AddPolicyCtx doneFirst ca ctx sec ptype rule s
        = ((tt, Return (raced doneFirst ctx)), s))
  /\ (forall sec ptype rules,
        AddPoliciesCtx doneFirst ca ctx sec ptype rules s
        = ((tt, Return (raced doneFirst ctx)), s))
  /\ (forall sec ptype rule,
        RemovePolicyCtx doneFirst ca ctx sec ptype rule s
        = ((tt, Return (raced doneFirst ctx)), s))
  /\ (forall sec ptype rules,
        RemovePoliciesCtx doneFirst ca ctx sec ptype rules s
        = ((tt, Return (raced doneFirst ctx)), s))
  /\ (forall sec ptype fieldIndex fieldValues,
        RemoveFilteredPolicyCtx doneFirst ca ctx sec ptype fieldIndex
                                fieldValues s
        = ((tt, Return (raced doneFirst ctx)), s))
  /\ (forall sec ptype oldRule newRule,
        UpdatePolicyCtx doneFirst ca ctx sec ptype oldRule newRule s
        = ((tt, Return (raced doneFirst ctx)), s))
  /\ (forall sec ptype oldRules newRules,
        UpdatePoliciesCtx doneFirst ca ctx sec ptype oldRules newRules s
        = ((tt, Return (raced doneFirst ctx)), s))
  /\ (forall sec ptype newRules fieldIndex fieldValues,
        UpdateFilteredPoliciesCtx doneFirst ca ctx sec ptype newRules
                                  fieldIndex fieldValues s
        = (Return (None, raced doneFirst ctx), s))
  /\ (forall (Enforcer : Type) LoadPolicySyncWatcher (e : Enforcer) fc,
        TransactionCtx Enforcer LoadPolicySyncWatcher ca ctx e fc s
        = ((e, Return (Some CtxWithoutDBError)), s)).
Proof.
  intros Hno.
  unfold LoadPolicyCtx, LoadFilteredPolicyCtx, SavePolicyCtx, AddPolicyCtx,
    AddPoliciesCtx, RemovePolicyCtx, RemovePoliciesCtx,
    RemoveFilteredPolicyCtx, UpdatePolicyCtx, UpdatePoliciesCtx,
    UpdateFilteredPoliciesCtx, TransactionCtx, executeWithContext,
    executeWithContextEx, raced.
  rewrite Hno. unfold bind, ret. simpl.
  repeat split; intros; by destruct (ctxErr ctx), doneFirst.
Qed.

Lemma ctx_without_db_witness :
  SavePolicyCtx true exampleContextAdapter cancelledContext exampleModel
                (exampleStore [])
  = ((tt, Return (Some "context canceled")), exampleStore []).
Proof.
  apply (ctx_without_db true exampleContextAdapter cancelledContext
           (exampleStore [])).
  reflexivity.
Defined.

(** ** Full load *)

Lemma swap_rows {A} (xs ys zs : list A) (x y : A) :
  <[length (xs ++ y :: ys) := y]> (<[length xs := x]> (xs ++ y :: ys ++ x :: zs))
  = (xs ++ [x]) ++ (ys ++ [y]) ++ zs.
Proof.
  rewrite (insert_app_r_alt xs _ (length xs)) by lia.
  rewrite Nat.sub_diag. simpl.
  rewrite length_app. simpl.
  rewrite (insert_app_r_alt xs _ (length xs + S (length ys))) by lia.
  replace (length xs + S (length ys) - length xs)%nat with (S (length ys)) by lia.
  simpl. rewrite (insert_app_r_alt ys _ (length ys)) by lia.
  rewrite Nat.sub_diag. simpl.
  by rewrite <- !app_assoc.
Qed.

Section PreviewPartition.

Variable HasPolicyEx :
  Model -> string -> string -> list string -> outcome (bool * option error).
Variable model : Model.

Variable ok : CasbinRule -> bool.

Local Abbreviation answered := (answered HasPolicyEx model ok).

(** One step of the loop on a row the membership test answers for. *)
Lemma PreviewLoop_step (i j : nat) (is_ : list nat)
    (rules : list CasbinRule) (x : CasbinRule) :
  answered x -> rules !! i = Some x ->
  PreviewLoop HasPolicyEx model (i :: is_) rules j
  = if ok x then
      match rules !! j with
      | Some at_j =>
          PreviewLoop HasPolicyEx model is_
                      (<[i := at_j]> (<[j := x]> rules)) (S j)
      | None => (rules, j, Panicked "index out of range")
      end
    else PreviewLoop HasPolicyEx model is_ rules j.
Proof.
  intros [Hp Hx] Hi. cbn [PreviewLoop]. rewrite Hi.
  replace (trimTrailing (columns x)) with (Return (tupleOf x)).
  2:{ symmetry. apply trimTrailing_decodes.
      by apply trimTrailingEmpty_cons_ne. }
  cbv iota beta. rewrite (tupleOf_cons x Hp).
  change (index (Ptype x :: drop 1 (tupleOf x)) 0) with (Some (Ptype x)).
  cbv iota beta.
  rewrite bool_decide_eq_false_2.
  2:{ destruct (Ptype x); [done|]. simpl. lia. }
  change (drop 1 (Ptype x :: drop 1 (tupleOf x))) with (drop 1 (tupleOf x)).
  fold (sec_of (Ptype x)). by rewrite Hx.
Qed.

(** The loop invariant of [Preview]: the array is [front ++ back ++ rest],
    [front] the rows seen so far that the model holds, [back] the rows
    seen so far that it does not, [rest] the rows still to see. *)
Lemma PreviewLoop_partition (rest front back : list CasbinRule) :
  Forall answered rest ->
  exists front' back',
    PreviewLoop HasPolicyEx model
      (seq (length (front ++ back)) (length rest))
      (front ++ back ++ rest) (length front)
    = (front' ++ back', length front', Return None)
    /\ front' ≡ₚ front ++ filter (fun r => ok r = true) rest
    /\ back' ≡ₚ back ++ filter (fun r => ok r = false) rest.
Proof.
  revert front back. induction rest as [|x rest IH]; intros front back Hall.
  - exists front, back. simpl. rewrite !app_nil_r. done.
  - apply Forall_cons in Hall as [Hx Hall].
    assert (Hi : (front ++ back ++ x :: rest) !! length (front ++ back)
                 = Some x).
    { by rewrite app_assoc, list_lookup_middle. }
    cbn [length seq]. destruct (ok x) eqn:Eok.
    + destruct back as [|b back].
      * destruct (IH (front ++ [x]) [] Hall) as (f' & b' & Hrun & Hf & Hb).
        exists f', b'. rewrite (PreviewLoop_step _ _ _ _ x Hx Hi), Eok.
        rewrite app_nil_r in Hi |- *. cbn [app] in Hi |- *. rewrite Hi.
        rewrite (list_insert_id (front ++ x :: rest)) by done.
        rewrite (list_insert_id (front ++ x :: rest)) by done.
        rewrite app_nil_r, length_app in Hrun. simpl in Hrun.
        rewrite Nat.add_1_r in Hrun.
        rewrite <- app_assoc in Hrun. simpl in Hrun.
        split; [done|]. split.
        -- rewrite Hf. rewrite filter_cons_True by done.
           by rewrite <- app_assoc.
        -- rewrite Hb. by rewrite filter_cons_False by (by rewrite Eok).
      * destruct (IH (front ++ [x]) (back ++ [b]) Hall)
          as (f' & b' & Hrun & Hf & Hb).
        exists f', b'. rewrite (PreviewLoop_step _ _ _ _ x Hx Hi), Eok.
        rewrite (lookup_app_r front) by lia. rewrite Nat.sub_diag.
        cbn [lookup list_lookup app].
        change ((b :: back) ++ x :: rest) with (b :: back ++ x :: rest).
        rewrite swap_rows.
        replace (length ((front ++ [x]) ++ back ++ [b]))
          with (S (length (front ++ b :: back))) in Hrun.
        2:{ rewrite ?length_app. simpl. rewrite ?length_app. simpl. lia. }
        replace (length (front ++ [x])) with (S (length front)) in Hrun.
        2:{ rewrite ?length_app. simpl. lia. }
        split; [done|]. split.
        -- rewrite Hf. rewrite filter_cons_True by done.
           by rewrite <- app_assoc.
        -- rewrite Hb. rewrite filter_cons_False by (by rewrite Eok).
           rewrite <- app_assoc. simpl.
           by rewrite <- Permutation_middle.
    + destruct (IH front (back ++ [x]) Hall) as (f' & b' & Hrun & Hf & Hb).
      exists f', b'. rewrite (PreviewLoop_step _ _ _ _ x Hx Hi), Eok.
      replace (length (front ++ back ++ [x]))
        with (S (length (front ++ back))) in Hrun.
      2:{ rewrite ?length_app. simpl. rewrite ?length_app. simpl. lia. }
      rewrite <- !app_assoc in Hrun. simpl in Hrun.
      split; [done|]. split.
      -- rewrite Hf. by rewrite filter_cons_False by (by rewrite Eok).
      -- rewrite Hb. rewrite filter_cons_True by done.
         by rewrite <- app_assoc.
Qed.

(** [Preview] keeps the rows that the model does not hold, all of them
    and only them, in some order. *)
Lemma Preview_discards_known (a : Adapter) (rules : list CasbinRule) :
  Forall answered rules ->
  exists kept,
    Preview HasPolicyEx a rules model = (kept, Return None)
    /\ kept ≡ₚ filter (fun r => ok r = false) rules.
Proof.
  intros Hall.
  destruct (PreviewLoop_partition rules [] [] Hall)
    as (f' & b' & Hrun & Hf & Hb).
  simpl in Hrun, Hf, Hb. unfold Preview. rewrite Hrun.
  exists b'. by rewrite drop_app_length.
Qed.

End PreviewPartition.

Lemma getPolicy_AddPolicy (model : Model) (sec ptype : string)
    (rule : list string) (sec' ptype' : string) :
  getPolicy (AddPolicy model sec ptype rule) sec' ptype'
  = if decide (sec = sec' /\ ptype = ptype')
    then getPolicy model sec ptype ++ [rule]
    else getPolicy model sec' ptype'.
Proof.
  unfold AddPolicy. unfold getPolicy at 1.
  destruct (decide (sec = sec')) as [<-|Hs].
  - rewrite lookup_total_insert_eq.
    destruct (decide (ptype = ptype')) as [<-|Hp].
    + rewrite lookup_insert_eq. simpl. by rewrite decide_True.
    + rewrite lookup_insert_ne by done.
      by rewrite decide_False by (by intros [_ ?]).
  - rewrite lookup_total_insert_ne by done.
    by rewrite decide_False by (by intros [? _]).
Qed.

Lemma hasTuple_addTuple (model : Model) (p p' : list string) :
  p ≠ [] -> p' ≠ [] ->
  hasTuple (addTuple model p) p' = hasTuple model p' || bool_decide (p = p').
Proof.
  destruct p as [|key rule]; [done|]. destruct p' as [|key' rule']; [done|].
  intros _ _. unfold hasTuple, addTuple, hasRule.
  rewrite getPolicy_AddPolicy.
  destruct (decide (sec_of key = sec_of key' /\ key = key')) as [[_ <-]|Hne].
  - rewrite <- bool_decide_or. apply bool_decide_ext.
    rewrite elem_of_app, list_elem_of_singleton.
    split; (intros [?|?]; [by left | right; congruence]).
  - rewrite (bool_decide_eq_false_2 (key :: rule = key' :: rule')).
    + by rewrite orb_false_r.
    + intros [= -> ->]. by apply Hne.
Qed.

(** The rules of a type after a run of [addTuple]: those before, then the
    added ones of that type in order. *)
Lemma getPolicy_foldl_addTuple (ps : list (list string)) (model : Model)
    (sec key : string) :
  getPolicy (foldl addTuple model ps) sec key
  = getPolicy model sec key
    ++ (drop 1 <$> filter (fun p => head p = Some key /\ sec_of key = sec) ps).
Proof.
  revert model. induction ps as [|p ps IH]; intros model.
  - simpl. by rewrite app_nil_r.
  - cbn [foldl]. rewrite IH. destruct p as [|k rule].
    + simpl. by rewrite filter_cons_False by (by intros [? _]).
    + cbn [addTuple]. rewrite getPolicy_AddPolicy.
      destruct (decide (sec_of k = sec /\ k = key)) as [[Hs ->]|Hne].
      * rewrite filter_cons_True by done. rewrite Hs.
        rewrite <- app_assoc. done.
      * rewrite filter_cons_False; [done|].
        intros [[= ->] Hs]. by apply Hne.
Qed.

Lemma hasTuple_foldl_addTuple (ps : list (list string)) (model : Model)
    (p : list string) :
  p ≠ [] -> Forall (fun q => q ≠ []) ps ->
  hasTuple (foldl addTuple model ps) p
  = hasTuple model p || bool_decide (p ∈ ps).
Proof.
  intros Hp. revert model. induction ps as [|q ps IH]; intros model Hps.
  - cbn [foldl]. rewrite bool_decide_eq_false_2 by apply not_elem_of_nil.
    by rewrite orb_false_r.
  - apply Forall_cons in Hps as [Hq Hps]. cbn [foldl].
    rewrite IH, hasTuple_addTuple by done.
    rewrite <- orb_assoc. f_equal. rewrite <- bool_decide_or.
    apply bool_decide_ext. rewrite elem_of_cons.
    split; (intros [?|?]; [left; congruence | by right]).
Qed.

Lemma filter_ext_Forall {A} (P Q : A -> Prop) `{!forall x, Decision (P x)}
    `{!forall x, Decision (Q x)} (l : list A) :
  Forall (fun x => P x <-> Q x) l -> filter P l = filter Q l.
Proof.
  induction 1 as [|x l Hx _ IH]; [done|].
  rewrite !filter_cons, IH.
  destruct (decide (P x)), (decide (Q x)); tauto.
Qed.

Lemma filter_fmap {A B} (f : A -> B) (P : B -> Prop)
    `{!forall x, Decision (P x)} (l : list A) :
  filter P (f <$> l) = f <$> filter (fun x => P (f x)) l.
Proof.
  induction l as [|x l IH]; [done|].
  rewrite fmap_cons, !filter_cons, IH. by destruct (decide (P (f x))).
Qed.

Lemma filter_none {A} (l : list A) : filter (fun _ => False) l = [].
Proof.
  induction l as [|x l IH]; [done|]. rewrite filter_cons_False; [done|tauto].
Qed.

Section LoadProperties.

Variable HasPolicyEx :
  Model -> string -> string -> list string -> outcome (bool * option error).
Variable LoadPolicyArray :
  list string -> Model -> Model * outcome (option error).
Variable model : Model.
Variable lines : list CasbinRule.

(** What is asked of the engine.  Its membership test answers for the
    stored rows, on the model and on the model as rules are added to it;
    and [LoadPolicyArray] adds a rule, of a type that is not empty, that
    the membership test reports absent. *)
Hypothesis membership : forall ps line,
  line ∈ lines ->
  HasPolicyEx (foldl addTuple model ps) (sec_of (Ptype line)) (Ptype line)
              (drop 1 (tupleOf line))
  = Return (hasTuple (foldl addTuple model ps) (tupleOf line), None).
Hypothesis loading : forall m key rule,
  key ≠ "" ->
  HasPolicyEx m (sec_of key) key rule = Return (false, None) ->
  LoadPolicyArray (key :: rule) m
  = (AddPolicy m (sec_of key) key rule, Return None).

(** The stored rows have a type, and no two of them decode to the same
    tuple (the unique index of the table). *)
Hypothesis typed : Forall (fun line => Ptype line ≠ "") lines.
Hypothesis distinct : NoDup (tupleOf <$> lines).

Lemma tupleOf_ne_nil (line : CasbinRule) : line ∈ lines -> tupleOf line ≠ [].
Proof.
  intros Hin. rewrite Forall_forall in typed.
  rewrite tupleOf_cons; [done|]. by apply typed.
Qed.

Lemma loadPolicyLine_adds (ps : list (list string)) (line : CasbinRule) :
  line ∈ lines ->
  hasTuple (foldl addTuple model ps) (tupleOf line) = false ->
  loadPolicyLine LoadPolicyArray line (foldl addTuple model ps)
  = (foldl addTuple model (ps ++ [tupleOf line]), Return None).
Proof.
  intros Hin Habs. unfold loadPolicyLine.
  assert (Hp : Ptype line ≠ "").
  { rewrite Forall_forall in typed. by apply typed. }
  fold (tupleOf line).
  replace (trimTrailing (columns line)) with (Return (tupleOf line)).
  2:{ symmetry. apply trimTrailing_decodes.
      by apply trimTrailingEmpty_cons_ne. }
  rewrite foldl_app. cbn [foldl].
  rewrite (tupleOf_cons line Hp). cbn [addTuple].
  apply loading; [done|]. rewrite membership by done. by rewrite Habs.
Qed.

Lemma loadLines_adds (kept : list CasbinRule) (ps : list (list string)) :
  kept ⊆ lines -> NoDup (tupleOf <$> kept) ->
  Forall (fun r => hasTuple (foldl addTuple model ps) (tupleOf r) = false)
         kept ->
  loadLines LoadPolicyArray kept (foldl addTuple model ps)
  = (foldl addTuple model (ps ++ (tupleOf <$> kept)), Return None).
Proof.
  revert ps. induction kept as [|r kept IH]; intros ps Hsub Hnd Habs.
  - simpl. by rewrite app_nil_r.
  - apply Forall_cons in Habs as [Hr Habs].
    rewrite fmap_cons in Hnd. apply NoDup_cons in Hnd as [Hnotin Hnd].
    assert (Hin : r ∈ lines) by (apply Hsub; left).
    cbn [loadLines]. rewrite loadPolicyLine_adds by done.
    rewrite IH.
    + by rewrite <- app_assoc.
    + intros x Hx. apply Hsub. by right.
    + done.
    + rewrite Forall_forall in Habs |- *. intros x Hx.
      rewrite foldl_app. cbn [foldl].
      rewrite hasTuple_addTuple.
      * rewrite Habs by done. simpl. apply bool_decide_eq_false_2.
        intros Heq. apply Hnotin. rewrite Heq.
        apply list_elem_of_fmap. by exists x.
      * by apply tupleOf_ne_nil.
      * apply tupleOf_ne_nil. apply Hsub. by right.
Qed.

(** C5, amended.  The rows found are [lines]; each of them has a type, they
    decode to distinct tuples, the engine's membership test answers on
    them, and its [LoadPolicyArray] adds a rule that the test reports
    absent.  [Preview] keeps exactly the rows
    whose tuple the model does not hold.  [loadPolicy] then returns no
    error, and under every type the model holds what it held before
    followed by the tuples of the stored rows of that type that it did not
    hold: nothing it held is added again, everything it lacked is added.
    Loading the same rows once more changes nothing. *)
Theorem loadPolicy_idempotent (a : Adapter) (db : DB) (s s' : Store) :
  Find db [] true s = ((lines, None), s') ->
  exists kept model',
    Preview HasPolicyEx a lines model = (kept, Return None)
    /\ kept ≡ₚ filter (fun r => hasTuple model (tupleOf r) = false) lines
    /\ loadPolicy HasPolicyEx LoadPolicyArray a db model s
       = ((model', Return None), s')
    /\ (forall sec key,
          getPolicy model' sec key
          ≡ₚ getPolicy model sec key
             ++ ((fun r => drop 1 (tupleOf r))
                 <$> filter (fun r => Ptype r = key /\ sec_of key = sec
                                      /\ hasTuple model (tupleOf r) = false)
                            lines))
    /\ (forall s2 s2',
          Find db [] true s2 = ((lines, None), s2') ->
          loadPolicy HasPolicyEx LoadPolicyArray a db model' s2
          = ((model', Return None), s2')).
Proof.
  intros Hfind.
  destruct (Preview_discards_known HasPolicyEx model
              (fun r => hasTuple model (tupleOf r)) a lines)
    as (kept & Hprev & Hkept).
  { rewrite Forall_forall in typed |- *. intros r Hr. split; [by apply typed|].
    by apply (membership []). }
  assert (Hsub : kept ⊆ lines).
  { intros x Hx. rewrite Hkept in Hx. by apply list_elem_of_filter in Hx as [_ ?]. }
  assert (Hload : loadLines LoadPolicyArray kept model
                  = (foldl addTuple model (tupleOf <$> kept), Return None)).
  { apply (loadLines_adds kept []); [done| |].
    - rewrite Hkept. apply NoDup_fmap_2_strong.
      + intros x y Hx Hy Heq.
        apply list_elem_of_filter in Hx as [_ Hx].
        apply list_elem_of_filter in Hy as [_ Hy].
        apply list_elem_of_lookup in Hx as [i Hi].
        apply list_elem_of_lookup in Hy as [j Hj].
        assert (i = j) as ->.
        { eapply NoDup_lookup; [exact distinct| |];
            rewrite list_lookup_fmap; [by rewrite Hi | by rewrite Hj, Heq]. }
        congruence.
      + apply NoDup_filter. eapply NoDup_fmap_1. exact distinct.
    - rewrite Forall_forall. intros x Hx. rewrite Hkept in Hx.
      by apply list_elem_of_filter in Hx as [? _]. }
  set (model' := foldl addTuple model (tupleOf <$> kept)).
  exists kept, model'. split; [done|]. split; [done|].
  split; [|split].
  - unfold loadPolicy. rewrite (bind_run _ _ _ _ _ Hfind).
    rewrite Hprev. unfold ret. by rewrite Hload.
  - intros sec key. unfold model'. rewrite getPolicy_foldl_addTuple.
    apply Permutation_app_head.
    rewrite filter_fmap, <- list_fmap_compose.
    rewrite Hkept, list_filter_filter. unfold compose.
    erewrite filter_ext_Forall; [reflexivity|].
    rewrite Forall_forall in typed |- *.
    intros r Hr. rewrite (tupleOf_cons r) by (by apply typed).
    simpl. split.
    + by intros [[[= <-] Hs] Habs].
    + by intros (<- & Hs & Habs).
  - intros s2 s2' Hfind2.
    destruct (Preview_discards_known HasPolicyEx model'
                (fun r => hasTuple model' (tupleOf r)) a lines)
      as (kept2 & Hprev2 & Hkept2).
    { rewrite Forall_forall in typed |- *. intros r Hr.
      split; [by apply typed|]. by apply membership. }
    assert (kept2 = []) as ->.
    { apply Permutation_nil_r. rewrite Hkept2.
      rewrite (filter_ext_Forall _ (fun _ => False)).
      - by rewrite filter_none.
      - rewrite Forall_forall. intros r Hr. split; [|done].
        unfold model'. rewrite hasTuple_foldl_addTuple.
        + destruct (hasTuple model (tupleOf r)) eqn:Eh; [done|].
          simpl. rewrite bool_decide_eq_true_2; [done|].
          apply list_elem_of_fmap. exists r. split; [done|].
          rewrite Hkept. by apply list_elem_of_filter.
        + by apply tupleOf_ne_nil.
        + rewrite Forall_forall. intros q Hq.
          apply list_elem_of_fmap in Hq as (x & -> & Hx).
          apply tupleOf_ne_nil. by apply Hsub. }
    unfold loadPolicy. rewrite (bind_run _ _ _ _ _ Hfind2).
    by rewrite Hprev2.
Qed.

End LoadProperties.

(** C5 as stated fails on a table that holds a row without a type: the
    model lacks the rule of the first stored row, and [loadPolicy] panics
    in [Preview] and leaves the model as it was, so the rule is not added. *)
Lemma loadPolicy_untyped_row_adds_nothing :
  let r := (loadPolicy refHasPolicyEx refLoadPolicyArray exampleAdapter conn
                       exampleModel brokenStore).1 in
  table brokenStore = [aliceRead; untypedRow]
  /\ hasTuple exampleModel (tupleOf aliceRead) = false
  /\ r.2 = Panicked "slice bounds out of range"
  /\ r.1 = exampleModel
  /\ getPolicy r.1 "p" "p" = [["bob"; "data2"; "write"]].
Proof. repeat split; by vm_compute. Qed.

Lemma loadPolicy_idempotent_witness :
  exists model',
    (loadPolicy refHasPolicyEx refLoadPolicyArray exampleAdapter conn
                exampleModel threeRows).1 = (model', Return None)
    /\ getPolicy model' "p" "p"
       ≡ₚ [["bob"; "data2"; "write"]; ["alice"; "data1"; "read"]]
    /\ getPolicy model' "g" "g" ≡ₚ [["bob"; "admin"]; ["alice"; "admin"]].
Proof.
  destruct (loadPolicy_idempotent refHasPolicyEx refLoadPolicyArray
              exampleModel [aliceRead; aliceAdmin; bobWrite])
    with (a := exampleAdapter) (db := conn) (s := threeRows)
         (s' := stepped (Stmt None (SFind [] true)) threeRows)
    as (kept & model' & _ & _ & Hload & Hpol & _).
  - intros ps line Hin.
    repeat (apply elem_of_cons in Hin as [->|Hin]); try reflexivity.
    by apply elem_of_nil in Hin.
  - intros m key rule Hkey Hhas. unfold refHasPolicyEx in Hhas.
    injection Hhas as Hhas. unfold refLoadPolicyArray.
    rewrite bool_decide_eq_false_2 by done. by rewrite Hhas.
  - repeat constructor; discriminate.
  - apply (bool_decide_unpack (NoDup (tupleOf <$> [aliceRead; aliceAdmin; bobWrite]))).
    by vm_compute.
  - reflexivity.
  - exists model'. split; [by rewrite Hload|].
    split; rewrite Hpol; reflexivity.
Defined.

(** * Further properties *)

(** ** The rule codec, further *)

(** X1.  [savePolicyLine] reads the first eight values of a rule and drops
    the rest without an error; decoding the row gives the type and those
    eight values without their trailing empty strings. *)
Theorem savePolicyLine_drops_beyond_eight (ptype : string)
    (rule : list string) :
  ptype ≠ "" ->
  savePolicyLine ptype rule = savePolicyLine ptype (take 8 rule)
  /\ rowToRule (savePolicyLine ptype rule)
     = Return (trimTrailingEmpty (ptype :: take 8 rule)).
Proof.
  intros Hp. split; [apply savePolicyLine_take|].
  rewrite savePolicyLine_take. unfold rowToRule.
  rewrite columns_savePolicyLine by (rewrite length_take; lia).
  rewrite app_comm_cons, trimTrailing_decodes;
    rewrite trimTrailingEmpty_app_replicate; [done|].
  by apply trimTrailingEmpty_cons_ne.
Qed.

Lemma savePolicyLine_drops_beyond_eight_witness :
  rowToRule (savePolicyLine "p" ["a"; "b"; "c"; "d"; "e"; "f"; "g"; ""; "i"; "j"])
  = Return ["p"; "a"; "b"; "c"; "d"; "e"; "f"; "g"].
Proof.
  refine (proj2 (savePolicyLine_drops_beyond_eight "p"
                   ["a"; "b"; "c"; "d"; "e"; "f"; "g"; ""; "i"; "j"] _)).
  discriminate.
Defined.

(** What [rowToRule] returns is the trimmed columns. *)
Lemma rowToRule_Return (line : CasbinRule) (p : list string) :
  rowToRule line = Return p -> p = tupleOf line /\ p ≠ [].
Proof.
  unfold rowToRule, tupleOf. intros H.
  destruct (decide (trimTrailingEmpty (columns line) = [])) as [He|Hne].
  - by rewrite trimTrailing_panics in H.
  - rewrite trimTrailing_decodes in H by done. by injection H as <-.
Qed.

Lemma trimTrailingEmpty_last (t : list string) :
  trimTrailingEmpty t ≠ [] ->
  exists a x, trimTrailingEmpty t = a ++ [x] /\ x ≠ "".
Proof.
  intros H. by destruct (trimTrailingEmpty_split t) as (k & _ & [?|?]).
Qed.

Lemma trimTrailingEmpty_length (t : list string) :
  (length (trimTrailingEmpty t) <= length t)%nat.
Proof.
  destruct (trimTrailingEmpty_split t) as (k & Heq & _).
  rewrite Heq at 2. rewrite length_app. lia.
Qed.

Lemma columns_eraseID (line : CasbinRule) :
  columns (eraseID line) = columns line.
Proof. done. Qed.

Lemma eraseID_columns (l1 l2 : CasbinRule) :
  columns l1 = columns l2 -> eraseID l1 = eraseID l2.
Proof.
  destruct l1, l2. unfold columns, eraseID. simpl. by intros [= -> -> -> -> -> -> -> -> ->].
Qed.

Lemma ID_savePolicyLine (ptype : string) (rule : list string) :
  ID (savePolicyLine ptype rule) = 0%N.
Proof.
  unfold savePolicyLine.
  repeat (match goal with
          | |- context [bool_decide ?P] => destruct (bool_decide P)
          end); reflexivity.
Qed.

Lemma eraseID_without_id (r : CasbinRule) : ID r = 0%N -> eraseID r = r.
Proof. destruct r. simpl. by intros ->. Qed.

Lemma eraseID_savePolicyLine (ptype : string) (rule : list string) :
  eraseID (savePolicyLine ptype rule) = savePolicyLine ptype rule.
Proof. apply eraseID_without_id, ID_savePolicyLine. Qed.

(** X2.  Whatever [rowToRule] returns has between one and nine entries,
    starts with the row's type and does not end in an empty string; encoding
    it again gives the row back, its [id] aside.  So two rows that decode to
    the same tuple differ in their [id] at most. *)
Theorem rowToRule_canonical (line : CasbinRule) (p : list string) :
  rowToRule line = Return p ->
  (exists a x, p = a ++ [x] /\ x ≠ "")
  /\ 1 <= len p <= 9
  /\ index p 0 = Some (Ptype line)
  /\ savePolicyLine (Ptype line) (drop 1 p) = eraseID line
  /\ (forall line', rowToRule line' = Return p -> eraseID line' = eraseID line).
Proof.
  intros H. apply rowToRule_Return in H as [-> Hne]. unfold tupleOf in *.
  assert (Hlen : (length (trimTrailingEmpty (columns line)) <= 9)%nat).
  { apply (trimTrailingEmpty_length (columns line)). }
  destruct (trimTrailingEmpty_split (columns line)) as (k & Heq & _).
  assert (Hcols : forall l, trimTrailingEmpty (columns l)
                            = trimTrailingEmpty (columns line) ->
                            columns l = columns line).
  { intros l Hl. destruct (trimTrailingEmpty_split (columns l)) as (k' & Heq' & _).
    rewrite Heq, Heq', Hl. f_equal. f_equal.
    apply (f_equal length) in Heq, Heq'.
    rewrite length_app, length_replicate in Heq, Heq'.
    rewrite Hl in Heq'. simpl in Heq, Heq'. lia. }
  split; [by apply trimTrailingEmpty_last|].
  destruct (trimTrailingEmpty (columns line)) as [|y r] eqn:E; [done|].
  assert (y = Ptype line) as -> by (by injection Heq as -> _).
  split; [unfold len; simpl in *; lia|]. split; [done|]. split.
  - rewrite <- eraseID_savePolicyLine.
    apply eraseID_columns. change (drop 1 (Ptype line :: r)) with r.
    simpl in Hlen. rewrite columns_savePolicyLine by lia.
    rewrite Heq. rewrite <- app_comm_cons. f_equal. f_equal. f_equal.
    apply (f_equal length) in Heq. rewrite length_app, length_replicate in Heq.
    simpl in Heq. lia.
  - intros line' H'. apply rowToRule_Return in H' as [H' _].
    apply eraseID_columns, Hcols. by unfold tupleOf in H'.
Qed.

Lemma rowToRule_canonical_witness :
  savePolicyLine "p" (drop 1 ["p"; "alice"; "data1"; "read"]) = eraseID aliceRead.
Proof.
  refine (proj1 (proj2 (proj2 (proj2
            (rowToRule_canonical aliceRead ["p"; "alice"; "data1"; "read"] _))))).
  reflexivity.
Defined.

(** X3.  [toStringPolicy] keeps the columns that are not empty.  On a row
    that [rowToRule] decodes it returns the decoded tuple exactly when no
    entry of that tuple is empty; an empty column between two values is left
    out and the later values move up. *)
Theorem toStringPolicy_skips_empty (line : CasbinRule) (p : list string) :
  rowToRule line = Return p ->
  toStringPolicy line = filter (fun x => x ≠ "") p
  /\ (toStringPolicy line = p <-> "" ∉ p).
Proof.
  intros H. apply rowToRule_Return in H as [-> _]. unfold tupleOf, toStringPolicy.
  assert (Hf : filter (fun x : string => x ≠ "") (columns line)
               = filter (fun x => x ≠ "") (trimTrailingEmpty (columns line))).
  { destruct (trimTrailingEmpty_split (columns line)) as (k & Heq & _).
    rewrite Heq at 1. rewrite filter_app.
    replace (filter _ (replicate k "")) with (@nil string);
      [by rewrite app_nil_r|].
    clear. induction k as [|k IH]; [done|]. simpl.
    by rewrite filter_cons_False by (by intros ?). }
  split; [done|]. rewrite Hf.
  generalize (trimTrailingEmpty (columns line)). intros l. split.
  - intros Heq Hin. rewrite <- Heq in Hin.
    by apply list_elem_of_filter in Hin as [? _].
  - intros Hnot. induction l as [|x l IH]; [done|].
    apply not_elem_of_cons in Hnot as [Hx Hl].
    rewrite filter_cons_True by done. by rewrite IH.
Qed.

Lemma toStringPolicy_skips_empty_witness :
  toStringPolicy (mkRule 5 "p" "alice" "" "read" "" "" "" "" "")
  = filter (fun x => x ≠ "") ["p"; "alice"; ""; "read"].
Proof.
  refine (proj1 (toStringPolicy_skips_empty
                   (mkRule 5 "p" "alice" "" "read" "" "" "" "" "")
                   ["p"; "alice"; ""; "read"] _)).
  reflexivity.
Defined.

(** ** Single-rule insert and delete *)

Lemma filter_all {A} (P : A -> Prop) `{!forall x, Decision (P x)} (l : list A) :
  Forall P l -> filter P l = l.
Proof.
  induction 1 as [|x l Hx _ IH]; [done|].
  by rewrite filter_cons_True, IH by done.
Qed.

Lemma matches_app (q1 q2 : cond) (r : CasbinRule) :
  matches (q1 ++ q2) r = matches q1 r && matches q2 r.
Proof. apply forallb_app. Qed.

Lemma matches_andEq (c : column) (v : string) (q : cond) (r : CasbinRule) :
  matches (andEq c v q) r
  = matches q r && (bool_decide (v = "") || bool_decide (cell c r = v)).
Proof.
  unfold andEq. case_bool_decide as H.
  - rewrite matches_app. simpl. rewrite andb_true_r.
    by rewrite (bool_decide_eq_false_2 (v = "")) by done.
  - rewrite (bool_decide_eq_true_2 (v = "")) by done.
    simpl. by rewrite andb_true_r.
Qed.

Lemma matches_queryString (line r : CasbinRule) :
  matches (queryString line) r = true <-> agrees line r.
Proof.
  unfold queryString. rewrite !matches_andEq. unfold agrees, valueColumns.
  rewrite !Forall_cons, Forall_nil. cbn [matches forallb holds cell].
  rewrite !andb_true_iff, !orb_true_iff, !bool_decide_eq_true. tauto.
Qed.

(** X4.  The WHERE clause that [queryString], [appendWhere] and
    [rawDelete] build selects the rows that have the type of the line and,
    in every value column where the line is not empty, the value of the
    line; an empty column of the line constrains nothing. *)
Theorem queryString_selects_agreeing (line r : CasbinRule) :
  (matches (queryString line) r = true <-> agrees line r)
  /\ (matches (appendWhere line) r = true <-> agrees line r).
Proof. split; apply matches_queryString. Qed.

Lemma filter_not_matches_queryString (line : CasbinRule)
    (rows : list CasbinRule) :
  filter (fun r => matches (queryString line) r = false) rows
  = filter (fun r => ~ agrees line r) rows.
Proof.
  apply list_filter_iff. intros r. rewrite <- matches_queryString.
  by destruct (matches (queryString line) r).
Qed.

Lemma filter_matches_queryString (line : CasbinRule)
    (rows : list CasbinRule) :
  filter (fun r => matches (queryString line) r = true) rows
  = filter (agrees line) rows.
Proof. apply list_filter_iff. intros r. apply matches_queryString. Qed.

(** [rawDelete] on a handle whose next statement succeeds. *)
Lemma rawDelete_live (a : Adapter) (db : DB) (line : CasbinRule) (s : Store) :
  live db s = true ->
  rawDelete a db Scoped line s
  = (None, written db (WDelete (queryString line))
             (stepped (Stmt (txid db) (SDelete (queryString line))) s)).
Proof.
  intros H. rewrite rawDelete_Scoped. unfold Delete. by rewrite send_live.
Qed.

(** [rawDelete] without the scope, on a handle whose next statement
    succeeds: the DELETE names [casbin_rule]. *)
Lemma rawDelete_unscoped_same (a : Adapter) (db : DB) (line : CasbinRule)
    (s : Store) :
  getFullTableName a = TableName -> live db s = true ->
  rawDelete a db Unscoped line s
  = (None, written db (WDelete (queryString line))
             (stepped (Stmt (txid db) (SDelete (queryString line))) s)).
Proof.
  intros Hn H. unfold rawDelete, named.
  rewrite bool_decide_eq_true_2 by done. unfold Delete. by rewrite send_live.
Qed.

Lemma rawDelete_unscoped_other (a : Adapter) (db : DB) (line : CasbinRule)
    (s : Store) :
  getFullTableName a ≠ TableName -> live db s = true ->
  rawDelete a db Unscoped line s
  = (None, stepped (Stmt (txid db) (SDeleteFrom TableName (queryString line)))
                   s).
Proof.
  intros Hn H. unfold rawDelete, named.
  rewrite bool_decide_eq_false_2 by done. by rewrite send_live_none.
Qed.

Lemma trace_written (db : DB) (w : write) (s : Store) :
  trace (written db w s) = trace s.
Proof. unfold written. by destruct (txid db). Qed.

Lemma faults_written (db : DB) (w : write) (s : Store) :
  faults (written db w s) = faults s.
Proof. unfold written. by destruct (txid db). Qed.

Lemma nextID_written (db : DB) (w : write) (s : Store) :
  nextID (written db w s) = nextID s.
Proof. unfold written. by destruct (txid db). Qed.

(** A successful write leaves the handle live when the failure script lets
    the statement after it through. *)
Lemma live_written (db : DB) (w : write) (e : event) (s : Store) :
  live db s = true -> default None (faults s !! 1%nat) = None ->
  live db (written db w (stepped e s)) = true.
Proof.
  unfold live. intros H Hf. apply andb_prop in H as [H _].
  apply andb_prop in H as [-> Ht]. rewrite faults_written. simpl.
  apply andb_true_intro. split.
  - unfold written. destruct (txid db) as [t|]; [|done]. simpl.
    apply bool_decide_eq_true_2. rewrite lookup_insert_eq. by eexists.
  - destruct (faults s) as [|f [|[x|] fs]]; simpl in *; done.
Qed.

(** X5.  [removePolicy] hands [rawDelete] the handle as it got it, without
    the scope of the adapter's table, so its one DELETE names the table of
    [CasbinRule], [casbin_rule]; the predicate is the equality predicate of
    the rule.  When [casbin_rule] is the adapter's table and the DELETE
    succeeds, the rows the handle sees afterwards are the rows that do not
    agree with the encoded rule, in their order: a rule with an empty
    value, or with fewer values than the stored rows have, removes every row
    that agrees on the rest.  When the adapter's table has another name, its
    rows are as they were. *)
Theorem removePolicy_deletes_agreeing (a : Adapter) (db : DB)
    (sec ptype : string) (rule : list string) (s : Store) :
  live db s = true ->
  exists s',
    removePolicy a db sec ptype rule s = (None, s')
    /\ (getFullTableName a = TableName ->
        view db s'
        = filter (fun r => ~ agrees (savePolicyLine ptype rule) r) (view db s)
        /\ trace s'
           = trace s ++ [Stmt (txid db)
                           (SDelete (equalityPredicate ptype rule))])
    /\ (getFullTableName a ≠ TableName ->
        view db s' = view db s
        /\ trace s'
           = trace s ++ [Stmt (txid db)
                           (SDeleteFrom "casbin_rule"
                              (equalityPredicate ptype rule))]).
Proof.
  intros Hlive. unfold removePolicy.
  destruct (decide (getFullTableName a = TableName)) as [Hn|Hn].
  - rewrite rawDelete_unscoped_same by done.
    eexists. split; [reflexivity|]. split; [|done]. intros _. split.
    + rewrite view_written by (by apply live_open in Hlive).
      rewrite view_stepped. apply filter_not_matches_queryString.
    + by rewrite trace_written, queryString_savePolicyLine.
  - rewrite rawDelete_unscoped_other by done.
    eexists. split; [reflexivity|]. split; [done|]. intros _. split.
    + by rewrite view_stepped.
    + by rewrite queryString_savePolicyLine.
Qed.

Lemma removePolicy_deletes_agreeing_witness :
  (exists s',
     removePolicy exampleAdapter conn "p" "p" [""; ""; "read"] threeRows
     = (None, s')
     /\ view conn s' = [aliceAdmin; bobWrite]
     /\ trace s'
        = [Stmt None (SDelete [Eq Cptype "p"; Eq Cv2 "read"])])
  /\ (exists s',
        removePolicy prefixedAdapter conn "p" "p" [""; ""; "read"] threeRows
        = (None, s')
        /\ view conn s' = [aliceRead; aliceAdmin; bobWrite]
        /\ trace s'
           = [Stmt None (SDeleteFrom "casbin_rule"
                           [Eq Cptype "p"; Eq Cv2 "read"])]).
Proof.
  split.
  - destruct (removePolicy_deletes_agreeing exampleAdapter conn "p" "p"
                [""; ""; "read"] threeRows) as (s' & H1 & H2 & _);
      [reflexivity|].
    destruct H2 as [H2 H3]; [reflexivity|].
    exists s'. split; [exact H1|]. rewrite H2, H3. split; reflexivity.
  - destruct (removePolicy_deletes_agreeing prefixedAdapter conn "p" "p"
                [""; ""; "read"] threeRows) as (s' & H1 & _ & H2);
      [reflexivity|].
    destruct H2 as [H2 H3]; [discriminate|].
    exists s'. split; [exact H1|]. rewrite H2, H3. split; reflexivity.
Defined.

(** [Create] on a handle whose next statement succeeds. *)
Lemma Create_live (db : DB) (lines : list CasbinRule) (s : Store) :
  live db s = true -> lines ≠ [] ->
  exists s',
    Create db lines s = (None, s')
    /\ view db s' = view db s ++ (assignIDs (nextID s) lines).1
    /\ nextID s' = (assignIDs (nextID s) lines).2
    /\ trace s' = trace s ++ [Stmt (txid db) (SCreate lines)]
    /\ faults s' = tail (faults s)
    /\ (default None (faults s !! 1%nat) = None -> live db s' = true).
Proof.
  intros Hlive Hne. pose proof Hlive as Hl. unfold live in Hl.
  apply andb_prop in Hl as [Hl _]. apply andb_prop in Hl as [He _].
  apply bool_decide_eq_true_1 in He.
  unfold Create. rewrite He. rewrite bool_decide_eq_false_2 by done.
  destruct (assignIDs (nextID s) lines) as [lines' n'] eqn:E.
  rewrite send_live by done. eexists. split; [reflexivity|].
  set (s1 := written db _ _).
  assert (Hv : view db (mkStore (table s1) (txs s1) (nextTx s1) n' (faults s1)
                                (trace s1)) = view db s1) by done.
  rewrite Hv. unfold s1. rewrite view_written by (by apply live_open in Hlive).
  rewrite view_stepped. simpl. rewrite trace_written, faults_written. simpl.
  repeat split; try done.
  intros Hf. pose proof (live_written db (WCreate lines')
                           (Stmt (txid db) (SCreate lines)) s Hlive Hf) as H.
  unfold live in *. simpl. by rewrite faults_written in *.
Qed.

Lemma agrees_assigned (line : CasbinRule) (n : N) :
  agrees line (mkRule n (Ptype line) (V0 line) (V1 line) (V2 line) (V3 line)
                      (V4 line) (V5 line) (V6 line) (V7 line)).
Proof.
  unfold agrees, valueColumns. split; [done|].
  rewrite !Forall_cons, Forall_nil. simpl. tauto.
Qed.

Lemma assignIDs_savePolicyLine (n : N) (ptype : string) (rule : list string) :
  exists r, (assignIDs n [savePolicyLine ptype rule]).1 = [r]
            /\ agrees (savePolicyLine ptype rule) r
            /\ eraseID r = savePolicyLine ptype rule
            /\ ID r = n.
Proof.
  assert (H0 : ID (savePolicyLine ptype rule) = 0%N).
  { by rewrite <- eraseID_savePolicyLine. }
  cbn [assignIDs]. rewrite bool_decide_eq_true_2 by done. simpl.
  eexists. split; [reflexivity|]. split; [apply agrees_assigned|].
  split; [|done]. rewrite <- (eraseID_savePolicyLine ptype rule) at 10.
  done.
Qed.

(** X6.  [addPolicy] followed by [removePolicy] of the same rule, both
    succeeding.  [addPolicy] inserts into the adapter's table, [removePolicy]
    deletes from [casbin_rule].  When that is the adapter's table, the handle
    then sees its earlier rows without those that agree with the rule, the
    row just added being among the removed ones; when no earlier row agreed
    with the rule, the rows are exactly as before.  When the adapter's table
    has another name, the added row stays. *)
Theorem addPolicy_then_removePolicy (a : Adapter) (db : DB)
    (sec ptype : string) (rule : list string) (s : Store) :
  live db s = true -> default None (faults s !! 1%nat) = None ->
  exists s1 s2 row,
    addPolicy a db sec ptype rule s = (None, s1)
    /\ removePolicy a db sec ptype rule s1 = (None, s2)
    /\ view db s1 = view db s ++ [row]
    /\ eraseID row = savePolicyLine ptype rule
    /\ (getFullTableName a = TableName ->
        view db s2
        = filter (fun r => ~ agrees (savePolicyLine ptype rule) r) (view db s)
        /\ (Forall (fun r => ~ agrees (savePolicyLine ptype rule) r)
                   (view db s) ->
            view db s2 = view db s))
    /\ (getFullTableName a ≠ TableName -> view db s2 = view db s ++ [row]).
Proof.
  intros Hlive Hf. unfold addPolicy.
  destruct (Create_live db [savePolicyLine ptype rule] s Hlive ltac:(done))
    as (s1 & Hc & Hv & _ & _ & _ & Hl1). specialize (Hl1 Hf).
  destruct (assignIDs_savePolicyLine (nextID s) ptype rule)
    as (r & Hr & Hag & Her & _). rewrite Hr in Hv.
  unfold removePolicy. exists s1.
  destruct (decide (getFullTableName a = TableName)) as [Hn|Hn].
  - eexists. exists r. split; [exact Hc|].
    split; [by rewrite rawDelete_unscoped_same|].
    split; [exact Hv|]. split; [exact Her|]. split; [|done]. intros _.
    assert (Hv2 : view db (written db
                    (WDelete (queryString (savePolicyLine ptype rule)))
                    (stepped (Stmt (txid db)
                       (SDelete (queryString (savePolicyLine ptype rule))))
                       s1))
                  = filter (fun r => ~ agrees (savePolicyLine ptype rule) r)
                           (view db s)).
    { rewrite view_written by (by apply live_open in Hl1).
      rewrite view_stepped, Hv. simpl. rewrite filter_not_matches_queryString.
      rewrite filter_app, filter_cons_False by (by intros H; apply H).
      by rewrite filter_nil, app_nil_r. }
    split; [exact Hv2|].
    intros Hall. rewrite Hv2. by apply filter_all.
  - eexists. exists r. split; [exact Hc|].
    split; [by rewrite rawDelete_unscoped_other|].
    split; [exact Hv|]. split; [exact Her|]. split; [done|]. intros _.
    by rewrite view_stepped.
Qed.

Lemma addPolicy_then_removePolicy_witness :
  (exists s1 s2,
     addPolicy exampleAdapter conn "p" "p" ["carol"; "data3"; "read"]
               (exampleStore []) = (None, s1)
     /\ removePolicy exampleAdapter conn "p" "p" ["carol"; "data3"; "read"] s1
        = (None, s2)
     /\ view conn s2 = [aliceRead; aliceAdmin])
  /\ (exists s1 s2 row,
        addPolicy prefixedAdapter conn "p" "p" ["carol"; "data3"; "read"]
                  (exampleStore []) = (None, s1)
        /\ removePolicy prefixedAdapter conn "p" "p"
                        ["carol"; "data3"; "read"] s1 = (None, s2)
        /\ eraseID row = savePolicyLine "p" ["carol"; "data3"; "read"]
        /\ view conn s2 = [aliceRead; aliceAdmin; row]).
Proof.
  split.
  - destruct (addPolicy_then_removePolicy exampleAdapter conn "p" "p"
                ["carol"; "data3"; "read"] (exampleStore []))
      as (s1 & s2 & row & H1 & H2 & _ & _ & H3 & _);
      [reflexivity|reflexivity|].
    destruct H3 as [H3 _]; [reflexivity|].
    exists s1, s2. split; [exact H1|]. split; [exact H2|].
    rewrite H3. reflexivity.
  - destruct (addPolicy_then_removePolicy prefixedAdapter conn "p" "p"
                ["carol"; "data3"; "read"] (exampleStore []))
      as (s1 & s2 & row & H1 & H2 & _ & H3 & _ & H4);
      [reflexivity|reflexivity|].
    exists s1, s2, row. split; [exact H1|]. split; [exact H2|].
    split; [exact H3|]. rewrite H4 by discriminate. reflexivity.
Defined.

(** ** The window of the filtered operations *)

Lemma Ptype_windowLine (fieldIndex : Z) (fieldValues : list string)
    (line : CasbinRule) :
  Ptype (windowLine fieldIndex fieldValues line) = Ptype line.
Proof.
  unfold windowLine, window.
  repeat (match goal with
          | |- context [if ?c then _ else _] => destruct c
          end; try reflexivity).
Qed.

Lemma cell_windowLine (k : nat) (c : column) (fieldIndex : Z)
    (fieldValues : list string) (line : CasbinRule) :
  valueColumns !! k = Some c ->
  cell c (windowLine fieldIndex fieldValues line)
  = if bool_decide (fieldIndex <= Z.of_nat k)
       && bool_decide (Z.of_nat k < fieldIndex + len fieldValues)
    then default "" (index fieldValues (Z.of_nat k - fieldIndex))
    else cell c line.
Proof.
  intros Hk. unfold windowLine, window.
  do 8 (destruct k as [|k]; [injection Hk as <-;
    repeat (match goal with
            | |- context [Z.of_nat ?n] =>
                let z := eval vm_compute in (Z.of_nat n) in
                change (Z.of_nat n) with z
            end);
    repeat (match goal with
            | |- context [if ?c then _ else _] => destruct c
            end; try reflexivity)|]).
  done.
Qed.

Lemma valueColumns_untyped (k : nat) (c : column) (ptype : string) :
  valueColumns !! k = Some c -> cell c (with_Ptype ptype getTableInstance) = "".
Proof.
  intros Hk. do 8 (destruct k as [|k]; [by injection Hk as <-|]). done.
Qed.

Lemma agrees_windowLine (ptype : string) (fieldIndex : Z)
    (fieldValues : list string) (r : CasbinRule) :
  agrees (windowLine fieldIndex fieldValues (with_Ptype ptype getTableInstance)) r
  <-> windowed ptype fieldIndex fieldValues r.
Proof.
  unfold agrees, windowed. rewrite Ptype_windowLine. simpl Ptype.
  rewrite Forall_lookup. split; intros [Hp H]; (split; [done|]).
  - intros i v c Hi Hv Hc. unfold index in Hc.
    case_bool_decide as H0; [|done].
    specialize (H _ _ Hc). rewrite (cell_windowLine _ _ _ _ _ Hc) in H.
    apply lookup_lt_Some in Hi as Hlt.
    rewrite Z2Nat.id in H by done.
    rewrite !bool_decide_eq_true_2 in H by (unfold len; lia). simpl in H.
    replace (fieldIndex + Z.of_nat i - fieldIndex) with (Z.of_nat i) in H by lia.
    rewrite index_nat, Hi in H. simpl in H. by destruct H.
  - intros k c Hc. rewrite (cell_windowLine _ _ _ _ _ Hc).
    destruct (bool_decide (fieldIndex <= Z.of_nat k)
              && bool_decide (Z.of_nat k < fieldIndex + len fieldValues)) eqn:E.
    + apply andb_prop in E as [E1 E2].
      apply bool_decide_eq_true_1 in E1. apply bool_decide_eq_true_1 in E2.
      unfold len in E2.
      replace (Z.of_nat k - fieldIndex)
        with (Z.of_nat (Z.to_nat (Z.of_nat k - fieldIndex))) by lia.
      rewrite index_nat.
      destruct (fieldValues !! Z.to_nat (Z.of_nat k - fieldIndex))
        as [v|] eqn:Ev; [|by left]. simpl.
      destruct (decide (v = "")) as [->|Hv]; [by left|]. right.
      apply (H _ _ _ Ev Hv).
      replace (fieldIndex + Z.of_nat (Z.to_nat (Z.of_nat k - fieldIndex)))
        with (Z.of_nat k) by lia.
      by rewrite index_nat.
    + left. by eapply valueColumns_untyped.
Qed.

Lemma checkQueryField_nonempty (fieldValues : list string) (v : string) :
  v ∈ fieldValues -> v ≠ "" -> checkQueryField fieldValues = None.
Proof.
  intros Hin Hv. unfold checkQueryField.
  replace (existsb _ fieldValues) with true; [done|].
  symmetry. apply existsb_exists. exists v.
  split; [by apply list_elem_of_In|]. by apply bool_decide_eq_true_2.
Qed.

(** X7.  [removeFilteredPolicy] with a field index other than [-1] and a
    field value that is not empty sends one DELETE; when it succeeds, the
    rows it removes are the rows of the type that carry every non-empty
    field value in its column, the [i]-th value in column
    [fieldIndex + i].  Empty values and values outside the eight columns
    constrain nothing. *)
Theorem removeFilteredPolicy_window (a : Adapter) (db : DB)
    (sec ptype : string) (fieldIndex : Z) (fieldValues : list string)
    (v : string) (s : Store) :
  fieldIndex ≠ -1 -> v ∈ fieldValues -> v ≠ "" -> live db s = true ->
  let line := windowLine fieldIndex fieldValues
                (with_Ptype ptype getTableInstance) in
  exists s',
    removeFilteredPolicy a db sec ptype fieldIndex fieldValues s = (None, s')
    /\ view db s' = filter (fun r => ~ agrees line r) (view db s)
    /\ (forall r, agrees line r <-> windowed ptype fieldIndex fieldValues r)
    /\ trace s' = trace s ++ [Stmt (txid db) (SDelete (queryString line))].
Proof.
  intros Hi Hin Hv Hlive line. unfold removeFilteredPolicy.
  rewrite bool_decide_eq_false_2 by done.
  rewrite (checkQueryField_nonempty _ _ Hin Hv).
  rewrite rawDelete_live by done. eexists. split; [reflexivity|].
  split; [|split].
  - rewrite view_written by (by apply live_open in Hlive).
    rewrite view_stepped. apply filter_not_matches_queryString.
  - intros r. apply agrees_windowLine.
  - by rewrite trace_written.
Qed.

Lemma removeFilteredPolicy_window_witness :
  exists s',
    removeFilteredPolicy exampleAdapter conn "p" "p" 1 [""; "read"] threeRows
    = (None, s')
    /\ view conn s' = [aliceAdmin; bobWrite].
Proof.
  destruct (removeFilteredPolicy_window exampleAdapter conn "p" "p" 1
              [""; "read"] "read" threeRows) as (s' & H1 & H2 & _).
  - discriminate.
  - set_solver.
  - discriminate.
  - reflexivity.
  - exists s'. split; [exact H1|]. rewrite H2. reflexivity.
Defined.

Lemma windowLine_outside (fieldIndex : Z) (fieldValues : list string)
    (line : CasbinRule) :
  7 < fieldIndex \/ fieldIndex + len fieldValues <= 0 ->
  windowLine fieldIndex fieldValues line = line.
Proof.
  intros H. unfold windowLine, window.
  repeat (match goal with
          | |- context [bool_decide ?P && bool_decide ?Q] =>
              replace (bool_decide P && bool_decide Q) with false
                by (symmetry; apply andb_false_iff;
                    rewrite !bool_decide_eq_false; lia)
          end).
  done.
Qed.

(** X8.  A window that lies outside the eight value columns (it starts
    after column 7, or ends before column 0) passes the check of the
    field values and sets no condition: [removeFilteredPolicy] then removes
    every row of the type, whatever the field values are. *)
Theorem removeFilteredPolicy_outside_window (a : Adapter) (db : DB)
    (sec ptype : string) (fieldIndex : Z) (fieldValues : list string)
    (v : string) (s : Store) :
  7 < fieldIndex \/ fieldIndex + len fieldValues <= 0 ->
  fieldIndex ≠ -1 -> v ∈ fieldValues -> v ≠ "" -> live db s = true ->
  exists s',
    removeFilteredPolicy a db sec ptype fieldIndex fieldValues s = (None, s')
    /\ view db s' = filter (fun r => Ptype r ≠ ptype) (view db s)
    /\ trace s' = trace s ++ [Stmt (txid db) (SDelete [Eq Cptype ptype])].
Proof.
  intros Hout Hi Hin Hv Hlive. unfold removeFilteredPolicy.
  rewrite bool_decide_eq_false_2 by done.
  rewrite (checkQueryField_nonempty _ _ Hin Hv).
  rewrite windowLine_outside by done.
  rewrite rawDelete_live by done. rewrite queryString_type_only.
  eexists. split; [reflexivity|]. split.
  - rewrite view_written by (by apply live_open in Hlive).
    rewrite view_stepped. simpl. apply list_filter_iff.
    intros r. apply matches_ptype.
  - by rewrite trace_written.
Qed.

Lemma removeFilteredPolicy_outside_window_witness :
  exists s',
    removeFilteredPolicy exampleAdapter conn "p" "p" 8 ["nobody"] threeRows
    = (None, s')
    /\ view conn s' = [aliceAdmin].
Proof.
  destruct (removeFilteredPolicy_outside_window exampleAdapter conn "p" "p" 8
              ["nobody"] "nobody" threeRows) as (s' & H1 & H2 & _).
  - left. lia.
  - discriminate.
  - set_solver.
  - discriminate.
  - reflexivity.
  - exists s'. split; [exact H1|]. rewrite H2. reflexivity.
Defined.

(** ** Filtered update, in general *)

(** A read in an open transaction, whatever the failure script holds. *)
Lemma Find_in_tx_any (t : nat) (q : cond) (ordered : bool) (s : Store) :
  is_Some (txs s !! t) ->
  exists rows s',
    Find (mkDB (Some t) None) q ordered s
    = ((rows, default None (head (faults s))), s')
    /\ table s' = table s
    /\ txs s' = txs s
    /\ faults s' = tail (faults s)
    /\ trace s' = trace s ++ [Stmt (Some t) (SFind q ordered)].
Proof.
  intros [log Hlog]. unfold Find, send, bind, emit, fault.
  destruct s as [tb tx nt ni fs tr]. simpl in *.
  destruct fs as [|[e|] fs]; simpl; rewrite ?Hlog; simpl; rewrite ?Hlog;
    eauto 10.
Qed.

Lemma createEach_table (t : nat) (newP : list CasbinRule) (s : Store) :
  is_Some (txs s !! t) ->
  exists r s',
    createEach (mkDB (Some t) None) newP s = (r, s')
    /\ table s' = table s
    /\ match r with
       | None => is_Some (txs s' !! t)
       | Some _ => txs s' !! t = None
       end.
Proof.
  revert s. induction newP as [|l newP IH]; intros s Ho; cbn [createEach].
  - by eexists _, _.
  - destruct (Create_in_tx t [l] s Ho ltac:(done))
      as (s1 & Hc & _ & _ & Ho1 & Htb & _).
    rewrite (bind_run _ _ _ _ _ Hc).
    destruct (default None (head (faults s))) as [e|].
    + destruct (Rollback_in_tx t s1) as (s2 & Hr & _ & _ & Hcl & Htb2 & _).
      rewrite (bind_run _ _ _ _ _ Hr). eexists _, _.
      split; [reflexivity|]. split; [congruence|done].
    + destruct (IH s1 Ho1) as (r & s2 & -> & Htb2 & H). eexists _, _.
      split; [reflexivity|]. split; [congruence|done].
Qed.

Lemma updateFilteredPolicies_keeps_table (a : Adapter) (sec ptype : string)
    (newPolicies : list (list string)) (fieldIndex : Z)
    (fieldValues : list string) (s : Store) :
  exists res s',
    updateFilteredPolicies a conn sec ptype newPolicies fieldIndex fieldValues s
    = (res, s')
    /\ (res.2 ≠ None -> table s' = table s)
    /\ (res.2 = None -> is_Some res.1).
Proof.
  unfold updateFilteredPolicies.
  destruct (default None (head (faults s))) as [e|] eqn:Hf.
  - assert (Hf' : head (faults s) = Some (Some e)).
    { destruct (head (faults s)) as [[x|]|]; simpl in Hf; congruence. }
    rewrite (bind_run _ _ _ _ _ (Begin_conn_fails s e Hf')).
    unfold Find, send, bind, ret, Rollback. simpl. eexists _, _.
    split; [reflexivity|]. done.
  - rewrite (bind_run _ _ _ _ _ (Begin_conn s Hf)).
    set (t := nextTx s).
    set (q := queryString _).
    assert (Ho : is_Some (txs (begun s) !! t)).
    { simpl. rewrite lookup_insert_eq. by eexists. }
    destruct (Find_in_tx_any t q false (begun s) Ho)
      as (rows & s1 & Hfind & Htb1 & Htx1 & _).
    rewrite (bind_run _ _ _ _ _ Hfind). simpl in Htb1.
    assert (Ho1 : is_Some (txs s1 !! t)) by (by rewrite Htx1).
    destruct (default None (head (faults (begun s)))) as [e|].
    { destruct (Rollback_in_tx t s1) as (s2 & Hr & _ & _ & _ & Htb2 & _).
      rewrite (bind_run _ _ _ _ _ Hr). eexists _, _.
      split; [reflexivity|]. simpl. split; [|done]. intros _. congruence. }
    unfold Delete.
    destruct (send_in_tx t (SDelete q) (WDelete q) s1 Ho1)
      as (s2 & Hsend & _ & _ & Ho2 & Htb2 & _).
    rewrite (bind_run _ _ _ _ _ Hsend).
    destruct (default None (head (faults s1))) as [e|].
    { destruct (Rollback_in_tx t s2) as (s3 & Hr & _ & _ & _ & Htb3 & _).
      rewrite (bind_run _ _ _ _ _ Hr). eexists _, _.
      split; [reflexivity|]. simpl. split; [|done]. intros _. congruence. }
    destruct (createEach_table t ((fun newRule => savePolicyLine ptype newRule)
                                    <$> newPolicies) s2 Ho2)
      as (r & s3 & Hce & Htb3 & Hr).
    rewrite (bind_run _ _ _ _ _ Hce). destruct r as [e|].
    { eexists _, _. split; [reflexivity|]. simpl. split; [|done].
      intros _. congruence. }
    destruct Hr as [log Hlog].
    pose proof (Commit_open t log s3 Hlog) as Hcm.
    destruct (default None (head (faults s3))) as [e|];
      rewrite (bind_run _ _ _ _ _ Hcm); eexists _, _;
      (split; [reflexivity|]); simpl; (split; [|done]).
    + intros _. congruence.
    + done.
Qed.

(** X9.  [updateFilteredPolicies] on the pool is all or nothing on the
    table: whatever statement fails (the begin, the read, the delete, one of
    the inserts or the commit), when it returns an error the rows of the
    table are the rows it started from. *)
Theorem updateFilteredPolicies_error_keeps_table (a : Adapter)
    (sec ptype : string) (newPolicies : list (list string)) (fieldIndex : Z)
    (fieldValues : list string) (s : Store) (e : error) :
  let r := updateFilteredPolicies a conn sec ptype newPolicies fieldIndex
             fieldValues s in
  r.1.2 = Some e -> table r.2 = table s.
Proof.
  intros r. subst r.
  destruct (updateFilteredPolicies_keeps_table a sec ptype newPolicies
              fieldIndex fieldValues s) as (res & s' & -> & H & _).
  simpl. intros He. apply H. by rewrite He.
Qed.

Lemma updateFilteredPolicies_error_keeps_table_witness :
  table (updateFilteredPolicies exampleAdapter conn "p" "p"
           [["carol"; "data3"; "read"]; ["dave"; "data4"; "read"]] 0 ["alice"]
           (exampleStore [None; None; None; None; Some "insert failed"])).2
  = [aliceRead; aliceAdmin].
Proof.
  apply (updateFilteredPolicies_error_keeps_table exampleAdapter "p" "p"
           [["carol"; "data3"; "read"]; ["dave"; "data4"; "read"]] 0 ["alice"]
           (exampleStore [None; None; None; None; Some "insert failed"])
           "insert failed").
  vm_compute. reflexivity.
Defined.

(** A write in an open transaction on a store that fails nothing. *)
Lemma send_tx_ok (t : nat) (log : list write) (st : stmt) (w : write)
    (s : Store) :
  txs s !! t = Some log -> faults s = [] ->
  send (mkDB (Some t) None) st (Some w) s
  = (None, mkStore (table s) (<[t := log ++ [w]]> (txs s)) (nextTx s)
                   (nextID s) [] (trace s ++ [Stmt (Some t) st])).
Proof.
  intros Hlog Hf. unfold send, bind, emit, fault, set_txs, ret.
  destruct s as [tb tx nt ni fs tr]. simpl in *. subst fs. simpl.
  by rewrite Hlog.
Qed.

Lemma Create_tx_ok (t : nat) (log : list write) (lines : list CasbinRule)
    (s : Store) :
  txs s !! t = Some log -> faults s = [] -> lines ≠ [] ->
  Create (mkDB (Some t) None) lines s
  = (None, mkStore (table s)
                   (<[t := log ++ [WCreate (assignIDs (nextID s) lines).1]]> (txs s))
                   (nextTx s) (assignIDs (nextID s) lines).2 []
                   (trace s ++ [Stmt (Some t) (SCreate lines)])).
Proof.
  intros Hlog Hf Hne. unfold Create. simpl.
  rewrite bool_decide_eq_false_2 by done.
  destruct (assignIDs (nextID s) lines) as [lines' n'].
  by rewrite (send_tx_ok t log) by done.
Qed.

Lemma assignIDs_cons (n : N) (l : CasbinRule) (ls : list CasbinRule) :
  (assignIDs n (l :: ls)).1
  = (assignIDs n [l]).1 ++ (assignIDs (assignIDs n [l]).2 ls).1
  /\ (assignIDs n (l :: ls)).2 = (assignIDs (assignIDs n [l]).2 ls).2.
Proof.
  cbn [assignIDs]. case_bool_decide; simpl;
    by destruct (assignIDs _ ls).
Qed.

(** The inserts of [updateFilteredPolicies], one statement a row, on a
    store that fails nothing: the rows join the log with the ids a single
    insert of all of them would give. *)
Lemma createEach_ok (t : nat) (newP : list CasbinRule) (log : list write)
    (s : Store) :
  txs s !! t = Some log -> faults s = [] ->
  exists s',
    createEach (mkDB (Some t) None) newP s = (None, s')
    /\ (exists log', txs s' !! t = Some (log ++ log')
                     /\ forall rows, replay log' rows
                                     = rows ++ (assignIDs (nextID s) newP).1)
    /\ table s' = table s
    /\ faults s' = []
    /\ trace s' = trace s ++ ((fun l => Stmt (Some t) (SCreate [l])) <$> newP).
Proof.
  revert log s. induction newP as [|l newP IH]; intros log s Hlog Hf;
    cbn [createEach].
  - eexists. split; [reflexivity|]. split; [|by rewrite app_nil_r].
    exists []. rewrite app_nil_r. split; [done|]. intros rows.
    by rewrite app_nil_r.
  - rewrite (bind_run _ _ _ _ _ (Create_tx_ok t log [l] s Hlog Hf ltac:(done))).
    set (s1 := mkStore _ _ _ _ _ _).
    destruct (IH (log ++ [WCreate (assignIDs (nextID s) [l]).1]) s1)
      as (s' & Hc & (log' & Hlog' & Hrep) & Htb & Hf' & Htr).
    { simpl. by rewrite lookup_insert_eq. }
    { done. }
    exists s'. split; [exact Hc|]. split; [|split; [done|split; [done|]]].
    + exists (WCreate (assignIDs (nextID s) [l]).1 :: log').
      split; [by rewrite Hlog', <- app_assoc|]. intros rows.
      destruct (assignIDs_cons (nextID s) l newP) as [-> _].
      change (replay (?w :: log') rows) with (replay log' (apply_write w rows)).
      rewrite Hrep. simpl. by rewrite <- app_assoc.
    + rewrite Htr. simpl. by rewrite <- app_assoc.
Qed.

Lemma updateFilteredPolicies_ok (a : Adapter)
    (sec ptype : string) (newPolicies : list (list string)) (fieldIndex : Z)
    (fieldValues : list string) (s : Store) :
  faults s = [] ->
  let line := windowLine fieldIndex fieldValues
                (with_Ptype ptype getTableInstance) in
  let newP := (fun rule => savePolicyLine ptype rule) <$> newPolicies in
  exists s',
    updateFilteredPolicies a conn sec ptype newPolicies fieldIndex fieldValues s
    = ((Some (toStringPolicy <$> filter (agrees line) (table s)), None), s')
    /\ table s' = filter (fun r => ~ agrees line r) (table s)
                  ++ (assignIDs (nextID s) newP).1.
Proof.
  intros Hf line newP. unfold updateFilteredPolicies. fold line. fold newP.
  rewrite (bind_run _ _ _ _ _ (Begin_conn s ltac:(by rewrite Hf))).
  set (t := nextTx s).
  assert (Ho : is_Some (txs (begun s) !! t)).
  { simpl. rewrite lookup_insert_eq. by eexists. }
  rewrite (bind_run _ _ _ _ _
             (Find_in_tx _ _ _ _ Ho ltac:(by simpl; rewrite Hf))).
  unfold Delete. set (s1 := stepped _ (begun s)).
  assert (Hlog1 : txs s1 !! t = Some []).
  { simpl. by rewrite lookup_insert_eq. }
  assert (Hf1 : faults s1 = []) by (by simpl; rewrite Hf).
  rewrite (bind_run _ _ _ _ _ (send_tx_ok t [] _ _ s1 Hlog1 Hf1)).
  set (s2 := mkStore _ _ _ _ _ _).
  destruct (createEach_ok t newP [WDelete (queryString line)] s2)
    as (s3 & Hc & (log' & Hlog' & Hrep) & Htb & Hf3 & _).
  { simpl. by rewrite lookup_insert_eq. }
  { done. }
  rewrite (bind_run _ _ _ _ _ Hc).
  pose proof (Commit_open _ _ _ Hlog') as Hcm. rewrite Hf3 in Hcm.
  simpl in Hcm. rewrite (bind_run _ _ _ _ _ Hcm). eexists.
  split.
  - unfold ret. do 4 f_equal. unfold view. simpl.
    rewrite lookup_insert_eq. simpl. apply filter_matches_queryString.
  - simpl. rewrite Htb. simpl.
    change (replay (?w :: log') ?rows) with (replay log' (apply_write w rows)).
    rewrite Hrep. simpl. by rewrite filter_not_matches_queryString.
Qed.

(** X10.  On a store that fails nothing, [updateFilteredPolicies] returns,
    with no error, the stored rows that agree with the window line, each as
    its non-empty columns; afterwards the table holds the other rows, in
    their order, followed by the new rules with fresh ids.  The field values
    are not checked: a window of empty values replaces every row of the
    type. *)
Theorem updateFilteredPolicies_replaces_agreeing (a : Adapter)
    (sec ptype : string) (newPolicies : list (list string)) (fieldIndex : Z)
    (fieldValues : list string) (s : Store) :
  faults s = [] ->
  let line := windowLine fieldIndex fieldValues
                (with_Ptype ptype getTableInstance) in
  let newP := (fun rule => savePolicyLine ptype rule) <$> newPolicies in
  exists s',
    updateFilteredPolicies a conn sec ptype newPolicies fieldIndex fieldValues s
    = ((Some (toStringPolicy <$> filter (agrees line) (table s)), None), s')
    /\ table s' = filter (fun r => ~ agrees line r) (table s)
                  ++ (assignIDs (nextID s) newP).1
    /\ (forall r, agrees line r <-> windowed ptype fieldIndex fieldValues r)
    /\ (Forall (fun v => v = "") fieldValues ->
        forall r, agrees line r <-> Ptype r = ptype).
Proof.
  intros Hf line newP.
  destruct (updateFilteredPolicies_ok a sec ptype newPolicies fieldIndex
              fieldValues s Hf) as (s' & Hrun & Htb).
  exists s'. split; [exact Hrun|]. split; [exact Htb|]. split.
  - intros r. apply agrees_windowLine.
  - intros Hall r. unfold line. rewrite windowLine_all_empty by done.
    unfold agrees, valueColumns. simpl. rewrite !Forall_cons, Forall_nil.
    tauto.
Qed.

Lemma updateFilteredPolicies_replaces_agreeing_witness :
  exists s',
    updateFilteredPolicies exampleAdapter conn "p" "p"
      [["carol"; "data3"; "read"]] 2 ["read"] threeRows
    = ((Some [["p"; "alice"; "data1"; "read"]], None), s')
    /\ table s' = [aliceAdmin; bobWrite;
                   mkRule 4 "p" "carol" "data3" "read" "" "" "" "" ""].
Proof.
  destruct (updateFilteredPolicies_replaces_agreeing exampleAdapter "p" "p"
              [["carol"; "data3"; "read"]] 2 ["read"] threeRows)
    as (s' & H1 & H2 & _).
  - reflexivity.
  - exists s'. split; [exact H1|]. rewrite H2. reflexivity.
Defined.

(** ** Full save, when nothing fails *)

Lemma assignIDs_app (n : N) (l1 l2 : list CasbinRule) :
  (assignIDs n (l1 ++ l2)).1
  = (assignIDs n l1).1 ++ (assignIDs (assignIDs n l1).2 l2).1
  /\ (assignIDs n (l1 ++ l2)).2 = (assignIDs (assignIDs n l1).2 l2).2.
Proof.
  revert n. induction l1 as [|l l1 IH]; intros n; [done|].
  rewrite <- app_comm_cons. cbn [assignIDs].
  case_bool_decide.
  - destruct (IH (n + 1)%N) as [IH1 IH2].
    destruct (assignIDs (n + 1) (l1 ++ l2)), (assignIDs (n + 1) l1).
    simpl in *. by rewrite IH1, IH2.
  - destruct (IH n) as [IH1 IH2].
    destruct (assignIDs n (l1 ++ l2)), (assignIDs n l1).
    simpl in *. by rewrite IH1, IH2.
Qed.

Lemma eraseID_assignIDs (n : N) (ls : list CasbinRule) :
  eraseID <$> (assignIDs n ls).1 = eraseID <$> ls.
Proof.
  revert n. induction ls as [|l ls IH]; intros n; [done|].
  cbn [assignIDs]. case_bool_decide.
  - specialize (IH (n + 1)%N). destruct (assignIDs (n + 1) ls).
    cbn [fst] in *. rewrite !fmap_cons. by rewrite IH.
  - specialize (IH n). destruct (assignIDs n ls).
    cbn [fst] in *. rewrite !fmap_cons. by rewrite IH.
Qed.

Lemma flushedIn_refl (t : nat) (log : list write) (s : Store) :
  txs s !! t = Some log -> faults s = [] -> flushedIn t log [] s s.
Proof.
  intros Hlog Hf. exists []. rewrite app_nil_r. repeat split; try done.
  intros rows. by rewrite app_nil_r.
Qed.

Lemma flushedIn_trans (t : nat) (log : list write)
    (f1 f2 : list CasbinRule) (s s1 s2 : Store) :
  flushedIn t log f1 s s1 ->
  (forall log1, txs s1 !! t = Some log1 -> flushedIn t log1 f2 s1 s2) ->
  flushedIn t log (f1 ++ f2) s s2.
Proof.
  intros (log1 & Hl1 & Hr1 & Hn1 & Ht1 & Hf1) H2.
  destruct (H2 _ Hl1) as (log2 & Hl2 & Hr2 & Hn2 & Ht2 & Hf2).
  destruct (assignIDs_app (nextID s) f1 f2) as [Ha1 Ha2].
  exists (log1 ++ log2). split; [by rewrite Hl2, <- app_assoc|].
  split; [|split; [|split]].
  - intros rows. unfold replay in *. rewrite foldl_app, Hr1, Hr2.
    by rewrite Ha1, Hn1, <- app_assoc.
  - by rewrite Hn2, Ha2, Hn1.
  - congruence.
  - done.
Qed.

Lemma flushedIn_Create (t : nat) (log : list write)
    (lines : list CasbinRule) (s : Store) :
  txs s !! t = Some log -> faults s = [] -> lines ≠ [] ->
  exists s',
    Create (mkDB (Some t) None) lines s = (None, s')
    /\ flushedIn t log lines s s'.
Proof.
  intros Hlog Hf Hne. rewrite (Create_tx_ok t log) by done.
  eexists. split; [reflexivity|].
  exists [WCreate (assignIDs (nextID s) lines).1]. simpl.
  by rewrite lookup_insert_eq.
Qed.

Lemma saveRules_ok (a : Adapter) (t : nat) (ptype : string)
    (rules : list (list string)) (lines : list CasbinRule) (log : list write)
    (s : Store) :
  txs s !! t = Some log -> faults s = [] ->
  exists lines' s' flushed,
    saveRules a (mkDB (Some t) None) ptype rules lines s = (inl lines', s')
    /\ flushedIn t log flushed s s'
    /\ flushed ++ lines'
       = lines ++ ((fun rule => savePolicyLine ptype rule) <$> rules).
Proof.
  revert lines log s. induction rules as [|rule rules IH];
    intros lines log s Hlog Hf; cbn [saveRules].
  - exists lines, s, []. split; [done|]. split; [by apply flushedIn_refl|].
    by rewrite app_nil_r.
  - case_bool_decide.
    + destruct (flushedIn_Create t log (lines ++ [savePolicyLine ptype rule]) s)
        as (s1 & Hc & Hfl); [done|done|by destruct lines|].
      rewrite (bind_run _ _ _ _ _ Hc).
      pose proof Hfl as (log1 & Hl1 & _ & _ & _ & Hf1).
      destruct (IH [] _ s1 Hl1 Hf1) as (lines' & s' & fl & Hs & Hfl' & Heq).
      exists lines', s', ((lines ++ [savePolicyLine ptype rule]) ++ fl).
      split; [exact Hs|]. split.
      * eapply flushedIn_trans; [exact Hfl|]. intros log2 Hl2.
        rewrite Hl1 in Hl2. by injection Hl2 as <-.
      * rewrite <- !app_assoc, Heq. by rewrite fmap_cons.
    + destruct (IH (lines ++ [savePolicyLine ptype rule]) log s Hlog Hf)
        as (lines' & s' & fl & Hs & Hfl & Heq).
      exists lines', s', fl. split; [exact Hs|]. split; [exact Hfl|].
      rewrite Heq, <- app_assoc. by rewrite fmap_cons.
Qed.

Lemma saveAssertions_ok (a : Adapter) (t : nat)
    (asts : list (string * Assertion)) (lines : list CasbinRule)
    (log : list write) (s : Store) :
  txs s !! t = Some log -> faults s = [] ->
  exists lines' s' flushed,
    saveAssertions a (mkDB (Some t) None) asts lines s = (inl lines', s')
    /\ flushedIn t log flushed s s'
    /\ flushed ++ lines' = lines ++ sectionLines asts.
Proof.
  revert lines log s. induction asts as [|[ptype ast] asts IH];
    intros lines log s Hlog Hf; cbn [saveAssertions].
  - exists lines, s, []. split; [done|]. split; [by apply flushedIn_refl|].
    unfold sectionLines. simpl. by rewrite app_nil_r.
  - destruct (saveRules_ok a t ptype (Policy ast) lines log s Hlog Hf)
      as (lines1 & s1 & fl1 & Hs1 & Hfl1 & Heq1).
    rewrite (bind_run _ _ _ _ _ Hs1).
    pose proof Hfl1 as (log1 & Hl1 & _ & _ & _ & Hf1).
    destruct (IH lines1 _ s1 Hl1 Hf1) as (lines' & s' & fl & Hs & Hfl & Heq).
    exists lines', s', (fl1 ++ fl). split; [exact Hs|]. split.
    + eapply flushedIn_trans; [exact Hfl1|]. intros log2 Hl2.
      rewrite Hl1 in Hl2. by injection Hl2 as <-.
    + rewrite <- app_assoc, Heq, app_assoc, Heq1. unfold sectionLines.
      rewrite bind_cons. simpl. by rewrite <- app_assoc.
Qed.

(** X11.  On a store that fails nothing, [savePolicy] on the pool returns
    no error and replaces the table: afterwards it holds, [id]s aside, one
    row for every rule of the model, the rules of section [p] before those
    of section [g], each section in the order of its two loops; no earlier
    row is left. *)
Theorem savePolicy_stores_model (a : Adapter) (model : Model) (s : Store) :
  faults s = [] ->
  exists s',
    savePolicy a conn model s = (None, s')
    /\ eraseID <$> table s'
       = sectionLines (map_to_list (model !!! "p" : AssertionMap))
         ++ sectionLines (map_to_list (model !!! "g" : AssertionMap))
    /\ faults s' = [].
Proof.
  intros Hf. unfold savePolicy.
  rewrite (bind_run _ _ _ _ _ (Begin_conn s ltac:(by rewrite Hf))).
  set (t := nextTx s).
  destruct (truncateTable_sends a conn) as (sql & ->).
  assert (Hl0 : live conn (begun s) = true).
  { unfold live. simpl. by rewrite Hf. }
  rewrite (bind_run _ _ _ _ _ (send_live conn (SExec sql) WClear _ Hl0)).
  set (s0 := written conn WClear _).
  assert (Hlog0 : txs s0 !! t = Some []).
  { simpl. by rewrite lookup_insert_eq. }
  assert (Hf0 : faults s0 = []) by (by simpl; rewrite Hf).
  assert (Htb0 : table s0 = []) by done.
  destruct (saveAssertions_ok a t (map_to_list (model !!! "p" : AssertionMap))
              [] [] s0 Hlog0 Hf0) as (lines1 & s1 & fl1 & Hs1 & Hfl1 & Heq1).
  rewrite (bind_run _ _ _ _ _ Hs1).
  pose proof Hfl1 as (log1 & Hl1 & _ & _ & _ & Hf1).
  destruct (saveAssertions_ok a t (map_to_list (model !!! "g" : AssertionMap))
              lines1 _ s1 Hl1 Hf1) as (lines2 & s2 & fl2 & Hs2 & Hfl2 & Heq2).
  rewrite (bind_run _ _ _ _ _ Hs2).
  assert (Hfl : flushedIn t [] (fl1 ++ fl2) s0 s2).
  { eapply flushedIn_trans; [exact Hfl1|]. intros log2 Hl2.
    rewrite Hl1 in Hl2. by injection Hl2 as <-. }
  assert (Hall : (fl1 ++ fl2) ++ lines2
                 = sectionLines (map_to_list (model !!! "p" : AssertionMap))
                   ++ sectionLines (map_to_list (model !!! "g" : AssertionMap))).
  { rewrite <- app_assoc, Heq2, app_assoc, Heq1. done. }
  assert (Hfin : exists s3,
             (if bool_decide (len lines2 > 0) then
                e <- Create (mkDB (Some t) None) lines2 ;;
                match e with
                | Some err => Rollback (mkDB (Some t) None) ;;; ret (Some err)
                | None => Commit (mkDB (Some t) None)
                end
              else Commit (mkDB (Some t) None)) s2 = (None, s3)
             /\ eraseID <$> table s3 = eraseID <$> ((fl1 ++ fl2) ++ lines2)
             /\ faults s3 = []).
  { assert (Hcommit : forall fl s3, flushedIn t [] fl s0 s3 ->
              exists s4, Commit (mkDB (Some t) None) s3 = (None, s4)
                         /\ eraseID <$> table s4 = eraseID <$> fl
                         /\ faults s4 = []).
    { intros fl s3 (log3 & Hl3 & Hr3 & _ & Ht3 & Hf3).
      pose proof (Commit_open _ _ _ Hl3) as Hcm. rewrite Hf3 in Hcm.
      simpl in Hcm. rewrite Hcm. eexists. split; [reflexivity|]. simpl.
      rewrite Hr3, Ht3, Htb0. simpl. split; [|done]. apply eraseID_assignIDs. }
    case_bool_decide as Hlen.
    - pose proof Hfl as (log2 & Hl2 & _ & _ & _ & Hf2).
      destruct (flushedIn_Create t _ lines2 s2 Hl2 Hf2) as (s3 & Hc & Hfl3).
      { intros ->. unfold len in Hlen. simpl in Hlen. lia. }
      rewrite (bind_run _ _ _ _ _ Hc). apply Hcommit.
      eapply flushedIn_trans; [exact Hfl|]. intros log3 Hl3.
      rewrite Hl2 in Hl3. by injection Hl3 as <-.
    - assert (lines2 = []) as ->.
      { destruct lines2; [done|]. unfold len in Hlen. simpl in Hlen. lia. }
      rewrite app_nil_r. by apply Hcommit. }
  destruct Hfin as (s3 & Hrun & Htab & Hf3). exists s3.
  split; [exact Hrun|]. split; [|done]. rewrite Htab, Hall.
  clear. generalize (map_to_list (model !!! "p" : AssertionMap)).
  generalize (map_to_list (model !!! "g" : AssertionMap)). intros g p.
  rewrite fmap_app. f_equal.
  - unfold sectionLines. induction p as [|[pt ast] p IH]; [done|].
    rewrite bind_cons, fmap_app, IH. f_equal. simpl.
    induction (Policy ast) as [|r rs IHr]; [done|].
    rewrite !fmap_cons, IHr. by rewrite eraseID_savePolicyLine.
  - unfold sectionLines. induction g as [|[pt ast] g IH]; [done|].
    rewrite bind_cons, fmap_app, IH. f_equal. simpl.
    induction (Policy ast) as [|r rs IHr]; [done|].
    rewrite !fmap_cons, IHr. by rewrite eraseID_savePolicyLine.
Qed.

Lemma savePolicy_stores_model_witness :
  exists s',
    savePolicy exampleAdapter conn exampleModel (exampleStore []) = (None, s')
    /\ eraseID <$> table s'
       = [savePolicyLine "p" ["bob"; "data2"; "write"];
          savePolicyLine "g" ["bob"; "admin"]].
Proof.
  destruct (savePolicy_stores_model exampleAdapter exampleModel
              (exampleStore [])) as (s' & H1 & H2 & _).
  - reflexivity.
  - exists s'. split; [exact H1|]. rewrite H2. vm_compute. reflexivity.
Defined.

(** ** Filtered load *)

Lemma matches_andIn (c : column) (vs : list string) (q : cond)
    (r : CasbinRule) :
  matches (andIn c vs q) r
  = matches q r && (bool_decide (vs = []) || bool_decide (cell c r ∈ vs)).
Proof.
  unfold andIn. destruct vs as [|v vs].
  - rewrite bool_decide_eq_false_2 by (unfold len; simpl; lia).
    simpl. by rewrite andb_true_r.
  - rewrite bool_decide_eq_true_2 by (unfold len; simpl; lia).
    rewrite matches_app. simpl. by rewrite andb_true_r.
Qed.

Lemma matches_filterQuery (a : Adapter) (f : Filter) (r : CasbinRule) :
  matches (filterQuery a f) r = true <-> admits f r.
Proof.
  unfold filterQuery. rewrite !matches_andIn. unfold admits, valueColumns.
  rewrite !Forall_cons, Forall_nil. cbn [matches forallb filterField].
  rewrite !andb_true_iff, !orb_true_iff, !bool_decide_eq_true. tauto.
Qed.

Lemma Find_ok (db : DB) (q : cond) (ordered : bool) (s : Store) :
  usable db s -> default None (head (faults s)) = None ->
  Find db q ordered s
  = ((let rows := filter (fun r => matches q r = true) (view db s) in
      if ordered then merge_sort by_ID rows else rows, None),
     stepped (Stmt (txid db) (SFind q ordered)) s).
Proof.
  intros [He Ho] Hf. unfold Find, send, bind, emit, fault, stepped, view.
  rewrite He. destruct s as [tb tx nt ni fs tr]. simpl in *.
  destruct fs as [|[e|] fs]; simpl in *; try done;
    (destruct (txid db) as [t|]; [destruct Ho as [log Hlog]|]; simpl;
     rewrite ?Hlog; simpl; by rewrite ?Hlog).
Qed.

Lemma Find_fails (db : DB) (q : cond) (ordered : bool) (s : Store)
    (e : error) :
  Error db = None -> head (faults s) = Some (Some e) ->
  Find db q ordered s
  = (([], Some e), stepped (Stmt (txid db) (SFind q ordered)) s).
Proof.
  intros He Hf. unfold Find. by rewrite (send_fails db _ None s e).
Qed.

Lemma usable_stepped (db : DB) (e : event) (s : Store) :
  usable db s -> usable db (stepped e s).
Proof. done. Qed.

Section FilteredLoad.

Variable LoadPolicyArray :
  list string -> Model -> Model * outcome (option error).

Lemma loadLines_app (l1 l2 : list CasbinRule) (model : Model) :
  loadLines LoadPolicyArray (l1 ++ l2) model
  = match loadLines LoadPolicyArray l1 model with
    | (model', Return None) => loadLines LoadPolicyArray l2 model'
    | r => r
    end.
Proof.
  revert model. induction l1 as [|l l1 IH]; intros model; [done|].
  rewrite <- app_comm_cons. cbn [loadLines].
  destruct (loadPolicyLine LoadPolicyArray l model) as [m [[e|]|msg]];
    [done| |done]. apply IH.
Qed.

(** The loop over the filters while the queries succeed: it loads, filter
    by filter, the rows the handle sees that the filter admits. *)
Lemma loadFilters_run (a : Adapter) (db : DB) (fs : list Filter)
    (model : Model) (s : Store) :
  usable db s ->
  Forall (fun f => f = None) (take (length fs) (faults s)) ->
  exists s',
    loadFilters LoadPolicyArray a db fs model s
    = (loadLines LoadPolicyArray
         (fs ≫= (fun f => admitted f (view db s))) model, s')
    /\ view db s' = view db s
    /\ usable db s'
    /\ ((loadLines LoadPolicyArray
           (fs ≫= (fun f => admitted f (view db s))) model).2 = Return None ->
        trace s' = trace s ++ (findOf a db <$> fs)
        /\ faults s' = drop (length fs) (faults s)).
Proof.
  intros Hu. revert model s Hu. induction fs as [|f fs IH];
    intros model s Hu Hf; cbn [loadFilters].
  - exists s. simpl. by rewrite app_nil_r.
  - assert (Hf0 : default None (head (faults s)) = None).
    { destruct (faults s) as [|x fl]; [done|]. simpl in *.
      by apply Forall_cons in Hf as [-> _]. }
    rewrite (bind_run _ _ _ _ _ (Find_ok db _ true s Hu Hf0)).
    set (s1 := stepped _ s).
    assert (Hrows : merge_sort by_ID
                      (filter (fun r => matches (filterQuery a f) r = true)
                              (view db s))
                    = admitted f (view db s)).
    { unfold admitted. f_equal. apply list_filter_iff. intros r.
      apply matches_filterQuery. }
    cbv beta zeta iota. rewrite Hrows. rewrite bind_cons, loadLines_app.
    destruct (loadLines LoadPolicyArray (admitted f (view db s)) model)
      as [m1 [[e|]|msg]] eqn:E1.
    + exists s1. by simpl.
    + destruct (IH m1 s1) as (s' & Hrun & Hv & Hu' & Htr).
      { by apply usable_stepped. }
      { simpl. destruct (faults s) as [|x fl]; simpl in *; [by rewrite take_nil|].
        by apply Forall_cons in Hf as [_ Hf]. }
      exists s'. change (view db s1) with (view db s) in Hrun, Hv, Htr.
      split; [exact Hrun|]. split; [exact Hv|]. split; [exact Hu'|].
      intros Hok. destruct (Htr Hok) as [-> ->]. simpl.
      rewrite <- app_assoc. split; [done|].
      destruct (faults s); simpl; [by rewrite drop_nil|done].
    + exists s1. by simpl.
Qed.

Lemma loadFilters_app (a : Adapter) (db : DB) (fs1 fs2 : list Filter)
    (model : Model) (s : Store) :
  loadFilters LoadPolicyArray a db (fs1 ++ fs2) model s
  = match loadFilters LoadPolicyArray a db fs1 model s with
    | ((model', Return None), s') =>
        loadFilters LoadPolicyArray a db fs2 model' s'
    | r => r
    end.
Proof.
  revert model s. induction fs1 as [|f fs1 IH]; intros model s; [done|].
  rewrite <- app_comm_cons. cbn [loadFilters]. unfold bind.
  destruct (Find db (filterQuery a f) true s) as [[rows [e|]] s1]; [done|].
  destruct (loadLines LoadPolicyArray rows model) as [m1 [[e|]|msg]];
    [done| |done]. apply IH.
Qed.

(** X12.  [loadFilteredPolicy] on a usable handle, while its queries
    succeed: for each filter of the argument in turn it hands to the engine
    the rows that the filter admits, in the order of their [id]s, and stops
    at the first rule the engine refuses.  It loads a row once for every
    filter that admits it, and sets [isFiltered] only when it reaches the
    end.  An argument of another type is refused before anything is sent. *)
Theorem loadFilteredPolicy_loads_admitted (a : Adapter) (db : DB)
    (model : Model) (filter : filterValue) (fs : list Filter) (s : Store) :
  usable db s ->
  Forall (fun f => f = None) (take (length fs) (faults s)) ->
  filtersOf filter = Some fs ->
  let loaded := loadLines LoadPolicyArray
                  (fs ≫= (fun f => admitted f (view db s))) model in
  (exists s',
     loadFilteredPolicy LoadPolicyArray a db model filter s
     = ((match loaded.2 with
         | Return None => with_isFiltered true a
         | _ => a
         end, loaded.1, loaded.2), s')
     /\ view db s' = view db s
     /\ (loaded.2 = Return None -> trace s' = trace s ++ (findOf a db <$> fs)))
  /\ loadFilteredPolicy LoadPolicyArray a db model AOther s
     = ((a, model, Return (Some "unsupported filter type")), s).
Proof.
  intros Hu Hf Hfs loaded. split; [|done].
  destruct (loadFilters_run a db fs model s Hu Hf) as (s' & Hrun & Hv & _ & Htr).
  fold loaded in Hrun, Htr. exists s'. split; [|split; [done|]].
  - unfold loadFilteredPolicy.
    replace (match filter with
             | AFilter f | AFilterPtr f => Some [f]
             | AFilters fs0 => Some fs0
             | ABatchFilter b | ABatchFilterPtr b => Some (filters b)
             | AOther => None
             end) with (Some fs) by (by destruct filter).
    rewrite (bind_run _ _ _ _ _ Hrun).
    by destruct loaded as [m [[e|]|msg]].
  - intros Hok. by destruct (Htr Hok).
Qed.

(** X13.  [loadFilteredPolicy] does not preview: when the query of a later
    filter fails, the rules of the filters before it stay loaded in the
    model, the error of the query is returned and [isFiltered] is left as it
    was. *)
Theorem loadFilteredPolicy_partial (a : Adapter) (db : DB) (model m1 : Model)
    (filter : filterValue) (fs1 fs2 : list Filter) (f : Filter) (e : error)
    (s : Store) :
  usable db s ->
  filtersOf filter = Some (fs1 ++ f :: fs2) ->
  Forall (fun f => f = None) (take (length fs1) (faults s)) ->
  faults s !! length fs1 = Some (Some e) ->
  loadLines LoadPolicyArray (fs1 ≫= (fun f => admitted f (view db s))) model
  = (m1, Return None) ->
  exists s',
    loadFilteredPolicy LoadPolicyArray a db model filter s
    = ((a, m1, Return (Some e)), s')
    /\ trace s' = trace s ++ (findOf a db <$> fs1) ++ [findOf a db f].
Proof.
  intros Hu Hfs Hf He Hload.
  destruct (loadFilters_run a db fs1 model s Hu Hf)
    as (s1 & Hrun & Hv & Hu1 & Htr).
  rewrite Hload in Hrun, Htr. destruct (Htr eq_refl) as [Ht1 Hf1].
  eexists. split.
  - unfold loadFilteredPolicy.
    replace (match filter with
             | AFilter f | AFilterPtr f => Some [f]
             | AFilters fs0 => Some fs0
             | ABatchFilter b | ABatchFilterPtr b => Some (filters b)
             | AOther => None
             end) with (Some (fs1 ++ f :: fs2)) by (by destruct filter).
    unfold bind at 1. rewrite loadFilters_app, Hrun. cbn [loadFilters].
    rewrite (bind_run _ _ _ _ _ (Find_fails db _ true s1 e (proj1 Hu1)
               ltac:(by rewrite Hf1, head_lookup, lookup_drop, Nat.add_0_r))).
    reflexivity.
  - simpl. by rewrite Ht1, <- app_assoc.
Qed.

End FilteredLoad.

Lemma loadFilteredPolicy_loads_admitted_witness :
  exists s',
    loadFilteredPolicy refLoadPolicyArray exampleAdapter conn ∅
      (AFilters [aliceFilter; anyFilter]) threeRows
    = ((with_isFiltered true exampleAdapter,
        (loadLines refLoadPolicyArray
           [aliceRead; aliceRead; aliceAdmin; bobWrite] ∅).1,
        Return None), s').
Proof.
  destruct (loadFilteredPolicy_loads_admitted refLoadPolicyArray
              exampleAdapter conn ∅ (AFilters [aliceFilter; anyFilter])
              [aliceFilter; anyFilter] threeRows) as [(s' & H & _) _].
  - done.
  - by apply Forall_nil.
  - reflexivity.
  - exists s'. exact H.
Defined.

Lemma loadFilteredPolicy_partial_witness :
  exists s',
    loadFilteredPolicy refLoadPolicyArray exampleAdapter conn ∅
      (AFilters [aliceFilter; anyFilter])
      (exampleStore [None; Some "query failed"])
    = ((exampleAdapter,
        AddPolicy ∅ "p" "p" ["alice"; "data1"; "read"],
        Return (Some "query failed")), s').
Proof.
  destruct (loadFilteredPolicy_partial refLoadPolicyArray exampleAdapter conn
              ∅ (AddPolicy ∅ "p" "p" ["alice"; "data1"; "read"])
              (AFilters [aliceFilter; anyFilter]) [aliceFilter] [] anyFilter
              "query failed" (exampleStore [None; Some "query failed"]))
    as (s' & H & _).
  - done.
  - reflexivity.
  - by repeat constructor.
  - reflexivity.
  - reflexivity.
  - exists s'. exact H.
Defined.

(** ** The transaction wrappers, further *)

(** X14.  When the transaction cannot begin, [Transaction] returns the
    error of the begin: the callback is not called, nothing is rolled back
    and the engine is not reloaded. *)
Theorem Transaction_begin_fails (Enforcer : Type)
    (SetAdapter : Adapter -> Enforcer -> Enforcer)
    (LoadPolicyHook : Enforcer -> M (Enforcer * outcome (option error)))
    (a : Adapter) (e : Enforcer)
    (fc : Enforcer -> M (Enforcer * outcome (option error)))
    (s : Store) (e0 : error) :
  db a = conn -> head (faults s) = Some (Some e0) ->
  Transaction Enforcer SetAdapter LoadPolicyHook a e fc s
  = ((e, Return (Some e0)), stepped (Stmt None SBegin) s).
Proof.
  intros Hdb Hf. unfold Transaction. rewrite Hdb.
  by rewrite (bind_run _ _ _ _ _ (Begin_conn_fails s e0 Hf)).
Qed.

Lemma Transaction_begin_fails_witness :
  Transaction Adapter exampleSetAdapter failingReload exampleAdapter
    exampleAdapter failingCallback (exampleStore [Some "no connection"])
  = ((exampleAdapter, Return (Some "no connection")),
     mkStore [aliceRead; aliceAdmin] ∅ 0 3 [] [Stmt None SBegin]).
Proof.
  apply (Transaction_begin_fails Adapter exampleSetAdapter failingReload
           exampleAdapter exampleAdapter failingCallback
           (exampleStore [Some "no connection"]) "no connection");
    reflexivity.
Defined.

Section TransactionCtxProperties.

Variable Enforcer : Type.
Variable LoadPolicySyncWatcher :
  Enforcer -> M (Enforcer * outcome (option error)).

(** X15.  [TransactionCtx] with the pool in the context.  The callback
    receives the transaction, and a context that holds it under the
    adapter's key.  When the callback returns an error or panics, the
    transaction is rolled back, the engine reloaded, and the callback's
    error or panic comes back.  When the callback returns [nil], the result
    is that of the commit, and a failed commit is neither rolled back nor
    followed by a reload. *)
Theorem TransactionCtx_outcomes (ca : ContextAdapter) (ctx : Context)
    (e : Enforcer)
    (fc : Context -> DB -> M (Enforcer * outcome (option error)))
    (s : Store) :
  getDBByCtx ca ctx = Some conn ->
  default None (head (faults s)) = None ->
  let t := nextTx s in
  let tx := mkDB (Some t) None in
  let ctxEx := WithValue ctx (gormCtxKey ca) tx in
  getDBByCtx ca ctxEx = Some tx
  /\ forall (e1 : Enforcer) (s1 : Store),
       (forall fe e2 reload s2,
          fc ctxEx tx (begun s) = ((e1, Return (Some fe)), s1) ->
          LoadPolicySyncWatcher e1 (rolledBack t s1)
          = ((e2, Return reload), s2) ->
          TransactionCtx Enforcer LoadPolicySyncWatcher ca ctx e fc s
          = ((e2, Return (Some fe)), logged reload s2))
       /\ (forall msg e2 reload s2,
             fc ctxEx tx (begun s) = ((e1, Panicked msg), s1) ->
             LoadPolicySyncWatcher e1 (rolledBack t s1)
             = ((e2, Return reload), s2) ->
             TransactionCtx Enforcer LoadPolicySyncWatcher ca ctx e fc s
             = ((e2, Panicked msg), logged reload s2))
       /\ (forall c s1',
             fc ctxEx tx (begun s) = ((e1, Return None), s1) ->
             Commit tx s1 = (c, s1') ->
             TransactionCtx Enforcer LoadPolicySyncWatcher ca ctx e fc s
             = ((e1, Return c), s1')).
Proof.
  intros Hdb Hf t tx ctxEx. split.
  { unfold getDBByCtx, ctxEx, WithValue. simpl. by rewrite lookup_insert_eq. }
  intros e1 s1. unfold TransactionCtx. rewrite Hdb.
  rewrite (bind_run _ _ _ _ _ (Begin_conn s Hf)). subst ctxEx tx t.
  cbn [Error]. split; [|split].
  - intros fe e2 reload s2 Hfc Hre. rewrite (bind_run _ _ _ _ _ Hfc).
    by apply leave_with_error.
  - intros msg e2 reload s2 Hfc Hre. rewrite (bind_run _ _ _ _ _ Hfc).
    by apply leave_panicking.
  - intros c s1' Hfc Hc. rewrite (bind_run _ _ _ _ _ Hfc).
    rewrite (bind_run _ _ _ _ _ Hc).
    unfold leave, deferred, bind, ret. by simpl.
Qed.

End TransactionCtxProperties.

Lemma TransactionCtx_outcomes_witness :
  let r := TransactionCtx Adapter failingReload exampleContextAdapter
             exampleContext exampleAdapter addingCallback
             (exampleStore [None; None; Some "commit failed"]) in
  r.1 = (exampleAdapter, Return (Some "commit failed"))
  /\ trace r.2
     = [Stmt None SBegin;
        Stmt (Some 0%nat) (SCreate [savePolicyLine "p" ["bob"; "data2"; "write"]]);
        Stmt (Some 0%nat) SCommit].
Proof.
  destruct (TransactionCtx_outcomes Adapter failingReload
              exampleContextAdapter exampleContext exampleAdapter
              addingCallback (exampleStore [None; None; Some "commit failed"]))
    as [_ H].
  - reflexivity.
  - reflexivity.
  - destruct (H exampleAdapter
                (addingCallback
                   (WithValue exampleContext "gormDB" (mkDB (Some 0%nat) None))
                   (mkDB (Some 0%nat) None)
                   (begun (exampleStore [None; None; Some "commit failed"]))).2)
      as (_ & _ & Hc).
    cbv zeta.
    rewrite (Hc (Some "commit failed")
               (Commit (mkDB (Some 0%nat) None)
                  (addingCallback
                     (WithValue exampleContext "gormDB" (mkDB (Some 0%nat) None))
                     (mkDB (Some 0%nat) None)
                     (begun (exampleStore [None; None; Some "commit failed"]))).2).2);
      [split; reflexivity | reflexivity | reflexivity].
Defined.

(** X16.  A filtered update through the context adapter that succeeds
    panics: [executeWithContextEx] asserts the [nil] error to be an
    [error].  The update is committed all the same: the table holds the new
    rows.  (Unless the context is done and the [select] takes that case.) *)
Theorem UpdateFilteredPoliciesCtx_panics_on_success (doneFirst : bool)
    (ca : ContextAdapter) (ctx : Context) (sec ptype : string)
    (newRules : list (list string)) (fieldIndex : Z)
    (fieldValues : list string) (s : Store) :
  getDBByCtx ca ctx = Some conn -> faults s = [] ->
  ctxErr ctx = None \/ doneFirst = false ->
  let line := windowLine fieldIndex fieldValues
                (with_Ptype ptype getTableInstance) in
  let newP := (fun rule => savePolicyLine ptype rule) <$> newRules in
  exists s',
    UpdateFilteredPoliciesCtx doneFirst ca ctx sec ptype newRules fieldIndex
                              fieldValues s
    = (Panicked "interface conversion: interface is nil, not error", s')
    /\ table s' = filter (fun r => ~ agrees line r) (table s)
                  ++ (assignIDs (nextID s) newP).1.
Proof.
  intros Hdb Hf Hrace line newP.
  destruct (updateFilteredPolicies_ok (adapter ca) sec ptype newRules
              fieldIndex fieldValues s Hf) as (s' & Hrun & Htb).
  exists s'. split; [|exact Htb].
  unfold UpdateFilteredPoliciesCtx, executeWithContextEx. rewrite Hdb.
  rewrite (bind_run _ _ _ _ _ Hrun).
  destruct Hrace as [-> | ->]; [done|]. by destruct (ctxErr ctx).
Qed.

Lemma UpdateFilteredPoliciesCtx_panics_on_success_witness :
  exists s',
    UpdateFilteredPoliciesCtx false exampleContextAdapter exampleContext
      "p" "p" [["carol"; "data3"; "read"]] 0 ["alice"] (exampleStore [])
    = (Panicked "interface conversion: interface is nil, not error", s')
    /\ table s' = [aliceAdmin;
                   mkRule 3 "p" "carol" "data3" "read" "" "" "" "" ""].
Proof.
  destruct (UpdateFilteredPoliciesCtx_panics_on_success false
              exampleContextAdapter exampleContext "p" "p"
              [["carol"; "data3"; "read"]] 0 ["alice"] (exampleStore []))
    as (s' & H1 & H2).
  - reflexivity.
  - reflexivity.
  - by right.
  - exists s'. split; [exact H1|]. rewrite H2. reflexivity.
Defined.

(** X17.  A done context does not stop an operation of the context
    adapter: [executeWithContext] runs it to its end on its own goroutine.
    When the [select] takes the [ctx.Done()] case, [AddPolicyCtx] returns
    the context's error and the row is inserted all the same. *)
Theorem AddPolicyCtx_done_still_inserts (ca : ContextAdapter) (ctx : Context)
    (db : DB) (sec ptype : string) (rule : list string) (s : Store)
    (e : error) :
  getDBByCtx ca ctx = Some db -> ctxErr ctx = Some e -> live db s = true ->
  exists s',
    AddPolicyCtx true ca ctx sec ptype rule s = ((tt, Return (Some e)), s')
    /\ view db s' = view db s
                    ++ (assignIDs (nextID s) [savePolicyLine ptype rule]).1
    /\ trace s'
       = trace s ++ [Stmt (txid db) (SCreate [savePolicyLine ptype rule])].
Proof.
  intros Hdb He Hlive.
  destruct (Create_live db [savePolicyLine ptype rule] s Hlive ltac:(done))
    as (s' & Hc & Hv & _ & Htr & _).
  exists s'. split; [|done].
  unfold AddPolicyCtx, executeWithContext, onlyError, addPolicy.
  rewrite Hdb, He. unfold bind at 1 2. by rewrite Hc.
Qed.

Lemma AddPolicyCtx_done_still_inserts_witness :
  exists s',
    AddPolicyCtx true exampleContextAdapter doneContext "p" "p"
      ["carol"; "data3"; "read"] (exampleStore [])
    = ((tt, Return (Some "context canceled")), s')
    /\ view conn s' = [aliceRead; aliceAdmin;
                       mkRule 3 "p" "carol" "data3" "read" "" "" "" "" ""].
Proof.
  destruct (AddPolicyCtx_done_still_inserts exampleContextAdapter doneContext
              conn "p" "p" ["carol"; "data3"; "read"] (exampleStore [])
              "context canceled") as (s' & H1 & H2 & _).
  - reflexivity.
  - reflexivity.
  - reflexivity.
  - exists s'. split; [exact H1|]. rewrite H2. reflexivity.
Defined.

(** ** Batch insert, batch delete and the updates *)

Lemma removeEach_ok (a : Adapter) (t : nat) (ptype : string)
    (rules : list (list string)) (log : list write) (s : Store) :
  txs s !! t = Some log -> faults s = [] ->
  exists s',
    removeEach a (mkDB (Some t) None) ptype rules s = (tt, s')
    /\ txs s' !! t = Some (log ++ (deleteWrite ptype <$> rules))
    /\ table s' = table s
    /\ faults s' = [].
Proof.
  revert log s. induction rules as [|rule rules IH]; intros log s Hlog Hf;
    cbn [removeEach].
  - exists s. by rewrite app_nil_r.
  - rewrite rawDelete_Scoped. unfold Delete.
    rewrite (bind_run _ _ _ _ _ (send_tx_ok t log _ _ s Hlog Hf)).
    set (s1 := mkStore _ _ _ _ _ _).
    destruct (IH (log ++ [deleteWrite ptype rule]) s1) as (s' & Hr & Hl & Ht & Hf').
    { simpl. by rewrite lookup_insert_eq. }
    { done. }
    exists s'. split; [exact Hr|]. split; [|done].
    rewrite Hl, fmap_cons. by rewrite <- app_assoc.
Qed.

Lemma replay_deletes (ptype : string) (rules : list (list string))
    (rows : list CasbinRule) :
  replay (deleteWrite ptype <$> rules) rows
  = filter (fun r => ~ Exists (fun rule =>
                                 agrees (savePolicyLine ptype rule) r) rules)
           rows.
Proof.
  revert rows. induction rules as [|rule rules IH]; intros rows.
  - simpl. symmetry. apply filter_all. apply Forall_true. intros r H.
    by apply Exists_nil in H.
  - rewrite fmap_cons.
    change (replay (?w :: ?l) rows) with (replay l (apply_write w rows)).
    rewrite IH. simpl. rewrite filter_not_matches_queryString.
    rewrite list_filter_filter. apply list_filter_iff. intros r.
    rewrite Exists_cons. tauto.
Qed.

(** X18.  On a store that fails nothing, [removePolicies] on the pool
    returns no error and removes, in one transaction, every row that agrees
    with one of the encoded rules; the other rows stay, in their order. *)
Theorem removePolicies_removes_agreeing (a : Adapter) (sec ptype : string)
    (rules : list (list string)) (s : Store) :
  faults s = [] ->
  exists s',
    removePolicies a conn sec ptype rules s = (Return None, s')
    /\ table s'
       = filter (fun r => ~ Exists (fun rule =>
                              agrees (savePolicyLine ptype rule) r) rules)
                (table s)
    /\ txs s' !! nextTx s = None.
Proof.
  intros Hf. unfold removePolicies, gormTransaction. simpl.
  rewrite (bind_run _ _ _ _ _ (Begin_conn s ltac:(by rewrite Hf))). simpl.
  destruct (removeEach_ok a (nextTx s) ptype rules [] (begun s))
    as (s1 & Hr & Hl & Ht & Hf1).
  { simpl. by rewrite lookup_insert_eq. }
  { simpl. by rewrite Hf. }
  rewrite (bind_run _ _ _ s1 (Return None)).
  2:{ by rewrite (bind_run _ _ _ _ _ Hr). }
  pose proof (Commit_open _ _ _ Hl) as Hcm. rewrite Hf1 in Hcm. simpl in Hcm.
  rewrite (bind_run _ _ _ _ _ Hcm). eexists. split; [reflexivity|]. simpl.
  split; [|by rewrite lookup_delete_eq].
  rewrite Ht. simpl. apply replay_deletes.
Qed.

Lemma removePolicies_removes_agreeing_witness :
  exists s',
    removePolicies exampleAdapter conn "p" "p"
      [["alice"]; ["bob"; "data2"]; ["nobody"]] threeRows = (Return None, s')
    /\ table s' = [aliceAdmin].
Proof.
  destruct (removePolicies_removes_agreeing exampleAdapter "p" "p"
              [["alice"]; ["bob"; "data2"]; ["nobody"]] threeRows)
    as (s' & H1 & H2 & _).
  - reflexivity.
  - exists s'. split; [exact H1|]. rewrite H2. reflexivity.
Defined.

(** [Create] on a usable handle, whatever the failure script holds. *)
Lemma Create_usable (db : DB) (lines : list CasbinRule) (s : Store) :
  usable db s -> lines ≠ [] ->
  exists s',
    Create db lines s = (default None (head (faults s)), s')
    /\ trace s' = trace s ++ [Stmt (txid db) (SCreate lines)]
    /\ match default None (head (faults s)) with
       | None => view db s' = view db s ++ (assignIDs (nextID s) lines).1
       | Some _ => view db s' = view db s
       end.
Proof.
  intros [He Ho] Hne. unfold Create. rewrite He.
  rewrite bool_decide_eq_false_2 by done.
  destruct (assignIDs (nextID s) lines) as [lines' n'].
  unfold send, bind, emit, fault, view. rewrite He.
  destruct s as [tb tx nt ni fs tr]. simpl in *.
  destruct fs as [|[e|] fs]; simpl;
    (destruct (txid db) as [t|]; [destruct Ho as [log Hlog]|]; simpl;
     rewrite ?Hlog; simpl; eexists; (split; [reflexivity|]); simpl;
     rewrite ?lookup_insert_eq, ?Hlog; simpl; rewrite ?replay_snoc; done).
Qed.

(** X19.  [addPolicies] sends the rules as one INSERT.  An empty list of
    rules is refused with [ErrEmptySlice] and no INSERT is sent.  Otherwise
    the statement decides: when it succeeds, the handle sees its earlier
    rows followed by one row a rule, in the order of the rules; when it
    fails, the handle sees what it saw before. *)
Theorem addPolicies_one_insert (a : Adapter) (db : DB) (sec ptype : string)
    (rules : list (list string)) (s : Store) :
  usable db s ->
  let lines := (fun rule => savePolicyLine ptype rule) <$> rules in
  addPolicies a db sec ptype [] s = (Some ErrEmptySlice, s)
  /\ (rules ≠ [] ->
      exists s',
        addPolicies a db sec ptype rules s = (default None (head (faults s)), s')
        /\ trace s' = trace s ++ [Stmt (txid db) (SCreate lines)]
        /\ match default None (head (faults s)) with
           | None => eraseID <$> view db s' = (eraseID <$> view db s) ++ lines
           | Some _ => view db s' = view db s
           end).
Proof.
  intros Hu lines. split.
  - unfold addPolicies, Create. by rewrite (proj1 Hu).
  - intros Hne. unfold addPolicies. fold lines.
    destruct (Create_usable db lines s Hu) as (s' & Hc & Htr & Hv).
    { unfold lines. by destruct rules. }
    exists s'. split; [exact Hc|]. split; [exact Htr|].
    destruct (default None (head (faults s))); [done|].
    rewrite Hv, fmap_app, eraseID_assignIDs. f_equal.
    unfold lines. clear. induction rules as [|r rs IH]; [done|].
    by rewrite !fmap_cons, IH, eraseID_savePolicyLine.
Qed.

Lemma addPolicies_one_insert_witness :
  exists s',
    addPolicies exampleAdapter conn "p" "p" [["carol"; "data3"]; ["dave"]]
                (exampleStore []) = (None, s')
    /\ trace s' = [Stmt None (SCreate [savePolicyLine "p" ["carol"; "data3"];
                                       savePolicyLine "p" ["dave"]])].
Proof.
  destruct (addPolicies_one_insert exampleAdapter conn "p" "p"
              [["carol"; "data3"]; ["dave"]] (exampleStore [])) as [_ H].
  - done.
  - destruct H as (s' & H1 & H2 & _); [done|].
    exists s'. split; [exact H1 | exact H2].
Defined.

(** *** Updates *)

Lemma cell_set_cell (c c' : column) (x : string) (r : CasbinRule) :
  cell c (set_cell c' x r) = if decide (c = c') then x else cell c r.
Proof. by destruct c, c'. Qed.

Lemma ID_set_cell (c : column) (x : string) (r : CasbinRule) :
  ID (set_cell c x r) = ID r.
Proof. by destruct c. Qed.

Lemma rule_eq (r1 r2 : CasbinRule) :
  ID r1 = ID r2 -> (forall c, cell c r1 = cell c r2) -> r1 = r2.
Proof.
  intros Hid H. destruct r1, r2. simpl in Hid. subst.
  pose proof (H Cptype). pose proof (H Cv0). pose proof (H Cv1).
  pose proof (H Cv2). pose proof (H Cv3). pose proof (H Cv4).
  pose proof (H Cv5). pose proof (H Cv6). pose proof (H Cv7).
  simpl in *. congruence.
Qed.

(** What the assignments of a struct do to a row, column by column. *)
Lemma cell_assign (new r : CasbinRule) (cs : list column) (c : column) :
  NoDup cs ->
  cell c (foldl (fun r cv => set_cell cv.1 cv.2 r) r
            (filter (fun cv => cv.2 ≠ "") ((fun c => (c, cell c new)) <$> cs)))
  = if bool_decide (c ∈ cs /\ cell c new ≠ "") then cell c new else cell c r.
Proof.
  intros Hnd. revert r. induction Hnd as [|c' cs Hnotin Hnd IH]; intros r.
  - rewrite bool_decide_eq_false_2; [done|].
    intros [H _]. by apply elem_of_nil in H.
  - rewrite fmap_cons. destruct (decide (cell c' new = "")) as [He|Hne].
    + rewrite filter_cons_False by (by simpl; intros ?). rewrite IH.
      apply (f_equal (fun b : bool => if b then _ else _)).
      apply bool_decide_ext. rewrite elem_of_cons.
      split; [tauto|]. intros [[->|?] ?]; tauto.
    + rewrite filter_cons_True by done. cbn [foldl fst snd]. rewrite IH.
      rewrite cell_set_cell. destruct (decide (c = c')) as [->|Hc].
      * destruct (decide (c' ∈ cs)); [done|].
        rewrite bool_decide_eq_false_2 by tauto.
        rewrite bool_decide_eq_true_2; [done|]. split; [left|done].
      * apply (f_equal (fun b : bool => if b then _ else _)).
        apply bool_decide_ext. rewrite elem_of_cons. tauto.
Qed.

Lemma ID_assign (r : CasbinRule) (l : list (column * string)) :
  ID (foldl (fun r cv => set_cell cv.1 cv.2 r) r l) = ID r.
Proof.
  revert r. induction l as [|cv l IH]; intros r; [done|].
  cbn [foldl]. by rewrite IH, ID_set_cell.
Qed.

Lemma assign_overlay (new r : CasbinRule) :
  foldl (fun r cv => set_cell cv.1 cv.2 r) r (nonZero new) = overlay new r.
Proof.
  apply rule_eq; [by rewrite ID_assign|]. intros c. unfold nonZero.
  rewrite cell_assign.
  2:{ apply (bool_decide_unpack
               (NoDup [Cptype; Cv0; Cv1; Cv2; Cv3; Cv4; Cv5; Cv6; Cv7])).
      by vm_compute. }
  assert (Hin : c ∈ [Cptype; Cv0; Cv1; Cv2; Cv3; Cv4; Cv5; Cv6; Cv7]).
  { destruct c; set_solver. }
  unfold overlay.
  destruct (decide (cell c new = "")) as [He|Hne].
  - rewrite bool_decide_eq_false_2 by tauto.
    destruct c; simpl in *; by rewrite bool_decide_eq_true_2.
  - rewrite bool_decide_eq_true_2 by tauto.
    destruct c; simpl in *; by rewrite bool_decide_eq_false_2.
Qed.

(** The conditions of a struct: equality in every column where the struct
    is not empty. *)
Lemma matches_nonZero_cols (old r : CasbinRule) (cs : list column) :
  matches ((fun cv => Eq cv.1 cv.2)
             <$> filter (fun cv => cv.2 ≠ "") ((fun c => (c, cell c old)) <$> cs)) r
  = true
  <-> Forall (fun c => cell c old = "" \/ cell c r = cell c old) cs.
Proof.
  induction cs as [|c cs IH].
  - simpl. by rewrite Forall_nil.
  - rewrite fmap_cons, Forall_cons. destruct (decide (cell c old = "")) as [He|Hne].
    + rewrite filter_cons_False by (by simpl; intros ?). rewrite IH. tauto.
    + rewrite filter_cons_True by done. rewrite fmap_cons.
      change (matches (?cl :: ?q) r) with (holds cl r && matches q r).
      rewrite andb_true_iff, IH. simpl. rewrite bool_decide_eq_true. tauto.
Qed.

Lemma matches_nonZero (old r : CasbinRule) :
  Ptype old ≠ "" ->
  matches ((fun cv => Eq cv.1 cv.2) <$> nonZero old) r = true <-> agrees old r.
Proof.
  intros Hp. unfold nonZero. rewrite matches_nonZero_cols.
  unfold agrees. fold valueColumns. rewrite Forall_cons. simpl. tauto.
Qed.

Lemma nonZero_typed (old : CasbinRule) :
  Ptype old ≠ "" -> (fun cv => Eq cv.1 cv.2) <$> nonZero old ≠ [].
Proof.
  intros Hp. unfold nonZero. rewrite fmap_cons.
  by rewrite filter_cons_True by done.
Qed.

Lemma Ptype_savePolicyLine (ptype : string) (rule : list string) :
  Ptype (savePolicyLine ptype rule) = ptype.
Proof.
  unfold savePolicyLine.
  repeat (match goal with
          | |- context [bool_decide ?P] => destruct (bool_decide P)
          end); reflexivity.
Qed.

(** X20.  [updatePolicy] sends one UPDATE; when it succeeds, every row
    that agrees with the old rule has the non-empty columns of the new rule
    written over its own, and keeps the others: a new rule with fewer
    values than the old one does not clear the columns it leaves out.  The
    rows that do not agree are untouched. *)
Theorem updatePolicy_overlays (a : Adapter) (db : DB) (sec ptype : string)
    (oldRule newPolicy : list string) (s : Store) :
  ptype ≠ "" -> live db s = true ->
  let oldLine := savePolicyLine ptype oldRule in
  let newLine := savePolicyLine ptype newPolicy in
  exists s',
    updatePolicy a db sec ptype oldRule newPolicy s = (None, s')
    /\ view db s'
       = (fun r => if decide (agrees oldLine r) then overlay newLine r else r)
         <$> view db s
    /\ length (view db s') = length (view db s).
Proof.
  intros Hp Hlive oldLine newLine. unfold updatePolicy, updateWhere.
  fold oldLine. fold newLine.
  pose proof Hlive as Hl. unfold live in Hl.
  apply andb_prop in Hl as [Hl _]. apply andb_prop in Hl as [He _].
  apply bool_decide_eq_true_1 in He. rewrite He.
  assert (Hpo : Ptype oldLine ≠ "") by (unfold oldLine; by rewrite Ptype_savePolicyLine).
  rewrite bool_decide_eq_false_2 by (by apply nonZero_typed).
  unfold Updates. rewrite send_live by done. eexists. split; [reflexivity|].
  rewrite view_written by (by apply live_open in Hlive).
  rewrite view_stepped. simpl. split; [|by rewrite length_fmap].
  apply list_fmap_ext. intros i r _. cbv beta.
  rewrite assign_overlay.
  destruct (decide (agrees oldLine r)) as [Hag|Hag].
  - by rewrite (proj2 (matches_nonZero oldLine r Hpo) Hag).
  - destruct (matches _ r) eqn:E; [|done].
    by apply (matches_nonZero oldLine r Hpo) in E.
Qed.

Lemma updatePolicy_overlays_witness :
  exists s',
    updatePolicy exampleAdapter conn "p" "p" ["alice"; "data1"; "read"]
                 ["alice"; "data9"] (exampleStore []) = (None, s')
    /\ view conn s'
       = [mkRule 1 "p" "alice" "data9" "read" "" "" "" "" ""; aliceAdmin].
Proof.
  destruct (updatePolicy_overlays exampleAdapter conn "p" "p"
              ["alice"; "data1"; "read"] ["alice"; "data9"] (exampleStore []))
    as (s' & H1 & H2 & _).
  - discriminate.
  - reflexivity.
  - exists s'. split; [exact H1|]. rewrite H2. reflexivity.
Defined.

(** The loop of [updatePolicies] over indices that both slices have, in an
    open transaction on a store that fails nothing. *)
Lemma updateEach_prefix (t : nat) (is1 is2 : list nat)
    (oldPolicies newPolicies : list CasbinRule) (s : Store) :
  is_Some (txs s !! t) -> faults s = [] ->
  Forall (fun o => Ptype o ≠ "") oldPolicies ->
  Forall (fun i => is_Some (oldPolicies !! i) /\ is_Some (newPolicies !! i)) is1 ->
  exists s',
    updateEach (mkDB (Some t) None) (is1 ++ is2) oldPolicies newPolicies s
    = updateEach (mkDB (Some t) None) is2 oldPolicies newPolicies s'
    /\ is_Some (txs s' !! t)
    /\ faults s' = []
    /\ table s' = table s
    /\ nextTx s' = nextTx s.
Proof.
  intros Ho Hf Hty Hall. revert s Ho Hf.
  induction Hall as [|i is1 [[o Hi] [n Hn]] _ IH]; intros s Ho Hf.
  - by exists s.
  - rewrite <- app_comm_cons. cbn [updateEach]. rewrite Hi, Hn.
    unfold updateWhere. simpl Error. cbv iota.
    rewrite bool_decide_eq_false_2.
    2:{ apply nonZero_typed. rewrite Forall_forall in Hty. apply Hty.
        by eapply list_elem_of_lookup_2. }
    unfold Updates.
    destruct (send_in_tx t (SUpdate ((fun cv => Eq cv.1 cv.2) <$> nonZero o)
                                    (nonZero n))
                (WUpdate ((fun cv => Eq cv.1 cv.2) <$> nonZero o) (nonZero n))
                s Ho) as (s1 & Hs & _ & Hf1 & Ho1 & Htb & Hnt).
    rewrite Hf in Hs, Hf1. simpl in Hs, Hf1.
    rewrite (bind_run _ _ _ _ _ Hs).
    destruct (IH s1 Ho1 Hf1) as (s' & Hrun & Ho' & Hf' & Htb' & Hnt').
    exists s'. split; [exact Hrun|]. repeat split; try done; congruence.
Qed.

(** X21.  [updatePolicies] reads a new rule for every old rule.  With
    fewer new rules than old ones it panics at the first old rule that has
    no partner; gorm rolls the transaction back, so the updates made up to
    there are undone and the table is as it was. *)
Theorem updatePolicies_fewer_new_rules_panics (a : Adapter)
    (sec ptype : string) (oldRules newRules : list (list string))
    (s : Store) :
  ptype ≠ "" -> faults s = [] ->
  (length newRules < length oldRules)%nat ->
  exists s',
    updatePolicies a conn sec ptype oldRules newRules s
    = (Panicked "index out of range", s')
    /\ table s' = table s
    /\ txs s' !! nextTx s = None
    /\ last (trace s') = Some (Stmt (Some (nextTx s)) SRollback).
Proof.
  intros Hp Hf Hlen. unfold updatePolicies, gormTransaction.
  cbn [txid conn].
  rewrite (bind_run _ _ _ _ _ (Begin_conn s ltac:(by rewrite Hf))).
  cbn [Error].
  set (old := (fun r => savePolicyLine ptype r) <$> oldRules).
  set (new := (fun r => savePolicyLine ptype r) <$> newRules).
  set (t := nextTx s).
  assert (Hseq : seq 0 (length old)
                 = seq 0 (length new)
                   ++ length new :: seq (S (length new))
                                        (length old - S (length new))).
  { unfold old, new. rewrite !length_fmap.
    replace (length oldRules)
      with (length newRules + S (length oldRules - S (length newRules)))%nat
      at 1 by lia.
    by rewrite seq_app. }
  rewrite Hseq.
  destruct (updateEach_prefix t (seq 0 (length new))
              (length new :: seq (S (length new)) (length old - S (length new)))
              old new (begun s))
    as (s1 & Hrun & Ho1 & Hf1 & Htb1 & Hnt1).
  { simpl. rewrite lookup_insert_eq. by eexists. }
  { simpl. by rewrite Hf. }
  { unfold old. rewrite Forall_fmap. apply Forall_true. intros r.
    simpl. by rewrite Ptype_savePolicyLine. }
  { rewrite Forall_forall. intros i Hi. apply elem_of_seq in Hi.
    split; apply lookup_lt_is_Some; unfold old, new in *;
      rewrite ?length_fmap in *; lia. }
  assert (Hold : is_Some (old !! length new)).
  { apply lookup_lt_is_Some. unfold old, new. rewrite !length_fmap. lia. }
  destruct Hold as [o Hold].
  rewrite (bind_run _ _ _ s1 (Panicked "index out of range")).
  2:{ rewrite Hrun. cbn [updateEach]. rewrite Hold.
      by rewrite (proj2 (lookup_ge_None new (length new)) ltac:(lia)). }
  destruct (Rollback_in_tx t s1) as (s2 & Hr & Htr & _ & Hcl & Htb & _).
  rewrite (bind_run _ _ _ _ _ Hr). exists s2. split; [reflexivity|].
  split; [by rewrite Htb, Htb1|]. split; [done|].
  by rewrite Htr, last_snoc.
Qed.

Lemma updatePolicies_fewer_new_rules_panics_witness :
  exists s',
    updatePolicies exampleAdapter conn "p" "p"
      [["alice"; "data1"; "read"]; ["bob"; "data2"; "write"]]
      [["alice"; "data1"; "write"]] threeRows
    = (Panicked "index out of range", s')
    /\ table s' = [aliceRead; aliceAdmin; bobWrite].
Proof.
  destruct (updatePolicies_fewer_new_rules_panics exampleAdapter "p" "p"
              [["alice"; "data1"; "read"]; ["bob"; "data2"; "write"]]
              [["alice"; "data1"; "write"]] threeRows) as (s' & H1 & H2 & _).
  - discriminate.
  - reflexivity.
  - simpl. lia.
  - exists s'. split; [exact H1 | exact H2].
Defined.

(** ** Full save, when something fails *)

Lemma saveRules_dead (a : Adapter) (e0 : error) (ptype : string)
    (rules : list (list string)) (lines : list CasbinRule) (s : Store) :
  exists r, saveRules a (mkDB None (Some e0)) ptype rules lines s = (r, s).
Proof.
  revert lines. induction rules as [|rule rules IH]; intros lines;
    cbn [saveRules].
  - by eexists.
  - case_bool_decide; [|apply IH]. by eexists.
Qed.

Lemma saveAssertions_dead (a : Adapter) (e0 : error)
    (asts : list (string * Assertion)) (lines : list CasbinRule) (s : Store) :
  exists r, saveAssertions a (mkDB None (Some e0)) asts lines s = (r, s).
Proof.
  revert lines. induction asts as [|[ptype ast] asts IH]; intros lines;
    cbn [saveAssertions].
  - by eexists.
  - destruct (saveRules_dead a e0 ptype (Policy ast) lines s) as [r Hr].
    rewrite (bind_run _ _ _ _ _ Hr). destruct r as [lines'|e]; [apply IH|].
    by eexists.
Qed.

(** X22.  [savePolicy] on the connection pool truncates on the pool, not in
    the transaction it begins there.  So once the truncate statement went
    through, every error it returns (from the begin, an insert or the
    commit) comes with an empty table: the rollback does not bring the old
    rows back. *)
Theorem savePolicy_error_leaves_table_empty (a : Adapter) (model : Model)
    (s : Store) (e : error) :
  default None (faults s !! 1%nat) = None ->
  (savePolicy a conn model s).1 = Some e ->
  table (savePolicy a conn model s).2 = [].
Proof.
  intros Hf1. destruct (default None (head (faults s))) as [e0|] eqn:Hf0.
  - assert (Hf0' : head (faults s) = Some (Some e0)).
    { destruct (head (faults s)) as [[x|]|]; simpl in Hf0; congruence. }
    unfold savePolicy.
    rewrite (bind_run _ _ _ _ _ (Begin_conn_fails s e0 Hf0')).
    destruct (truncateTable_sends a conn) as (sql & ->).
    assert (Hl : live conn (stepped (Stmt None SBegin) s) = true).
    { unfold live. simpl. destruct (faults s) as [|f [|[x|] fs]]; done. }
    rewrite (bind_run _ _ _ _ _ (send_live conn (SExec sql) WClear _ Hl)).
    set (s0 := written conn WClear _).
    destruct (saveAssertions_dead a e0
                (map_to_list (model !!! "p" : AssertionMap)) [] s0) as [r1 H1].
    rewrite (bind_run _ _ _ _ _ H1). destruct r1 as [lines1|e1]; [|done].
    destruct (saveAssertions_dead a e0
                (map_to_list (model !!! "g" : AssertionMap)) lines1 s0)
      as [r2 H2].
    rewrite (bind_run _ _ _ _ _ H2). destruct r2 as [lines2|e2]; [|done].
    by case_bool_decide.
  - destruct (savePolicy_statements a model s Hf0)
      as (r & s' & sql & evs & -> & _ & _ & H).
    simpl. intros ->. by apply (proj2 (H Hf1)).
Qed.

Lemma savePolicy_error_leaves_table_empty_witness :
  table (savePolicy exampleAdapter conn exampleModel
           (exampleStore [Some "no connection"])).2 = [].
Proof.
  apply (savePolicy_error_leaves_table_empty exampleAdapter exampleModel
           (exampleStore [Some "no connection"]) "no connection");
    reflexivity.
Defined.

(** ** Full load, when the preview fails *)

Section PreviewFailure.

Variable HasPolicyEx :
  Model -> string -> string -> list string -> outcome (bool * option error).
Variable LoadPolicyArray :
  list string -> Model -> Model * outcome (option error).
Variable model : Model.
Variable ok : CasbinRule -> bool.

(** The loop of [Preview] over rows the membership test answers for: it
    moves rows among the places it has passed, and leaves the later places
    as they are. *)
Lemma PreviewLoop_reaches (pre : list CasbinRule) (i j : nat)
    (rules : list CasbinRule) (is2 : list nat) :
  (j <= i)%nat ->
  (forall k, (k < length pre)%nat -> rules !! (i + k)%nat = pre !! k) ->
  Forall (answered HasPolicyEx model ok) pre ->
  exists rules' j',
    PreviewLoop HasPolicyEx model (seq i (length pre) ++ is2) rules j
    = PreviewLoop HasPolicyEx model is2 rules' j'
    /\ (forall k, (i + length pre <= k)%nat -> rules' !! k = rules !! k).
Proof.
  intros Hj Hpre Hall. revert i j rules Hj Hpre.
  induction Hall as [|x pre Hx _ IH]; intros i j rules Hj Hpre.
  - by exists rules, j.
  - assert (Hi : rules !! i = Some x).
    { specialize (Hpre 0%nat ltac:(simpl; lia)).
      by rewrite Nat.add_0_r in Hpre. }
    cbn [length seq]. rewrite <- app_comm_cons.
    rewrite (PreviewLoop_step HasPolicyEx model ok _ _ _ _ x Hx Hi).
    destruct (ok x).
    + assert (Hjs : is_Some (rules !! j)).
      { apply lookup_lt_is_Some. apply lookup_lt_Some in Hi. lia. }
      destruct Hjs as [at_j Hat]. rewrite Hat.
      destruct (IH (S i) (S j) (<[i := at_j]> (<[j := x]> rules)))
        as (rules' & j' & Hrun & Hrest).
      { lia. }
      { intros k Hk. rewrite !list_lookup_insert_ne by lia.
        specialize (Hpre (S k) ltac:(simpl; lia)).
        by rewrite Nat.add_succ_r in Hpre. }
      exists rules', j'. split; [exact Hrun|]. intros k Hk.
      rewrite Hrest by (simpl in Hk; lia).
      rewrite !list_lookup_insert_ne by (simpl in Hk; lia). done.
    + destruct (IH (S i) j rules) as (rules' & j' & Hrun & Hrest).
      { lia. }
      { intros k Hk. specialize (Hpre (S k) ltac:(simpl; lia)).
        by rewrite Nat.add_succ_r in Hpre. }
      exists rules', j'. split; [exact Hrun|]. intros k Hk.
      apply Hrest. simpl in Hk. lia.
Qed.

(** [Preview] on rows of which one, after rows the membership test
    answers for, fails the loop. *)
Lemma Preview_reaches (a : Adapter) (pre post : list CasbinRule)
    (x : CasbinRule) :
  Forall (answered HasPolicyEx model ok) pre ->
  exists rules' j',
    rules' !! length pre = Some x
    /\ forall r,
         (forall is_, PreviewLoop HasPolicyEx model (length pre :: is_) rules' j'
                      = (rules', j', r)) ->
         r ≠ Return None ->
         Preview HasPolicyEx a (pre ++ x :: post) model = (rules', r).
Proof.
  intros Hall.
  destruct (PreviewLoop_reaches pre 0 0 (pre ++ x :: post)
              (length pre :: seq (S (length pre)) (length post)))
    as (rules' & j' & Hrun & Hrest); [lia| |done|].
  { intros k Hk. simpl. by rewrite lookup_app_l. }
  exists rules', j'. split.
  { rewrite Hrest by (simpl; lia). by rewrite list_lookup_middle. }
  intros r Hstep Hr. unfold Preview.
  replace (seq 0 (length (pre ++ x :: post)))
    with (seq 0 (length pre)
          ++ length pre :: seq (S (length pre)) (length post)).
  2:{ rewrite length_app. simpl. rewrite seq_app. by simpl. }
  rewrite Hrun, Hstep. by destruct r as [[e|]|msg].
Qed.

(** X23.  [loadPolicy] previews all rows before it loads any.  When the
    loop of [Preview] reaches a row without a type it panics, and when the
    membership test of the engine fails on a row, [loadPolicy] returns that
    error; either way the model is as it was and no rule has been handed to
    [LoadPolicyArray]. *)
Theorem loadPolicy_preview_failure_loads_nothing (a : Adapter) (db : DB)
    (pre post : list CasbinRule) (x : CasbinRule) (s s' : Store) :
  Find db [] true s = ((pre ++ x :: post, None), s') ->
  Forall (answered HasPolicyEx model ok) pre ->
  (Ptype x = "" ->
   exists msg,
     loadPolicy HasPolicyEx LoadPolicyArray a db model s
     = ((model, Panicked msg), s'))
  /\ (forall b err,
        Ptype x ≠ "" ->
        HasPolicyEx model (sec_of (Ptype x)) (Ptype x) (drop 1 (tupleOf x))
        = Return (b, Some err) ->
        loadPolicy HasPolicyEx LoadPolicyArray a db model s
        = ((model, Return (Some err)), s')).
Proof.
  intros Hfind Hall.
  destruct (Preview_reaches a pre post x Hall) as (rules' & j' & Hx & Hprev).
  unfold loadPolicy. rewrite (bind_run _ _ _ _ _ Hfind). split.
  - intros Hp.
    destruct (decide (trimTrailingEmpty (columns x) = [])) as [He|Hne].
    + exists "index out of range". rewrite (Hprev (Panicked "index out of range")); [done| |done].
      intros is_. cbn [PreviewLoop]. rewrite Hx.
      by rewrite trimTrailing_panics.
    + exists "slice bounds out of range".
      rewrite (Hprev (Panicked "slice bounds out of range")); [done| |done].
      intros is_. cbn [PreviewLoop]. rewrite Hx.
      rewrite trimTrailing_decodes by done.
      destruct (trimTrailingEmpty (columns x)) as [|key p] eqn:E; [done|].
      assert (key = "") as ->.
      { destruct (trimTrailingEmpty_split (columns x)) as (k & Heq & _).
        rewrite E in Heq. unfold columns in Heq. simpl in Heq.
        injection Heq as Hk _. congruence. }
      done.
  - intros b err Hp Herr.
    rewrite (Hprev (Return (Some err))); [done| |done].
    intros is_. cbn [PreviewLoop]. rewrite Hx.
    rewrite trimTrailing_decodes by (by apply trimTrailingEmpty_cons_ne).
    fold (tupleOf x). rewrite (tupleOf_cons x Hp).
    change (index (Ptype x :: drop 1 (tupleOf x)) 0) with (Some (Ptype x)).
    cbv iota beta. rewrite bool_decide_eq_false_2.
    2:{ destruct (Ptype x); [done|]. simpl. lia. }
    change (drop 1 (Ptype x :: drop 1 (tupleOf x))) with (drop 1 (tupleOf x)).
    fold (sec_of (Ptype x)). by rewrite Herr.
Qed.

End PreviewFailure.

Lemma loadPolicy_preview_failure_loads_nothing_witness :
  exists msg,
    (loadPolicy refHasPolicyEx refLoadPolicyArray exampleAdapter conn ∅
                brokenStore).1 = (∅, Panicked msg).
Proof.
  destruct (loadPolicy_preview_failure_loads_nothing refHasPolicyEx
              refLoadPolicyArray ∅ (fun _ => false) exampleAdapter conn
              [aliceRead] [] untypedRow brokenStore
              (stepped (Stmt None (SFind [] true)) brokenStore))
    as [H _].
  - reflexivity.
  - repeat constructor. discriminate.
  - destruct H as [msg H]; [reflexivity|]. exists msg. by rewrite H.
Defined.

(** ** Constructors and the pool of databases *)

(** X24.  The parameters of [NewAdapter], shape by shape.  More than three
    are refused as too many.  Refused as a wrong format, before [Open] is
    reached: one parameter that is neither a bool nor a string; two
    parameters of which the first is no string or the second is neither a
    bool nor a string; three parameters of which the third is no bool.  With
    three parameters, the third a bool, the type assertions on the first two
    are unchecked: [NewAdapter] panics on the first of them that is no
    string, with the text of the failed conversion.  On every other list,
    which is at most two strings followed by at most one bool, [Open] is
    reached with the adapter the parameters describe, and decides the
    result. *)
Theorem NewAdapter_parameters (Open : Adapter -> Adapter + error)
    (driverName dataSourceName : string) :
  (forall params,
     (3 < length params)%nat ->
     NewAdapter Open driverName dataSourceName params
     = Return (inr "too many parameters"))
  /\ (forall type,
        NewAdapter Open driverName dataSourceName [POther type]
        = Return (inr "wrong format"))
  /\ (forall p1 p2,
        (forall s, p1 ≠ PString s) ->
        NewAdapter Open driverName dataSourceName [p1; p2]
        = Return (inr "wrong format"))
  /\ (forall p1 type,
        NewAdapter Open driverName dataSourceName [p1; POther type]
        = Return (inr "wrong format"))
  /\ (forall p1 p2 p3,
        (forall b, p3 ≠ PBool b) ->
        NewAdapter Open driverName dataSourceName [p1; p2; p3]
        = Return (inr "wrong format"))
  /\ (forall p1 p2 b,
        (forall s, p1 ≠ PString s) ->
        NewAdapter Open driverName dataSourceName [p1; p2; PBool b]
        = Panicked (notAString p1))
  /\ (forall s1 p2 b,
        (forall s, p2 ≠ PString s) ->
        NewAdapter Open driverName dataSourceName [PString s1; p2; PBool b]
        = Panicked (notAString p2))
  /\ (forall strs bs,
        (length strs <= 2)%nat -> (length bs <= 1)%nat ->
        let a0 := mkAdapter driverName dataSourceName
                    (default defaultDatabaseName (strs !! 0%nat)) ""
                    (default defaultTableName (strs !! 1%nat))
                    (default false (bs !! 0%nat)) conn "" false in
        NewAdapter Open driverName dataSourceName
                   ((PString <$> strs) ++ (PBool <$> bs))
        = match Open a0 with
          | inl a => Return (inl a)
          | inr err => Return (inr err)
          end).
Proof.
  repeat split.
  - intros params Hlen.
    do 4 (destruct params as [|? params]; [simpl in Hlen; lia|]).
    repeat (match goal with x : param |- _ => destruct x end); reflexivity.
  - intros p1 p2 Hp. destruct p1 as [| s |]; [| by destruct (Hp s) |];
      by destruct p2.
  - intros p1 type. by destruct p1.
  - intros p1 p2 p3 Hp. destruct p3 as [b| |]; [by destruct (Hp b)| |];
      by destruct p1, p2.
  - intros p1 p2 b Hp. destruct p1 as [| s |]; [| by destruct (Hp s) |];
      by destruct p2.
  - intros s1 p2 b Hp. destruct p2 as [| s |]; [| by destruct (Hp s) |]; done.
  - intros strs bs Hs Hb.
    destruct strs as [|s [|t [|]]]; try (simpl in Hs; lia);
      (destruct bs as [|b [|]]; try (simpl in Hb; lia)); reflexivity.
Qed.

Lemma NewAdapter_parameters_witness :
  NewAdapter exampleOpen "mysql" "dsn"
             [PString "casbin"; PBool true; PBool true]
  = Panicked "interface conversion: interface {} is bool, not string"
  /\ NewAdapter exampleOpen "mysql" "dsn" [PBool true; PBool true]
     = Return (inr "wrong format")
  /\ NewAdapter exampleOpen "mysql" "dsn"
                [PString "casbin"; PString "rules"; POther "int"]
     = Return (inr "wrong format").
Proof.
  destruct (NewAdapter_parameters exampleOpen "mysql" "dsn")
    as (_ & _ & H3 & _ & H5 & _ & H7 & _).
  split; [|split].
  - apply (H7 "casbin" (PBool true) true). discriminate.
  - apply H3. discriminate.
  - apply H5. discriminate.
Defined.

Lemma fillDbMap_absent (i : nat) (dbNames : list string)
    (m : gmap string nat) (name : string) :
  name ∉ dbNames -> fillDbMap i dbNames m !! name = m !! name.
Proof.
  revert i m. induction dbNames as [|x rest IH]; intros i m Hn; [done|].
  apply not_elem_of_cons in Hn as [Hx Hrest]. cbn [fillDbMap].
  rewrite IH by done. by rewrite lookup_insert_ne.
Qed.

Lemma fillDbMap_last (i k : nat) (dbNames : list string)
    (m : gmap string nat) (name : string) :
  dbNames !! k = Some name -> name ∉ drop (S k) dbNames ->
  fillDbMap i dbNames m !! name = Some (i + k)%nat.
Proof.
  revert i k m. induction dbNames as [|x rest IH]; intros i k m Hk Hlast;
    [done|].
  cbn [fillDbMap]. destruct k as [|k].
  - injection Hk as ->. simpl in Hlast. rewrite fillDbMap_absent by done.
    by rewrite lookup_insert_eq, Nat.add_0_r.
  - simpl in Hk, Hlast. rewrite (IH (S i) k) by done. f_equal. lia.
Qed.

(** X25.  The pool of databases.  [InitDbResolver] on at least one source
    gives every name the index of its last occurrence and starts the policy
    at 0.  [switchDb] sets the policy to the index of the name, whatever it
    was before, and resolves the pool of the handle it returns at once.  A
    name that was never registered selects index 0, so the handle is on the
    first source.  A registered name whose index has a source gives the
    handle on that source.  A registered name whose index has no source
    makes [switchDb] panic inside [Resolve], unless there is one source
    only, which is then taken without the policy being asked. *)
Theorem switchDb_selects {P} (dbArr : list P) (first : P)
    (dbNames : list string) (p0 : nat) (dbName : string) :
  head dbArr = Some first ->
  let registered := fillDbMap 0 dbNames ∅ in
  let dbPool := mkDbPool registered p0 dbArr in
  InitDbResolver dbArr dbNames = Return (mkDbPool registered 0 dbArr)
  /\ (dbName ∉ dbNames ->
      switchDb dbPool dbName = (mkDbPool registered 0 dbArr, Return first))
  /\ (forall k, dbNames !! k = Some dbName -> dbName ∉ drop (S k) dbNames ->
        (switchDb dbPool dbName).1 = mkDbPool registered k dbArr
        /\ (forall c, dbArr !! k = Some c ->
            (switchDb dbPool dbName).2 = Return c)
        /\ ((length dbArr <= k)%nat ->
            (switchDb dbPool dbName).2
            = if bool_decide (length dbArr = 1%nat) then Return first
              else Panicked "index out of range")).
Proof.
  intros Hfirst registered dbPool.
  destruct dbArr as [|c0 rest]; [done|]. injection Hfirst as ->.
  split; [|split].
  - unfold InitDbResolver. by rewrite bool_decide_eq_false_2.
  - intros Hn. unfold switchDb, dbPool, registered. simpl.
    rewrite fillDbMap_absent by done. rewrite lookup_empty. simpl.
    by destruct rest.
  - intros k Hk Hlast. unfold switchDb, dbPool, registered. simpl.
    rewrite (fillDbMap_last 0 k) by done. simpl.
    split; [done|]. split.
    + intros c Hc. unfold resolveWrite, Resolve.
      destruct rest as [|c1 rest]; [|by rewrite Hc].
      destruct k as [|k]; [|done]. simpl in Hc. by injection Hc as ->.
    + intros Hlen. unfold resolveWrite, Resolve.
      destruct rest as [|c1 rest]; [done|].
      rewrite bool_decide_eq_false_2 by (simpl; lia).
      by rewrite (proj2 (lookup_ge_None (first :: c1 :: rest) k)).
Qed.

Lemma switchDb_selects_witness :
  switchDb (mkDbPool (fillDbMap 0 ["casbin1"; "casbin2"; "casbin3"] ∅) 1
                     ["db1"; "db2"]) "casbin4"
  = (mkDbPool (fillDbMap 0 ["casbin1"; "casbin2"; "casbin3"] ∅) 0
              ["db1"; "db2"], Return "db1")
  /\ (switchDb (mkDbPool (fillDbMap 0 ["casbin1"; "casbin2"; "casbin3"] ∅) 1
                         ["db1"; "db2"]) "casbin3").2
     = Panicked "index out of range".
Proof.
  destruct (switchDb_selects ["db1"; "db2"] "db1"
              ["casbin1"; "casbin2"; "casbin3"] 1 "casbin3" eq_refl)
    as (_ & _ & H3).
  split.
  - refine (proj1 (proj2 (switchDb_selects ["db1"; "db2"] "db1"
                            ["casbin1"; "casbin2"; "casbin3"] 1 "casbin4"
                            eq_refl)) _).
    intros H. repeat (apply elem_of_cons in H as [H|H]; [discriminate|]).
    by apply elem_of_nil in H.
  - destruct (H3 2%nat) as (_ & _ & H); [reflexivity| |].
    + simpl. apply not_elem_of_nil.
    + apply H. simpl. lia.
Defined.

Lemma string_length_app (s1 s2 : string) :
  String.length (s1 +:+ s2) = (String.length s1 + String.length s2)%nat.
Proof.
  induction s1 as [|c s1 IH]; [done|].
  change (String c s1 +:+ s2) with (String c (s1 +:+ s2)).
  simpl. by rewrite IH.
Qed.

Lemma getFullTableName_prefixed (a : Adapter) :
  tablePrefix a ≠ "" -> getFullTableName a ≠ tableName a.
Proof.
  intros Hp. unfold getFullTableName. rewrite bool_decide_eq_true_2 by done.
  intros Heq. apply (f_equal String.length) in Heq.
  rewrite !string_length_app in Heq. simpl in Heq. lia.
Qed.

Lemma truncateTable_table (a : Adapter) (db : DB) :
  exists sql,
    truncateTable a db = send db (SExec sql) (Some WClear)
    /\ sqlTable sql = getFullTableName a.
Proof.
  unfold truncateTable, Exec.
  repeat (case_bool_decide; [by eexists|]). by eexists.
Qed.

Section TransactionAdapter.

Variable LoadPolicyHook : Adapter -> M (Adapter * outcome (option error)).

(** X26.  The adapter that [Transaction] sets on the enforcer for the
    callback carries the table name of the adapter and the transaction, but
    not the table prefix: on an adapter with a prefix, a truncate the
    callback does through it names the table without the prefix.  The
    enforcer still holds that adapter when [Transaction] returns. *)
Theorem Transaction_drops_table_prefix (a : Adapter) (s : Store) :
  db a = conn -> faults s = [] -> tablePrefix a ≠ "" ->
  exists sql s',
    Transaction Adapter exampleSetAdapter LoadPolicyHook a a
                truncatingCallback s
    = ((mkAdapter "" "" "" "" (tableName a) false
                  (mkDB (Some (nextTx s)) None) (dialect a) false,
        Return None), s')
    /\ trace s' = trace s ++ [Stmt None SBegin;
                              Stmt (Some (nextTx s)) (SExec sql);
                              Stmt (Some (nextTx s)) SCommit]
    /\ sqlTable sql = tableName a
    /\ sqlTable sql ≠ getFullTableName a.
Proof.
  intros Hdb Hf Hp. unfold Transaction. rewrite Hdb.
  rewrite (bind_run _ _ _ _ _ (Begin_conn s ltac:(by rewrite Hf))).
  cbn [Error]. unfold exampleSetAdapter, truncatingCallback. cbn [db].
  set (t := nextTx s).
  set (b := mkAdapter "" "" "" "" (tableName a) false (mkDB (Some t) None)
                      (dialect a) false).
  destruct (truncateTable_table b (mkDB (Some t) None)) as (sql & Hsql & Htb).
  rewrite Hsql.
  pose proof (send_tx_ok t [] (SExec sql) WClear (begun s)
                ltac:(by simpl; rewrite lookup_insert_eq)
                ltac:(by simpl; rewrite Hf)) as Hsend.
  set (s1 := mkStore _ _ _ _ _ _) in Hsend.
  assert (Hfc : (err <- send (mkDB (Some t) None) (SExec sql) (Some WClear) ;;
                 ret (b, Return err)) (begun s) = ((b, Return None), s1)).
  { by rewrite (bind_run _ _ _ _ _ Hsend). }
  rewrite (bind_run _ _ _ _ _ Hfc).
  assert (Hl1 : txs s1 !! t = Some [WClear]).
  { simpl. by rewrite lookup_insert_eq. }
  pose proof (Commit_open _ _ _ Hl1) as Hcm. simpl in Hcm.
  rewrite (bind_run _ _ _ _ _ Hcm).
  rewrite leave_clean. exists sql. eexists. split; [reflexivity|]. simpl.
  split; [by rewrite <- !app_assoc|]. split; [done|].
  rewrite Htb. unfold getFullTableName at 1. simpl.
  intros Heq. by apply (getFullTableName_prefixed a Hp).
Qed.

End TransactionAdapter.

Lemma Transaction_drops_table_prefix_witness :
  exists s',
    (Transaction Adapter exampleSetAdapter failingReload prefixedAdapter
                 prefixedAdapter truncatingCallback (exampleStore [])).2 = s'
    /\ trace s' = [Stmt None SBegin;
                   Stmt (Some 0%nat) (SExec (TruncateTable "casbin_rule" false));
                   Stmt (Some 0%nat) SCommit]
    /\ getFullTableName prefixedAdapter = "cms_casbin_rule".
Proof.
  destruct (Transaction_drops_table_prefix failingReload prefixedAdapter
              (exampleStore [])) as (sql & s' & H1 & H2 & _).
  - reflexivity.
  - reflexivity.
  - discriminate.
  - exists s'. split; [by rewrite H1|]. split; [|reflexivity].
    change s' with (snd (mkAdapter "" "" "" "" (tableName prefixedAdapter) false
                           (mkDB (Some (nextTx (exampleStore []))) None)
                           (dialect prefixedAdapter) false,
                         Return (@None error), s')).
    rewrite <- H1. vm_compute. reflexivity.
Defined.

(** ** Batch update, when nothing fails *)

Lemma apply_update (o n : CasbinRule) (rows : list CasbinRule) :
  Ptype o ≠ "" ->
  apply_write (WUpdate ((fun cv => Eq cv.1 cv.2) <$> nonZero o) (nonZero n)) rows
  = updated rows (o, n).
Proof.
  intros Hp. unfold updated. simpl. apply list_fmap_ext. intros i r _.
  cbv beta. rewrite assign_overlay.
  destruct (decide (agrees o r)) as [Hag|Hag].
  - by rewrite (proj2 (matches_nonZero o r Hp) Hag).
  - destruct (matches _ r) eqn:E; [|done].
    by apply (matches_nonZero o r Hp) in E.
Qed.

(** The loop of [updatePolicies] over the first [k] indices, in an open
    transaction on a store that fails nothing: one UPDATE joins the log for
    every pair of an old and a new rule. *)
Lemma updateEach_ok (t : nat) (k : nat) (is2 : list nat)
    (oldPolicies newPolicies : list CasbinRule) (i : nat)
    (log : list write) (s : Store) :
  txs s !! t = Some log -> faults s = [] ->
  Forall (fun o => Ptype o ≠ "") oldPolicies ->
  (i + k <= length oldPolicies)%nat -> (i + k <= length newPolicies)%nat ->
  exists s' log',
    updateEach (mkDB (Some t) None) (seq i k ++ is2) oldPolicies newPolicies s
    = updateEach (mkDB (Some t) None) is2 oldPolicies newPolicies s'
    /\ txs s' !! t = Some (log ++ log')
    /\ (forall rows,
          replay log' rows
          = foldl updated rows
                  (zip (take k (drop i oldPolicies))
                       (take k (drop i newPolicies))))
    /\ faults s' = []
    /\ table s' = table s.
Proof.
  intros Hlog Hf Hty. revert i log s Hlog Hf.
  induction k as [|k IH]; intros i log s Hlog Hf Ho Hn.
  - exists s, []. rewrite app_nil_r. by simpl.
  - assert (Hio : is_Some (oldPolicies !! i)) by (apply lookup_lt_is_Some; lia).
    assert (Hin : is_Some (newPolicies !! i)) by (apply lookup_lt_is_Some; lia).
    destruct Hio as [o Hio], Hin as [n Hin].
    assert (Hpo : Ptype o ≠ "").
    { rewrite Forall_forall in Hty. apply Hty.
      by eapply list_elem_of_lookup_2. }
    cbn [seq]. rewrite <- app_comm_cons. cbn [updateEach]. rewrite Hio, Hin.
    unfold updateWhere. cbn [Error].
    rewrite bool_decide_eq_false_2 by (by apply nonZero_typed).
    unfold Updates.
    rewrite (bind_run _ _ _ _ _ (send_tx_ok t log _ _ s Hlog Hf)).
    set (w := WUpdate _ _). set (s1 := mkStore _ _ _ _ _ _).
    destruct (IH (S i) (log ++ [w]) s1) as (s' & log' & Hrun & Hl & Hrep & Hf' & Htb).
    { simpl. by rewrite lookup_insert_eq. }
    { done. }
    { lia. }
    { lia. }
    exists s', (w :: log'). split; [exact Hrun|].
    split; [by rewrite Hl, <- app_assoc|]. split; [|done].
    intros rows.
    change (replay (w :: log') rows) with (replay log' (apply_write w rows)).
    rewrite Hrep. unfold w. rewrite apply_update by done.
    rewrite (drop_S oldPolicies o i Hio), (drop_S newPolicies n i Hin).
    done.
Qed.

(** X27.  When no statement fails, [updatePolicies] with at least as many
    new rules as old ones returns no error and applies, in one transaction
    and in order, one UPDATE for every old rule with the new rule at the
    same index; a later UPDATE works on the rows the earlier ones left.
    New rules beyond the number of old rules are ignored. *)
Theorem updatePolicies_applies_in_order (a : Adapter) (sec ptype : string)
    (oldRules newRules : list (list string)) (s : Store) :
  ptype ≠ "" -> faults s = [] ->
  (length oldRules <= length newRules)%nat ->
  let oldPolicies := (fun r => savePolicyLine ptype r) <$> oldRules in
  let newPolicies := (fun r => savePolicyLine ptype r) <$> newRules in
  exists s',
    updatePolicies a conn sec ptype oldRules newRules s = (Return None, s')
    /\ table s' = foldl updated (table s) (zip oldPolicies newPolicies)
    /\ length (table s') = length (table s).
Proof.
  intros Hp Hf Hlen old new. unfold updatePolicies, gormTransaction.
  cbn [txid conn].
  rewrite (bind_run _ _ _ _ _ (Begin_conn s ltac:(by rewrite Hf))).
  cbn [Error]. fold old. fold new. set (t := nextTx s).
  destruct (updateEach_ok t (length old) [] old new 0 [] (begun s))
    as (s1 & log' & Hrun & Hl & Hrep & Hf1 & Htb1).
  { simpl. by rewrite lookup_insert_eq. }
  { simpl. by rewrite Hf. }
  { unfold old. rewrite Forall_fmap. apply Forall_true. intros r.
    simpl. by rewrite Ptype_savePolicyLine. }
  { lia. }
  { unfold old, new. rewrite !length_fmap. lia. }
  rewrite app_nil_r in Hrun. cbn [updateEach] in Hrun.
  rewrite (bind_run _ _ _ _ _ Hrun).
  pose proof (Commit_open _ _ _ Hl) as Hcm. rewrite Hf1 in Hcm. simpl in Hcm.
  rewrite (bind_run _ _ _ _ _ Hcm). eexists. split; [reflexivity|]. simpl.
  rewrite Htb1. simpl. rewrite Hrep, !drop_0, firstn_all.
  assert (Hzip : zip old (take (length old) new) = zip old new).
  { clearbody old new. clear. revert new.
    induction old as [|o old IH]; intros [|n new]; simpl; try done.
    by rewrite IH. }
  rewrite Hzip. split; [done|].
  clear. generalize (table s). induction (zip old new) as [|on l IH];
    intros rows; [done|].
  cbn [foldl]. rewrite IH. unfold updated. by rewrite length_fmap.
Qed.

Lemma updatePolicies_applies_in_order_witness :
  exists s',
    updatePolicies exampleAdapter conn "p" "p"
      [["alice"; "data1"; "read"]; ["alice"; "data1"; "write"]]
      [["alice"; "data1"; "write"]; ["alice"; "data9"]; ["ignored"]]
      threeRows = (Return None, s')
    /\ table s' = [mkRule 1 "p" "alice" "data9" "write" "" "" "" "" "";
                   aliceAdmin; bobWrite].
Proof.
  destruct (updatePolicies_applies_in_order exampleAdapter "p" "p"
              [["alice"; "data1"; "read"]; ["alice"; "data1"; "write"]]
              [["alice"; "data1"; "write"]; ["alice"; "data9"]; ["ignored"]]
              threeRows) as (s' & H1 & H2 & _).
  - discriminate.
  - reflexivity.
  - simpl. lia.
  - exists s'. split; [exact H1|]. rewrite H2. reflexivity.
Defined.

(** ** Full save, on a transaction handle *)

Lemma Begin_in_tx (t : nat) (s : Store) :
  Begin (mkDB (Some t) None) s
  = (mkDB (Some t) (Some ErrInvalidTransaction), s).
Proof. reflexivity. Qed.

Lemma Rollback_holding (t : nat) (e : option error) (s : Store) :
  Rollback (mkDB (Some t) e) s = (tt, afterRollback t s).
Proof. reflexivity. Qed.

(** On a handle that carries an error and holds transaction [t], the loops
    of [savePolicy] send no INSERT: either no flush was due and the rows
    are all pending, or the first flush was skipped with the error of the
    handle and the transaction rolled back. *)
Lemma saveRules_invalid (a : Adapter) (t : nat) (e : error) (ptype : string)
    (rules : list (list string)) (lines : list CasbinRule) (s : Store) :
  saveRules a (mkDB (Some t) (Some e)) ptype rules lines s
  = (inl (lines ++ ((fun rule => savePolicyLine ptype rule) <$> rules)), s)
  \/ (saveRules a (mkDB (Some t) (Some e)) ptype rules lines s
      = (inr e, afterRollback t s)
      /\ rules ≠ []).
Proof.
  revert lines. induction rules as [|rule rules IH]; intros lines;
    cbn [saveRules].
  - left. by rewrite app_nil_r.
  - case_bool_decide; [by right|].
    destruct (IH (lines ++ [savePolicyLine ptype rule])) as [H'|[H' _]];
      [left|right]; rewrite H'; [|done].
    by rewrite <- app_assoc.
Qed.

Lemma saveAssertions_invalid (a : Adapter) (t : nat) (e : error)
    (asts : list (string * Assertion)) (lines : list CasbinRule) (s : Store) :
  saveAssertions a (mkDB (Some t) (Some e)) asts lines s
  = (inl (lines ++ sectionLines asts), s)
  \/ (saveAssertions a (mkDB (Some t) (Some e)) asts lines s
      = (inr e, afterRollback t s)
      /\ sectionLines asts ≠ []).
Proof.
  revert lines. induction asts as [|[ptype ast] asts IH]; intros lines;
    cbn [saveAssertions].
  - left. by rewrite app_nil_r.
  - unfold sectionLines. rewrite bind_cons. fold (sectionLines asts). simpl.
    destruct (saveRules_invalid a t e ptype (Policy ast) lines s)
      as [H'|[H' Hne]]; rewrite (bind_run _ _ _ _ _ H').
    + destruct (IH (lines ++ ((fun rule => savePolicyLine ptype rule)
                                <$> Policy ast))) as [H2|[H2 Hne]];
        [left|right]; rewrite H2.
      * by rewrite <- app_assoc.
      * split; [done|]. intros [_ H0]%app_eq_nil. done.
    + right. split; [done|]. intros [H0 _]%app_eq_nil.
      by apply fmap_nil_inv in H0.
Qed.

(** X28.  [savePolicy] on a handle that is an open transaction.  [Begin]
    cannot begin a transaction in a transaction: the handle it returns
    carries [ErrInvalidTransaction] and still holds the caller's
    transaction.  The truncate statement joins that transaction.  When the
    model holds a rule, no INSERT is sent, and the rollback that follows
    the skipped one rolls the caller's transaction back: the table is as
    it was.  When the model holds no rule, the commit at the end commits
    the caller's transaction, and the table is empty.  Either way the
    caller's transaction is closed and [savePolicy] returns
    [ErrInvalidTransaction]. *)
Theorem savePolicy_in_transaction (a : Adapter) (model : Model) (t : nat)
    (s : Store) :
  live (mkDB (Some t) None) s = true ->
  let lines := sectionLines (map_to_list (model !!! "p" : AssertionMap))
               ++ sectionLines (map_to_list (model !!! "g" : AssertionMap)) in
  exists sql,
    sqlTable sql = getFullTableName a
    /\ (lines ≠ [] ->
        exists s',
          savePolicy a (mkDB (Some t) None) model s
          = (Some ErrInvalidTransaction, s')
          /\ table s' = table s
          /\ txs s' = delete t (txs s)
          /\ trace s' = trace s ++ [Stmt (Some t) (SExec sql);
                                    Stmt (Some t) SRollback])
    /\ (lines = [] -> default None (faults s !! 1%nat) = None ->
        exists s',
          savePolicy a (mkDB (Some t) None) model s
          = (Some ErrInvalidTransaction, s')
          /\ table s' = []
          /\ txs s' = delete t (txs s)
          /\ trace s' = trace s ++ [Stmt (Some t) (SExec sql);
                                    Stmt (Some t) SCommit]).
Proof.
  intros Hlive lines.
  destruct (truncateTable_table a (mkDB (Some t) None)) as (sql & Ht & Hsql).
  exists sql. split; [done|]. unfold savePolicy.
  rewrite (bind_run _ _ _ _ _ (Begin_in_tx t s)). rewrite Ht.
  rewrite (bind_run _ _ _ _ _ (send_live _ (SExec sql) WClear _ Hlive)).
  set (s0 := written _ WClear _).
  assert (Hrb : table (afterRollback t s0) = table s
                /\ txs (afterRollback t s0) = delete t (txs s)
                /\ trace (afterRollback t s0)
                   = trace s ++ [Stmt (Some t) (SExec sql);
                                 Stmt (Some t) SRollback]).
  { split; [done|]. split.
    - unfold s0, written. simpl. by rewrite delete_insert_eq.
    - simpl. by rewrite <- app_assoc. }
  destruct (saveAssertions_invalid a t ErrInvalidTransaction
              (map_to_list (model !!! "p" : AssertionMap)) [] s0)
    as [H1|[H1 Hne1]]; rewrite (bind_run _ _ _ _ _ H1).
  2:{ split; [by eexists|]. intros [H0 _]%app_eq_nil. done. }
  destruct (saveAssertions_invalid a t ErrInvalidTransaction
              (map_to_list (model !!! "g" : AssertionMap))
              ([] ++ sectionLines (map_to_list (model !!! "p" : AssertionMap)))
              s0)
    as [H2|[H2 Hne2]]; rewrite (bind_run _ _ _ _ _ H2).
  2:{ split; [by eexists|]. intros [_ H0]%app_eq_nil. done. }
  rewrite app_nil_l. fold lines. split.
  - intros Hne. rewrite bool_decide_eq_true_2.
    2:{ unfold len. destruct lines; [done|]. simpl. lia. }
    by eexists.
  - intros -> Hf. rewrite bool_decide_eq_false_2 by done.
    apply live_open in Hlive as [log Hlog].
    assert (Hlog0 : txs s0 !! t = Some (log ++ [WClear])).
    { unfold s0, written. simpl. by rewrite lookup_insert_eq, Hlog. }
    assert (Hh : default None (head (faults s0)) = None).
    { unfold s0, written. simpl. rewrite head_lookup.
      by destruct (faults s) as [|f0 fs]. }
    assert (Htx0 : delete t (txs s0) = delete t (txs s)).
    { unfold s0, written. simpl. by rewrite delete_insert_eq. }
    assert (Htr0 : trace s0 = trace s ++ [Stmt (Some t) (SExec sql)]) by done.
    clear Hrb H1 H2. clearbody s0.
    destruct s0 as [tb0 tx0 nt0 ni0 fs0 tr0]. simpl in *.
    unfold Commit, bind, emit, fault. simpl.
    destruct fs0 as [|[e1|] fs0]; [|done|]; simpl; rewrite Hlog0;
      (eexists; split; [reflexivity|]); simpl;
      rewrite replay_snoc, Htx0, Htr0, <- app_assoc; done.
Qed.

Lemma savePolicy_in_transaction_witness :
  exists sql s',
    sqlTable sql = "casbin_rule"
    /\ savePolicy exampleAdapter (mkDB (Some 0%nat) None) exampleModel storeInTx
       = (Some "invalid transaction", s')
    /\ table s' = [aliceRead; aliceAdmin]
    /\ txs s' !! 0%nat = None
    /\ trace s' = [Stmt (Some 0%nat) (SExec sql); Stmt (Some 0%nat) SRollback].
Proof.
  destruct (savePolicy_in_transaction exampleAdapter exampleModel 0 storeInTx)
    as (sql & Hsql & H & _); [reflexivity|].
  destruct H as (s' & H1 & H2 & H3 & H4).
  { apply (bool_decide_unpack (_ ≠ [])). by vm_compute. }
  exists sql, s'. split; [exact Hsql|]. split; [exact H1|].
  split; [exact H2|]. split; [|exact H4].
  rewrite H3. apply lookup_delete_eq.
Defined.
